(** * SERUtils: a shallow embedding of the SER movie codec

    The development follows two translation units of the repository:

    - [src/src/ser.c] with [src/src/ser.h], the library ([Module Ser]):
      geometry of the container, frame and pixel decoding, timestamp
      conversion, warnings, opening a movie;
    - [src/serutils.c], the command line program ([Module SerUtils]):
      frame ranges, split planning, extraction of frames to a new container.

    Conventions of the embedding.  Machine integers are values of [Z] and
    every C operation that can wrap is written with its wrap-around
    ([CInt.u32], [CInt.int64], ...).  The target is an LP64 little-endian
    host: [int] has 32 bits, [long], [size_t] and [time_t] have 64 bits, and
    the macro [IS_BIG_ENDIAN] evaluates to 0.  A [double] is an IEEE-754
    binary64 number with round-to-nearest-even, modelled with the
    specification floats of the standard library.  A file is the list of its
    bytes; [fread] on a regular file returns the requested bytes or as many
    as are left; memory allocation and writes to the output file succeed. *)

From Stdlib Require Import ZArith List Lia Bool.
From Stdlib Require Import Strings.Byte.
From Stdlib Require Import Floats.SpecFloat.
From coqutil Require Import Byte Word.LittleEndianList.
From stdpp Require Import base list.
Import ListNotations.
Local Open Scope Z_scope.

(** ** Machine integers *)

Module CInt.

(** Value of an unsigned [bits]-bit object after an operation whose
    mathematical result is [x]. *)
Definition wrap (bits x : Z) : Z := x mod 2 ^ bits.

(** Two's complement reading of the low [bits] bits of [x]. *)
Definition swrap (bits x : Z) : Z :=
  (x + 2 ^ (bits - 1)) mod 2 ^ bits - 2 ^ (bits - 1).

Definition u8 : Z -> Z := wrap 8.
Definition u16 : Z -> Z := wrap 16.
Definition u32 : Z -> Z := wrap 32.
Definition u64 : Z -> Z := wrap 64.      (* uint64_t, size_t *)
Definition int32 : Z -> Z := swrap 32.   (* int *)
Definition int64 : Z -> Z := swrap 64.   (* long, time_t *)

Definition is_u16 (x : Z) : Prop := 0 <= x < 2 ^ 16.
Definition is_u32 (x : Z) : Prop := 0 <= x < 2 ^ 32.
Definition is_u64 (x : Z) : Prop := 0 <= x < 2 ^ 64.
Definition is_int (x : Z) : Prop := - 2 ^ 31 <= x < 2 ^ 31.

End CInt.

Import CInt.

(** ** The movie header

    [SERHeader] is the packed struct of [ser.h]; [serutils.c] declares the
    same struct under [#pragma pack(1)].  Numeric fields hold the value of
    the C object, the character arrays hold their bytes. *)

Record SERHeader : Type := mkSERHeader {
  sFileID : list byte;        (* char[14] *)
  uiLuID : Z;                 (* uint32_t *)
  uiColorID : Z;              (* uint32_t *)
  uiLittleEndian : Z;         (* uint32_t *)
  uiImageWidth : Z;           (* uint32_t *)
  uiImageHeight : Z;          (* uint32_t *)
  uiPixelDepth : Z;           (* uint32_t *)
  uiFrameCount : Z;           (* uint32_t *)
  sObserver : list byte;      (* char[40] *)
  sInstrument : list byte;    (* char[40] *)
  sTelescope : list byte;     (* char[40] *)
  ulDateTime : Z;             (* uint64_t *)
  ulDateTime_UTC : Z          (* uint64_t *)
}.

(** [sizeof(SERHeader)] for the packed layout: 14 + 7 * 4 + 3 * 40 + 2 * 8. *)
Definition sizeof_SERHeader : Z := 178.

(** Every field holds a value of its C type. *)
Record header_wf (h : SERHeader) : Prop := mk_header_wf {
  wf_fileid : length (sFileID h) = 14%nat;
  wf_luid : is_u32 (uiLuID h);
  wf_color : is_u32 (uiColorID h);
  wf_le : is_u32 (uiLittleEndian h);
  wf_width : is_u32 (uiImageWidth h);
  wf_height : is_u32 (uiImageHeight h);
  wf_depth : is_u32 (uiPixelDepth h);
  wf_count : is_u32 (uiFrameCount h);
  wf_observer : length (sObserver h) = 40%nat;
  wf_instrument : length (sInstrument h) = 40%nat;
  wf_telescope : length (sTelescope h) = 40%nat;
  wf_date : is_u64 (ulDateTime h);
  wf_date_utc : is_u64 (ulDateTime_UTC h)
}.

(** Constants of [ser.h] and [ser.c]. *)
Definition COLOR_MONO : Z := 0.
Definition COLOR_RGB : Z := 100.
Definition COLOR_BGR : Z := 101.

Definition WARN_FILESIZE_MISMATCH : Z := Z.shiftl 1 0.
Definition WARN_INCOMPLETE_FRAMES : Z := Z.shiftl 1 1.
Definition WARN_MISSING_TRAILER : Z := Z.shiftl 1 2.
Definition WARN_INCOMPLETE_TRAILER : Z := Z.shiftl 1 3.
Definition WARN_BAD_FRAME_DATES : Z := Z.shiftl 1 4.

Definition NANOSEC_PER_SEC : Z := 1000000000.
Definition MICROSEC_PER_SEC : Z := 1000000.
Definition TIMEUNITS_PER_SEC : Z := NANOSEC_PER_SEC / 100.
Definition SECS_UNTIL_UNIXTIME : Z := 62135596800.

(** [sizeof(int)] on the target. *)
Definition sizeof_int : Z := 4.

(** [IS_BIG_ENDIAN] of [ser.h], on the little-endian target. *)
Definition IS_BIG_ENDIAN : bool := false.

(** ** Bytes and memory images *)

(** The [len] bytes of [bs] that start at offset [off]. *)
Definition slice (off len : nat) (bs : list byte) : list byte :=
  take len (drop off bs).

(** [swapint16], [swapint32], [swapint64]: the in-place exchange of the
    bytes of an object, on the value the object holds. *)
Definition swap_bytes (size : nat) (v : Z) : Z :=
  le_combine (rev (le_split size v)).

Definition swapint16 : Z -> Z := swap_bytes 2.
Definition swapint32 : Z -> Z := swap_bytes 4.
Definition swapint64 : Z -> Z := swap_bytes 8.

Definition swapMovieHeader (h : SERHeader) : SERHeader :=
  {| sFileID := sFileID h;
     uiLuID := swapint32 (uiLuID h);
     uiColorID := swapint32 (uiColorID h);
     uiLittleEndian := swapint32 (uiLittleEndian h);
     uiImageWidth := swapint32 (uiImageWidth h);
     uiImageHeight := swapint32 (uiImageHeight h);
     uiPixelDepth := swapint32 (uiPixelDepth h);
     uiFrameCount := swapint32 (uiFrameCount h);
     sObserver := sObserver h;
     sInstrument := sInstrument h;
     sTelescope := sTelescope h;
     ulDateTime := swapint64 (ulDateTime h);
     ulDateTime_UTC := swapint64 (ulDateTime_UTC h) |}.

(** The struct as the 178 bytes of memory it occupies. *)
Definition bytes_of_header (h : SERHeader) : list byte :=
  sFileID h
  ++ le_split 4 (uiLuID h)
  ++ le_split 4 (uiColorID h)
  ++ le_split 4 (uiLittleEndian h)
  ++ le_split 4 (uiImageWidth h)
  ++ le_split 4 (uiImageHeight h)
  ++ le_split 4 (uiPixelDepth h)
  ++ le_split 4 (uiFrameCount h)
  ++ sObserver h
  ++ sInstrument h
  ++ sTelescope h
  ++ le_split 8 (ulDateTime h)
  ++ le_split 8 (ulDateTime_UTC h).

(** The struct whose memory holds the bytes [bs]. *)
Definition header_of_bytes (bs : list byte) : SERHeader :=
  {| sFileID := slice 0 14 bs;
     uiLuID := le_combine (slice 14 4 bs);
     uiColorID := le_combine (slice 18 4 bs);
     uiLittleEndian := le_combine (slice 22 4 bs);
     uiImageWidth := le_combine (slice 26 4 bs);
     uiImageHeight := le_combine (slice 30 4 bs);
     uiPixelDepth := le_combine (slice 34 4 bs);
     uiFrameCount := le_combine (slice 38 4 bs);
     sObserver := slice 42 40 bs;
     sInstrument := slice 82 40 bs;
     sTelescope := slice 122 40 bs;
     ulDateTime := le_combine (slice 162 8 bs);
     ulDateTime_UTC := le_combine (slice 170 8 bs) |}.

(** [SER_FILE_ID], the string "LUCAM-RECORDER" without its terminator. *)
Definition SER_FILE_ID : list byte :=
  [x4c; x55; x43; x41; x4d; x2d; x52; x45; x43; x4f; x52; x44; x45; x52].

(** [strcmp] on two character arrays; [s1] carries its terminating NUL.
    Bytes are compared as [unsigned char]. *)
Fixpoint strcmp (s1 s2 : list byte) : Z :=
  match s1, s2 with
  | c1 :: t1, c2 :: t2 =>
      if byte.unsigned c1 =? byte.unsigned c2
      then (if byte.unsigned c1 =? 0 then 0 else strcmp t1 t2)
      else byte.unsigned c1 - byte.unsigned c2
  | c1 :: _, [] => byte.unsigned c1
  | [], c2 :: _ => - byte.unsigned c2
  | [], [] => 0
  end.

(** ** Files *)

Module FileIO.

(** An open stream: the bytes of the file, the cursor, and the log of the
    [fread] calls made on it, each with its offset and requested count. *)
Record FILE : Type := mkFILE {
  f_data : list byte;
  f_pos : Z;
  f_reads : list (Z * Z)
}.

Definition fopen (data : list byte) : FILE := mkFILE data 0 [].

(** [fseek(f, offset, SEEK_SET)]: fails on a negative offset and leaves
    the cursor where it was. *)
Definition fseek (f : FILE) (offset : Z) : Z * FILE :=
  if offset <? 0 then (-1, f)
  else (0, mkFILE (f_data f) offset (f_reads f)).

(** [fread(p, 1, n, f)]: the bytes obtained and the stream after the call. *)
Definition fread (f : FILE) (n : Z) : list byte * FILE :=
  let bs := slice (Z.to_nat (f_pos f)) (Z.to_nat n) (f_data f) in
  (bs, mkFILE (f_data f) (f_pos f + Z.of_nat (length bs))
              (f_reads f ++ [(f_pos f, n)])).

(** [fseek(f, 0, SEEK_END); ftell(f)]. *)
Definition file_length (f : FILE) : Z := Z.of_nat (length (f_data f)).

(** The loop
    [while (totread < size) { nread = fread(p, 1, remain, f);
       if (nread <= 0) break; totread += nread; remain -= nread; p += nread; }]
    with [buf] the bytes stored so far. *)
Fixpoint fread_full (fuel : nat) (f : FILE) (size : Z) (buf : list byte)
  : list byte * FILE :=
  match fuel with
  | O => (buf, f)
  | S fuel' =>
      let totread := Z.of_nat (length buf) in
      if totread <? size then
        let '(chunk, f') := fread f (size - totread) in
        if Z.of_nat (length chunk) <=? 0 then (buf, f')
        else fread_full fuel' f' size (buf ++ chunk)
      else (buf, f)
  end.

(** Every pass of the loop stores at least one byte, so [size] passes and
    the final test are all it can make. *)
Definition fread_fuel (size : Z) : nat := S (S (Z.to_nat size)).

(** [fwrite(p, 1, n, out)] on the output stream, which takes all bytes. *)
Definition fwrite (out : list byte) (bs : list byte) : Z * list byte :=
  (Z.of_nat (length bs), out ++ bs).

End FileIO.

Import FileIO.

(** ** Binary64 arithmetic, as used by [SERVideoTimeToUnixtime] *)

Module Double.

Definition prec : Z := 53.
Definition emax : Z := 1024.

(** Conversion of an integer to [double]. *)
Definition of_Z (z : Z) : spec_float := binary_normalize prec emax z 0 false.

Definition div : spec_float -> spec_float -> spec_float := SFdiv prec emax.
Definition mul : spec_float -> spec_float -> spec_float := SFmul prec emax.

(** The cast [(uint64_t) x] of a finite [double]: the fraction is dropped. *)
Definition to_Z (x : spec_float) : Z :=
  match x with
  | S754_finite s m e =>
      let a := if 0 <=? e then Z.pos m * 2 ^ e else Z.pos m / 2 ^ (- e) in
      if s then - a else a
  | _ => 0
  end.

End Double.

(** ** The library: [src/src/ser.c] and [src/src/ser.h] *)

Module Ser.

Record SERMovie : Type := mkSERMovie {
  file : FILE;
  filesize : Z;             (* size_t *)
  header : SERHeader;
  duration : Z;             (* uint32_t *)
  firstFrameDate : Z;       (* uint64_t *)
  lastFrameDate : Z;        (* uint64_t *)
  warnings : Z;             (* int *)
  invert_endianness : Z     (* int *)
}.

Definition set_file (movie : SERMovie) (f : FILE) : SERMovie :=
  mkSERMovie f (filesize movie) (header movie) (duration movie)
             (firstFrameDate movie) (lastFrameDate movie) (warnings movie)
             (invert_endianness movie).

Record SERFrame : Type := mkSERFrame {
  id : Z;                   (* uint32_t *)
  index : Z;                (* uint32_t *)
  datetime : Z;             (* uint64_t *)
  unixtime : Z;             (* time_t *)
  littleEndian : Z;
  pixelDepth : Z;
  colorID : Z;
  width : Z;
  height : Z;
  size : Z;                 (* size_t *)
  data : option (list byte) (* void *, NULL or the frame's bytes *)
}.

(** The union [SERPixelValue], by the member that was written.
    [PxIndeterminate]: the members were assigned from locals that were
    never set (a colour code above [COLOR_BGR]). *)
Inductive SERPixelValue : Type :=
| PxInt8 (v : Z)
| PxInt16 (v : Z)
| PxRgb8 (r g b : Z)
| PxRgb16 (r g b : Z)
| PxIndeterminate.

(** Macros of [ser.h]. *)
Definition SERGetFrameCount (movie : SERMovie) : Z :=
  uiFrameCount (header movie).

Definition SERIsBigEndian (movie : SERMovie) : bool :=
  (negb (invert_endianness movie =? 0)
     && (uiLittleEndian (header movie) =? 0))
  || ((invert_endianness movie =? 0)
     && (uiLittleEndian (header movie) =? 1)).

Definition getTruncatedUInt16 (value pixel_size : Z) : Z :=
  if 16 <=? pixel_size then value
  else
    let lshift := u32 (16 - pixel_size) in
    let rshift := u32 (pixel_size - lshift) in
    u16 (Z.shiftl value lshift + Z.shiftr value rshift).

(** [usec] is the optional out parameter: [want_usec] says that the
    pointer is not NULL. *)
Definition SERVideoTimeToUnixtime (video_t : Z) (want_usec : bool)
  : Z * option Z :=
  let elapsed_sec :=
    Double.div (Double.of_Z video_t) (Double.of_Z TIMEUNITS_PER_SEC) in
  let seconds := u64 (Double.to_Z elapsed_sec - SECS_UNTIL_UNIXTIME) in
  let usec :=
    u32 (u64 (Double.to_Z
                (Double.mul elapsed_sec (Double.of_Z MICROSEC_PER_SEC)))
         mod MICROSEC_PER_SEC) in
  (int64 seconds, if want_usec then Some usec else None).

Definition SERGetNumberOfPlanes (header : SERHeader) : Z :=
  let color := uiColorID header in
  if COLOR_RGB <=? color then 3 else 1.

Definition SERGetBytesPerPixel (header : SERHeader) : Z :=
  let depth := uiPixelDepth header in
  if depth <? 1 then 0
  else
    let planes := SERGetNumberOfPlanes header in
    if depth <=? 8 then planes else 2 * planes.

(** The product is formed in [uint32_t] and widened to [size_t]. *)
Definition SERGetFrameSize (header : SERHeader) : Z :=
  let bytes_per_px := SERGetBytesPerPixel header in
  u32 (u32 (uiImageWidth header * uiImageHeight header) * u32 bytes_per_px).

(** [frame_idx] is an [int]; the sum is formed in [size_t] and returned
    as a [long]. *)
Definition SERGetFrameOffset (header : SERHeader) (frame_idx : Z) : Z :=
  int64 (u64 (sizeof_SERHeader
              + u64 (u64 frame_idx * SERGetFrameSize header))).

Definition SERGetTrailerOffset (header : SERHeader) : Z :=
  let frame_idx := uiFrameCount header in
  SERGetFrameOffset header (int32 frame_idx).

Definition SERMovieHasTrailer (movie : SERMovie) : bool :=
  u64 (SERGetTrailerOffset (header movie)) <? filesize movie.

(** The loop of [SERGetFrameDate]: every [fread] stores at the start of
    [date], whose eight bytes are [date_mem]. *)
Fixpoint date_read_loop (fuel : nat) (f : FILE) (date_mem : list byte)
         (nread : Z) : list byte * FILE :=
  match fuel with
  | O => (date_mem, f)
  | S fuel' =>
      if nread <? 8 then
        let '(chunk, f') := fread f 8 in
        let date_mem' := chunk ++ drop (length chunk) date_mem in
        let nread' := Z.of_nat (length chunk) in
        if nread' <=? 0 then (date_mem', f')
        else date_read_loop fuel' f' date_mem' nread'
      else (date_mem, f)
  end.

(** [idx] is a [long].  The handle has its header (see [SEROpenMovie]). *)
Definition SERGetFrameDate (movie : SERMovie) (idx : Z) : Z * SERMovie :=
  let header := header movie in
  if uiFrameCount header <=? idx then (0, movie)
  else
    let offset := SERGetTrailerOffset header in
    let offset := int64 (u64 (offset + u64 (idx * 8))) in
    let '(_, f1) := fseek (file movie) offset in
    let '(date_mem, f2) :=
      date_read_loop (fread_fuel 8) f1 (le_split 8 0) 0 in
    let date := le_combine date_mem in
    let date := if IS_BIG_ENDIAN && (0 <? date) then swapint64 date
                else date in
    (date, set_file movie f2).

Definition SERGetFirstFrameDate (movie : SERMovie) : Z * SERMovie :=
  SERGetFrameDate movie 0.

Definition SERGetLastFrameDate (movie : SERMovie) : Z * SERMovie :=
  let idx := u32 (SERGetFrameCount movie - 1) in
  SERGetFrameDate movie idx.

(** The ways [SERGetFrame] returns NULL, by the message it logs. *)
Inductive FrameError : Type :=
| FrameIndexBeyond      (* "Frame index %d beyond movie frames (%d)" *)
| MissingFrame          (* "Missing frame at index %d, movie frames incomplete" *)
| IncompleteFrame       (* "Incomplete data for frame %d" *)
| FrameSeekFailed       (* "Failed to read frame %d", after fseek *)
| FrameShortRead.       (* "Failed to read frame %d", after the read loop *)

(** [frame_idx] is a [uint32_t]. *)
Definition SERGetFrame (movie : SERMovie) (frame_idx : Z)
  : (FrameError + SERFrame) * SERMovie :=
  if SERGetFrameCount movie <=? frame_idx then (inl FrameIndexBeyond, movie)
  else
    let size := SERGetFrameSize (header movie) in
    let offset_start := u64 (sizeof_SERHeader + u64 (frame_idx * size)) in
    let offset_end := u64 (offset_start + size) in
    if filesize movie <? offset_start then (inl MissingFrame, movie)
    else if filesize movie <? offset_end then (inl IncompleteFrame, movie)
    else
      let '(datetime, movie1) := SERGetFrameDate movie frame_idx in
      let unixtime :=
        if 0 <? datetime then fst (SERVideoTimeToUnixtime datetime false)
        else 0 in
      let '(rc, f2) := fseek (file movie1) (int64 offset_start) in
      if rc <? 0 then (inl FrameSeekFailed, set_file movie1 f2)
      else
        let '(buf, f3) := fread_full (fread_fuel size) f2 size [] in
        let totread := Z.of_nat (length buf) in
        if negb (totread =? size) then
          (inl FrameShortRead, set_file movie1 f3)
        else
          (inr {| id := u32 (frame_idx + 1);
                  index := frame_idx;
                  datetime := datetime;
                  unixtime := unixtime;
                  littleEndian := uiLittleEndian (header movie1);
                  pixelDepth := uiPixelDepth (header movie1);
                  colorID := uiColorID (header movie1);
                  width := uiImageWidth (header movie1);
                  height := uiImageHeight (header movie1);
                  size := size;
                  data := Some buf |},
           set_file movie1 f3).

(** Loads through [uint8_t *] and [uint16_t *] at a byte offset of the
    frame buffer; a byte outside the buffer reads as 0 in the model. *)
Definition load8 (buf : list byte) (off : Z) : Z :=
  byte.unsigned (nth (Z.to_nat off) buf x00).

Definition load16 (buf : list byte) (off : Z) : Z :=
  le_combine [nth (Z.to_nat off) buf x00; nth (Z.to_nat (off + 1)) buf x00].

(** [x], [y] are [uint32_t], [big_endian] is an [int].  [None] is the
    return value 0. *)
Definition SERGetFramePixel (movie : SERMovie) (frame : SERFrame)
           (x y big_endian : Z) : option SERPixelValue :=
  match data frame with
  | None => None
  | Some buf =>
      if (width frame <=? x) || (height frame <=? y) then None
      else
        let channels := if COLOR_RGB <=? colorID frame then 3 else 1 in
        let channel_size := if pixelDepth frame <=? 8 then 1 else 2 in
        let bytes_per_px := channels * channel_size in
        let offset :=
          u32 (u32 (u32 (y * width frame) * bytes_per_px)
               + u32 (x * bytes_per_px)) in
        let same_endianess :=
          big_endian =? Z.b2z (SERIsBigEndian movie) in
        let is_rgb := COLOR_RGB <=? colorID frame in
        if channel_size =? 1 then
          (* 1-8 bit frames *)
          if colorID frame =? COLOR_RGB then
            Some (PxRgb8 (load8 buf offset) (load8 buf (offset + 1))
                         (load8 buf (offset + 2)))
          else if colorID frame =? COLOR_BGR then
            Some (PxRgb8 (load8 buf (offset + 2)) (load8 buf (offset + 1))
                         (load8 buf offset))
          else if is_rgb then Some PxIndeterminate
          else Some (PxInt8 (load8 buf offset))
        else
          (* 9-16 bit frames *)
          let lshift :=
            if pixelDepth frame <? 16 then u32 (16 - pixelDepth frame)
            else 0 in
          let rshift :=
            if pixelDepth frame <? 16 then u32 (pixelDepth frame - lshift)
            else 0 in
          let channel (val : Z) : Z :=
            let val := if same_endianess then val else swapint16 val in
            if pixelDepth frame <? 16
            then u16 (Z.shiftl val lshift + Z.shiftr val rshift)
            else val in
          if negb is_rgb then Some (PxInt16 (channel (load16 buf offset)))
          else if colorID frame =? COLOR_RGB then
            (* data is a char pointer: each data++ advances one byte *)
            Some (PxRgb16 (channel (load16 buf offset))
                          (channel (load16 buf (offset + 1)))
                          (channel (load16 buf (offset + 2))))
          else if colorID frame =? COLOR_BGR then
            Some (PxRgb16 (channel (load16 buf (offset + 2)))
                          (channel (load16 buf (offset + 1)))
                          (channel (load16 buf offset)))
          else Some PxIndeterminate
  end.

Definition SERCountMovieWarnings (warnings : Z) : Z :=
  let len := sizeof_int in
  fold_left
    (fun count i =>
       if negb (Z.land warnings (Z.shiftl 1 i) =? 0) then count + 1
       else count)
    (map Z.of_nat (seq 0 (Z.to_nat len))) 0.

(** The read loop of [parseHeader]; [buf] holds what was stored through
    [hdrptr] so far.  [None]: "Failed to read SER movie header". *)
Fixpoint header_read_loop (fuel : nat) (f : FILE) (buf : list byte)
  : option (list byte) * FILE :=
  match fuel with
  | O => (Some buf, f)
  | S fuel' =>
      let hdrsize := sizeof_SERHeader in
      let totread := Z.of_nat (length buf) in
      if totread <? hdrsize then
        let '(chunk, f') := fread f hdrsize in
        let nread := Z.of_nat (length chunk) in
        if nread <=? 0 then (None, f')
        else if totread =? hdrsize then (Some (buf ++ chunk), f')
        else header_read_loop fuel' f' (buf ++ chunk)
      else (Some buf, f)
  end.

Definition parseHeader (f : FILE) : option SERHeader * FILE :=
  let '(_, f1) := fseek f 0 in
  match header_read_loop (fread_fuel sizeof_SERHeader) f1 [] with
  | (None, f2) => (None, f2)
  | (Some mem, f2) =>
      let h := header_of_bytes mem in
      (Some (if IS_BIG_ENDIAN then swapMovieHeader h else h), f2)
  end.

(** The ways [SEROpenMovie] returns NULL, by the message it logs. *)
Inductive OpenError : Type :=
| CannotOpenFile        (* "Could not open movie file for reading" *)
| HeaderReadFailed      (* "Failed to parse movie header" *)
| NotASerFile.          (* "File is not a SER movie file" *)

(** [contents] is what the file system holds at the path, if anything.
    The result comes with the reads that were made on the stream. *)
Definition SEROpenMovie (contents : option (list byte))
  : (OpenError + SERMovie) * list (Z * Z) :=
  match contents with
  | None => (inl CannotOpenFile, [])
  | Some bytes =>
      match parseHeader (fopen bytes) with
      | (None, f1) => (inl HeaderReadFailed, f_reads f1)
      | (Some hdr, f1) =>
          if negb (strcmp (SER_FILE_ID ++ [x00]) (bytes_of_header hdr) =? 0)
          then (inl NotASerFile, f_reads f1)
          else
            let size := file_length f1 in
            let '(_, f2) := fseek f1 0 in
            let movie := mkSERMovie f2 size hdr 0 0 0 0 0 in
            let frame_c := SERGetFrameCount movie in
            let trailer_offset := u64 (SERGetTrailerOffset hdr) in
            let expected_trailer_size := u64 (frame_c * 8) in
            let incomplete_frames := size <? trailer_offset in
            let warns :=
              if incomplete_frames then WARN_INCOMPLETE_FRAMES
              else if negb (SERMovieHasTrailer movie)
                   then WARN_MISSING_TRAILER
              else
                let trailer_size := u64 (size - trailer_offset) in
                if trailer_size <? expected_trailer_size
                then WARN_INCOMPLETE_TRAILER else 0 in
            if incomplete_frames then
              (inr (mkSERMovie f2 size hdr 0 0 0 warns 0), f_reads f2)
            else
              let '(first, movie1) := SERGetFirstFrameDate movie in
              let '(last, movie2) := SERGetLastFrameDate movie1 in
              let f3 := file movie2 in
              if first <? last then
                let duration := u32 ((last - first) / TIMEUNITS_PER_SEC) in
                (inr (mkSERMovie f3 size hdr duration first last warns 0),
                 f_reads f3)
              else if Z.land warns WARN_INCOMPLETE_TRAILER =? 0 then
                (inr (mkSERMovie f3 size hdr 0 first last
                                 (Z.lor warns WARN_BAD_FRAME_DATES) 0),
                 f_reads f3)
              else
                (inr (mkSERMovie f3 size hdr 0 first last warns 0),
                 f_reads f3)
      end
  end.

(** *** All the pixels of a frame: [SERGetFramePixels] *)

(** The ways [SERGetFramePixels] does not return the buffer: the three
    jumps to [fail], an access outside the frame data or the buffer
    (undefined behaviour), or the model ran out of iterations. *)
Inductive PixelsStop : Type :=
| NoFrame (e : FrameError)  (* [SERGetFrame] returned NULL *)
| EmptyFrame                (* the size of a frame is 0 *)
| PixelsOutOfBounds
| PixelsOutOfFuel.

(** The [n] bytes at offset [off] of a buffer, and the buffer after [bs]
    was stored at offset [off]; [None] outside the buffer. *)
Definition peek (buf : list byte) (off : Z) (n : nat) : option (list byte) :=
  if (0 <=? off) && (off + Z.of_nat n <=? Z.of_nat (length buf))
  then Some (slice (Z.to_nat off) n buf)
  else None.

Definition poke (buf : list byte) (off : Z) (bs : list byte)
  : option (list byte) :=
  if (0 <=? off) && (off + Z.of_nat (length bs) <=? Z.of_nat (length buf))
  then Some (take (Z.to_nat off) buf ++ bs
             ++ drop (Z.to_nat off + length bs) buf)
  else None.

(** The loop over the pixels of three 8-bit channels.  [read_ptr] and
    [write_ptr] are both [written] bytes after the start of their
    buffers. *)
Fixpoint rgb8_loop (fuel : nat) (size colorID : Z) (data pixels : list byte)
         (written : Z) : PixelsStop + list byte :=
  match fuel with
  | O => inl PixelsOutOfFuel
  | S fuel' =>
      if written <? size then
        match peek data written 3 with
        | Some [c1; c2; c3] =>
            let '(r, g, b) :=
              if colorID =? COLOR_RGB then (c1, c2, c3) else (c3, c2, c1) in
            match poke pixels written [r; g; b] with
            | Some pixels =>
                rgb8_loop fuel' size colorID data pixels (u64 (written + 3))
            | None => inl PixelsOutOfBounds
            end
        | _ => inl PixelsOutOfBounds
        end
      else inr pixels
  end.

(** What the loops of the 16-bit frames do to a value that was read:
    [if (!same_endianess) swapint16(&c); if (depth < 16) c =
    getTruncatedUInt16(c, depth);].  [depth] is an [int]. *)
Definition convert16 (same_endianess : bool) (depth : Z) (c : Z) : Z :=
  let c := if same_endianess then c else swapint16 c in
  if depth <? 16 then getTruncatedUInt16 c (u32 depth) else c.

Fixpoint mono16_loop (fuel : nat) (size : Z) (same_endianess : bool)
         (depth : Z) (data pixels : list byte) (written : Z)
  : PixelsStop + list byte :=
  match fuel with
  | O => inl PixelsOutOfFuel
  | S fuel' =>
      if written <? size then
        match peek data written 2 with
        | Some mem =>
            let pixel := le_combine mem in
            let pixel := convert16 same_endianess depth pixel in
            match poke pixels written (le_split 2 pixel) with
            | Some pixels =>
                mono16_loop fuel' size same_endianess depth data pixels
                            (u64 (written + 2))
            | None => inl PixelsOutOfBounds
            end
        | None => inl PixelsOutOfBounds
        end
      else inr pixels
  end.

Fixpoint rgb16_loop (fuel : nat) (size colorID : Z) (same_endianess : bool)
         (depth : Z) (data pixels : list byte) (written : Z)
  : PixelsStop + list byte :=
  match fuel with
  | O => inl PixelsOutOfFuel
  | S fuel' =>
      if written <? size then
        match peek data written 2, peek data (written + 2) 2,
              peek data (written + 4) 2 with
        | Some m1, Some m2, Some m3 =>
            let c1 := convert16 same_endianess depth (le_combine m1) in
            let c2 := convert16 same_endianess depth (le_combine m2) in
            let c3 := convert16 same_endianess depth (le_combine m3) in
            let '(r, g, b) :=
              if colorID =? COLOR_RGB then (c1, c2, c3) else (c3, c2, c1) in
            match poke pixels written
                       (le_split 2 r ++ le_split 2 g ++ le_split 2 b) with
            | Some pixels =>
                rgb16_loop fuel' size colorID same_endianess depth data
                           pixels (u64 (written + 3 * 2))
            | None => inl PixelsOutOfBounds
            end
        | _, _, _ => inl PixelsOutOfBounds
        end
      else inr pixels
  end.

(** [frame_idx] is a [uint32_t], [big_endian] an [int].  The result is the
    buffer [pixels], whose length is the value stored through [size]. *)
Definition SERGetFramePixels (movie : SERMovie) (frame_idx big_endian : Z)
  : (PixelsStop + list byte) * SERMovie :=
  match SERGetFrame movie frame_idx with
  | (inl e, movie) => (inl (NoFrame e), movie)
  | (inr frame, movie) =>
      let size := SERGetFrameSize (header movie) in
      if size =? 0 then (inl EmptyFrame, movie)
      else
        let pixels := replicate (Z.to_nat size) x00 in
        let channels := SERGetNumberOfPlanes (header movie) in
        let depth := int32 (pixelDepth frame) in
        let chsize := if 8 <? depth then 2 else 1 in
        let same_endianess :=
          big_endian =? Z.b2z (SERIsBigEndian movie) in
        let is_mono := channels =? 1 in
        match data frame with
        | None => (inl PixelsOutOfBounds, movie)
        | Some data =>
            let fuel := S (Z.to_nat size) in
            if chsize =? 1 then
              if is_mono then
                match peek data 0 (Z.to_nat size) with
                | Some mem =>
                    match poke pixels 0 mem with
                    | Some pixels => (inr pixels, movie)
                    | None => (inl PixelsOutOfBounds, movie)
                    end
                | None => (inl PixelsOutOfBounds, movie)
                end
              else
                (rgb8_loop fuel size (colorID frame) data pixels 0, movie)
            else if is_mono then
              (mono16_loop fuel size same_endianess depth data pixels 0,
               movie)
            else
              (rgb16_loop fuel size (colorID frame) same_endianess depth
                          data pixels 0,
               movie)
        end
  end.

End Ser.

(** ** The program: [src/serutils.c] *)

Module SerUtils.

Definition BAYER_RGB : Z := 100.

Definition SPLIT_MODE_COUNT : Z := 1.
Definition SPLIT_MODE_FRAMES : Z := 2.
Definition SPLIT_MODE_SECS : Z := 3.

Definition MAX_SPLIT_COUNT : Z := 50.
Definition MIN_SPLIT_FRAMES_PER_CHUNCK : Z := 100.

Record SERFrameRange : Type := mkRange {
  from : Z;                 (* uint32_t *)
  to : Z;                   (* uint32_t *)
  count : Z                 (* uint32_t *)
}.

Record SERMovie : Type := mkSERMovie {
  file : FILE;
  filesize : Z;             (* long *)
  header : SERHeader;
  duration : Z;
  firstFrameDate : Z;
  lastFrameDate : Z;
  warnings : Z
}.

Definition set_file (movie : SERMovie) (f : FILE) : SERMovie :=
  mkSERMovie f (filesize movie) (header movie) (duration movie)
             (firstFrameDate movie) (lastFrameDate movie) (warnings movie).

(** The fields of [MainConfig] that the modelled functions read. *)
Record MainConfig : Type := mkMainConfig {
  frames_from : Z;          (* int *)
  frames_to : Z;            (* int *)
  frames_count : Z;         (* int *)
  split_amount : Z;         (* int *)
  split_mode : Z            (* int *)
}.

(** How a call ends: it returns, it fails with a message, an [assert]
    aborts the program, an array is accessed outside its bounds
    (undefined behaviour), or the model ran out of iterations.
    [OutOfBounds] says that the program reached the access and nothing
    more: its behaviour from there on is undefined, and the model does not
    describe it.  In particular an outcome other than [Fails e] does not
    say that the program never prints the message of [e]. *)
Inductive outcome (E A : Type) : Type :=
| Returns (a : A)
| Fails (e : E)
| AssertFailed
| OutOfBounds
| OutOfFuel.

Arguments Returns {E A} a.
Arguments Fails {E A} e.
Arguments AssertFailed {E A}.
Arguments OutOfBounds {E A}.
Arguments OutOfFuel {E A}.

(** Arrays of a fixed length, as lists. *)
Definition arr_get {A : Type} (arr : list A) (i : Z) : option A :=
  if (0 <=? i) && (i <? Z.of_nat (length arr)) then arr !! Z.to_nat i
  else None.

Definition arr_set {A : Type} (arr : list A) (i : Z) (x : A)
  : option (list A) :=
  if (0 <=? i) && (i <? Z.of_nat (length arr))
  then Some (<[Z.to_nat i := x]> arr)
  else None.

(** The macro [updateRangeCount]; [None] is the failed [assert]. *)
Definition updateRangeCount (r : SERFrameRange) : option SERFrameRange :=
  if to r <? from r then None
  else Some (mkRange (from r) (to r) (u32 (1 + u32 (to r - from r)))).

Definition videoTimeToUnixtime (video_t : Z) : Z :=
  let seconds := video_t / TIMEUNITS_PER_SEC in
  int64 (u64 (seconds - SECS_UNTIL_UNIXTIME)).

Definition getNumberOfPlanes (header : SERHeader) : Z :=
  let color := uiColorID header in
  if BAYER_RGB <=? color then 3 else 1.

Definition getBytesPerPixel (header : SERHeader) : Z :=
  let depth := uiPixelDepth header in
  if depth <? 1 then 0
  else
    let planes := getNumberOfPlanes header in
    if depth <=? 8 then planes else 2 * planes.

Definition getFrameSize (header : SERHeader) : Z :=
  let bytes_per_px := getBytesPerPixel header in
  u32 (u32 (uiImageWidth header * uiImageHeight header) * u32 bytes_per_px).

Definition getFrameOffset (header : SERHeader) (frame_idx : Z) : Z :=
  int64 (u64 (sizeof_SERHeader + u64 (u64 frame_idx * getFrameSize header))).

Definition getTrailerOffset (header : SERHeader) : Z :=
  let frame_idx := uiFrameCount header in
  getFrameOffset header (int32 frame_idx).

(** The loop of [readFrameDate]; see [Ser.date_read_loop]. *)
Fixpoint date_read_loop (fuel : nat) (f : FILE) (date_mem : list byte)
         (nread : Z) : list byte * FILE :=
  match fuel with
  | O => (date_mem, f)
  | S fuel' =>
      if nread <? 8 then
        let '(chunk, f') := fread f 8 in
        let date_mem' := chunk ++ drop (length chunk) date_mem in
        let nread' := Z.of_nat (length chunk) in
        if nread' <=? 0 then (date_mem', f')
        else date_read_loop fuel' f' date_mem' nread'
      else (date_mem, f)
  end.

(** [idx] is a [long]. *)
Definition readFrameDate (movie : SERMovie) (idx : Z) : Z * SERMovie :=
  let header := header movie in
  if uiFrameCount header <=? idx then (0, movie)
  else
    let offset := getTrailerOffset header in
    let offset := int64 (u64 (offset + u64 (idx * 8))) in
    let '(_, f1) := fseek (file movie) offset in
    let '(date_mem, f2) :=
      date_read_loop (fread_fuel 8) f1 (le_split 8 0) 0 in
    let date := le_combine date_mem in
    let date := if IS_BIG_ENDIAN && (0 <? date) then swapint64 date
                else date in
    (date, set_file movie f2).

Definition getFrameRangeDuration (movie : SERMovie) (range : SERFrameRange)
  : Z * SERMovie :=
  if to range <? from range then (-1, movie)
  else if to range =? from range then (0, movie)
  else
    let '(start_date, movie1) := readFrameDate movie (from range) in
    let '(end_date, movie2) := readFrameDate movie1 (to range) in
    if (start_date =? 0) || (end_date =? 0) then (-1, movie2)
    else if end_date <? start_date then (-1, movie2)
    else if start_date =? end_date then (0, movie2)
    else
      let start_t := videoTimeToUnixtime start_date in
      let end_t := videoTimeToUnixtime end_date in
      (int64 (end_t - start_t), movie2).

Inductive RangeError : Type :=
| FirstFrameBeyond      (* "first frame beyond movie frames" *)
| LastFrameBeyond       (* "last frame beyond movie frames" *)
| LastBeforeFirst.      (* "last frame < first frame" *)

(** [from], [to] and [count] are [int]s. *)
Definition determineFrameRange (header : SERHeader) (from to count : Z)
  : outcome RangeError SERFrameRange :=
  let tot := int32 (uiFrameCount header) in
  let from := if from <? 0 then int32 (tot + from) else from in
  if tot <=? from then Fails FirstFrameBeyond
  else
    let to := if 0 <? count then int32 (from + count - 1)
              else if to <? 0 then int32 (tot + to)
              else to in
    if tot <=? to then Fails LastFrameBeyond
    else if to <? from then Fails LastBeforeFirst
    else
      match updateRangeCount (mkRange (u32 from) (u32 to) 0) with
      | None => AssertFailed
      | Some range => Returns range
      end.

(** *** Planning a split: [determineSplitRanges] *)

Inductive SplitError : Type :=
| InvalidValue            (* "invalid value" *)
| InvalidMode             (* "invalid mode (see --help)" *)
| SourceTooShort          (* "at least %d frames needed in source movie" *)
| TooMuchSplits           (* "too much splits, every chunck needs ..." *)
| AtLeastFramesNeeded     (* "at least %d frames needed" *)
| ChunckTooSmall          (* "every chunck needs at least %d frames" *)
| TimeLapseTooBig         (* "too big time lapse between frame ..." *)
| InvalidDatetime         (* "invalid datetime for frame %d" *)
| MaxSplitCountExceeded.  (* "too much splits (%d), maximum splits ..." *)

(** The globals [splitRanges] and [split_count]. *)
Record SplitPlan : Type := mkPlan {
  splitRanges : list SERFrameRange;
  split_count : Z           (* int *)
}.

(** A result [r] of [A] in [outcome], continued by [k]. *)
Definition obind {E A B : Type} (r : outcome E A) (k : A -> outcome E B)
  : outcome E B :=
  match r with
  | Returns a => k a
  | Fails e => Fails e
  | AssertFailed => AssertFailed
  | OutOfBounds => OutOfBounds
  | OutOfFuel => OutOfFuel
  end.

(** A store to, or a load from, an array element: outside the array the
    behaviour is undefined. *)
Definition store {E A : Type} (arr : list A) (i : Z) (x : A)
  : outcome E (list A) :=
  match arr_set arr i x with Some arr' => Returns arr' | None => OutOfBounds end.

Definition load {E A : Type} (arr : list A) (i : Z) : outcome E A :=
  match arr_get arr i with Some x => Returns x | None => OutOfBounds end.

(** [assert(r->to >= r->from); r->count = ...] on a range variable. *)
Definition updated {E : Type} (r : SERFrameRange) : outcome E SERFrameRange :=
  match updateRangeCount r with Some r' => Returns r' | None => AssertFailed end.

#[global] Instance outcome_bind {E : Type} : MBind (outcome E) :=
  fun A B k r => obind r k.

(** **** [SPLIT_MODE_COUNT] *)

(** The loop [for (i = 0; i < split_count; i++)], with [todo] passes left.
    [frames_added] and [ranges_added] are the [int]s declared in this
    block.  The result also says how the loop was left. *)
Fixpoint count_mode_loop (todo : nat) (i : Z) (frame_count : Z)
         (frames_per_movie : Z) (arr : list SERFrameRange)
         (frames_added ranges_added : Z)
  : outcome SplitError (list SERFrameRange * Z * Z) :=
  match todo with
  | O => Returns (arr, frames_added, ranges_added)
  | S todo' =>
      let from := u32 (i * u32 frames_per_movie) in
      let to := u32 (from + frames_per_movie - 1) in
      if frame_count <=? to then Returns (arr, frames_added, ranges_added)
      else
        let count := u32 (1 + u32 (to - from)) in
        arr' ← store arr i (mkRange from to count);
        count_mode_loop todo' (u32 (i + 1)) frame_count frames_per_movie
                        arr' (int32 (frames_added + count))
                        (int32 (ranges_added + 1))
  end.

Definition count_mode (frame_count amount : Z) (arr : list SERFrameRange)
  : outcome SplitError SplitPlan :=
  let split_count := amount in
  if MAX_SPLIT_COUNT <? split_count then Fails MaxSplitCountExceeded
  else
    let frames_per_movie := int32 (frame_count / u32 split_count) in
    if frames_per_movie <? MIN_SPLIT_FRAMES_PER_CHUNCK
    then Fails TooMuchSplits
    else
      '(arr, frames_added, ranges_added) ←
        count_mode_loop (Z.to_nat split_count) 0 frame_count
                        frames_per_movie arr 0 0;
      if u32 frames_added <? frame_count then
        old ← load arr ranges_added;
        range ← updated (mkRange (u32 frames_added) (u32 (frame_count - 1))
                                  (count old));
        arr ← store arr ranges_added range;
        if count range <? MIN_SPLIT_FRAMES_PER_CHUNCK then
          if ranges_added =? 0 then Fails AtLeastFramesNeeded
          else
            prev_range ← load arr (ranges_added - 1);
            prev_range ← updated (mkRange (from prev_range) (to range)
                                           (count prev_range));
            arr ← store arr (ranges_added - 1) prev_range;
            Returns (mkPlan arr ranges_added)
        else Returns (mkPlan arr (int32 (ranges_added + 1)))
      else Returns (mkPlan arr split_count).

(** **** [SPLIT_MODE_FRAMES] *)

(** The loop [while (frames_added < frames_to_add)].  Every pass that
    does not leave the loop adds one range, and the loop is left once
    more than [MAX_SPLIT_COUNT] ranges were added.  The test of the limit
    follows the stores to [splitRanges + ranges_added]: the pass that
    would report "too much splits" has stored to [splitRanges[50]] first,
    outside the array, and the model ends the run at that store. *)
Fixpoint frames_mode_loop (fuel : nat) (frame_count amount : Z)
         (arr : list SERFrameRange)
         (frames_added ranges_added last_frame_added : Z)
  : outcome SplitError SplitPlan :=
  match fuel with
  | O => OutOfFuel
  | S fuel' =>
      let frames_to_add := frame_count in
      let last_movie_frame := u32 (frame_count - 1) in
      if frames_added <? frames_to_add then
        old ← load arr ranges_added;
        let from := if frames_added =? 0 then 0
                    else u32 (last_frame_added + 1) in
        arr ← store arr ranges_added (mkRange from (to old) (count old));
        if last_movie_frame <? from
        then Returns (mkPlan arr ranges_added)
        else
          let to := u32 (from + amount - 1) in
          let to := if last_movie_frame <? to then last_movie_frame
                    else to in
          range ← updated (mkRange from to (count old));
          arr ← store arr ranges_added range;
          let frames_added := u32 (frames_added + count range) in
          let last_frame_added := to in
          let ranges_added := u32 (ranges_added + 1) in
          if MAX_SPLIT_COUNT <? ranges_added
          then Fails MaxSplitCountExceeded
          else frames_mode_loop fuel' frame_count amount arr frames_added
                                ranges_added last_frame_added
      else Returns (mkPlan arr ranges_added)
  end.

Definition frames_mode (frame_count amount : Z) (arr : list SERFrameRange)
  : outcome SplitError SplitPlan :=
  if amount <? MIN_SPLIT_FRAMES_PER_CHUNCK then Fails ChunckTooSmall
  else
    frames_mode_loop (S (S (Z.to_nat MAX_SPLIT_COUNT))) frame_count amount
                     arr 0 0 0.

(** **** [SPLIT_MODE_SECS] *)

(** The variables of the loop over the frames.  The pointer [range]
    is [splitRanges + ranges_added] throughout. *)
Record secs_state : Type := mkSecs {
  s_ranges : list SERFrameRange;    (* splitRanges *)
  s_durations : list Z;             (* chuncks_duration *)
  s_ranges_added : Z;               (* uint32_t *)
  s_previous_t : Z;                 (* time_t *)
  s_elapsed_t : Z;                  (* time_t *)
  s_movie : SERMovie
}.

(** The end of a pass for frame [i]: a chunk is closed when the elapsed
    time reached [max_t].  Here too the test of the limit follows the
    stores to element [ranges_added] of [splitRanges] and of
    [chuncks_duration], which are outside the arrays when 50 ranges were
    added before. *)
Definition secs_close_chunk (i max_t frame_t : Z) (st : secs_state)
           (elapsed_t : Z) (arr : list SERFrameRange)
  : outcome SplitError secs_state :=
  let ra := s_ranges_added st in
  if max_t <=? elapsed_t then
    let frame_idx := if max_t <? elapsed_t then u32 (i - 1) else i in
    old ← load arr ra;
    range ← updated (mkRange (from old) frame_idx (count old));
    arr ← store arr ra range;
    durations ← store (s_durations st) ra elapsed_t;
    let ra := u32 (ra + 1) in
    if MAX_SPLIT_COUNT <? ra then Fails MaxSplitCountExceeded
    else if count range <? MIN_SPLIT_FRAMES_PER_CHUNCK
    then Fails ChunckTooSmall
    else
      arr ← store arr ra (mkRange (u32 (frame_idx + 1)) 0 0);
      Returns (mkSecs arr durations ra frame_t 0 (s_movie st))
  else
    Returns (mkSecs arr (s_durations st) ra frame_t elapsed_t (s_movie st)).

(** One pass of [for (i = 0; i < movie->header->uiFrameCount; i++)]. *)
Definition secs_mode_step (i max_t : Z) (st : secs_state)
  : outcome SplitError secs_state :=
  let '(datetime, movie) := readFrameDate (s_movie st) i in
  let st := mkSecs (s_ranges st) (s_durations st) (s_ranges_added st)
                   (s_previous_t st) (s_elapsed_t st) movie in
  if datetime =? 0 then Fails InvalidDatetime
  else
    let frame_t := videoTimeToUnixtime datetime in
    if (frame_t <=? 0) || (frame_t <? s_previous_t st)
    then Fails InvalidDatetime
    else
      range ← load (s_ranges st) (s_ranges_added st);
      if i =? 0 then
        arr ← store (s_ranges st) (s_ranges_added st)
                    (mkRange i (to range) (count range));
        secs_close_chunk i max_t frame_t st (s_elapsed_t st) arr
      else if i =? from range then
        (* previous_t = frame_t; continue; *)
        Returns (mkSecs (s_ranges st) (s_durations st) (s_ranges_added st)
                        frame_t (s_elapsed_t st) movie)
      else if 0 <? s_previous_t st then
        let last_frame_elapsed_t := int64 (frame_t - s_previous_t st) in
        if max_t <? last_frame_elapsed_t then Fails TimeLapseTooBig
        else
          secs_close_chunk i max_t frame_t st
                           (int64 (s_elapsed_t st + last_frame_elapsed_t))
                           (s_ranges st)
      else secs_close_chunk i max_t frame_t st (s_elapsed_t st) (s_ranges st).

Fixpoint secs_mode_loop (todo : nat) (i max_t : Z) (st : secs_state)
  : outcome SplitError secs_state :=
  match todo with
  | O => Returns st
  | S todo' =>
      st ← secs_mode_step i max_t st;
      secs_mode_loop todo' (u32 (i + 1)) max_t st
  end.

(** The code after the loop: the frames after the last closed chunk. *)
Definition secs_mode_tail (frame_count min_t : Z) (st : secs_state)
  : outcome SplitError (SplitPlan * list Z * SERMovie) :=
  let last_movie_frame := u32 (frame_count - 1) in
  let ra := s_ranges_added st in
  range ← load (s_ranges st) ra;
  if (0 <? from range) && (from range <? last_movie_frame)
     && (to range =? 0) then
    range ← updated (mkRange (from range) last_movie_frame (count range));
    arr ← store (s_ranges st) ra range;
    let '(duration, movie) := getFrameRangeDuration (s_movie st) range in
    if (count range <? MIN_SPLIT_FRAMES_PER_CHUNCK) || (duration <? min_t)
    then
      if ra =? 0 then Fails AtLeastFramesNeeded
      else
        prev_range ← load arr (ra - 1);
        prev_range ← updated (mkRange (from prev_range) (to range)
                                       (count prev_range));
        arr ← store arr (ra - 1) prev_range;
        durations ← store (s_durations st) ra duration;
        Returns (mkPlan arr ra, durations, movie)
    else
      let ra := u32 (ra + 1) in
      durations ← store (s_durations st) ra duration;
      Returns (mkPlan arr ra, durations, movie)
  else Returns (mkPlan (s_ranges st) ra, s_durations st, s_movie st).

Definition secs_mode (movie : SERMovie) (amount : Z)
           (arr : list SERFrameRange) (durations : list Z)
  : outcome SplitError (SplitPlan * list Z * SERMovie) :=
  let frame_count := uiFrameCount (header movie) in
  let max_t := amount in
  let min_t := amount / 10 in
  arr ← store arr 0 (mkRange 0 0 0);
  st ← secs_mode_loop (Z.to_nat frame_count) 0 max_t
                      (mkSecs arr durations 0 0 0 movie);
  '(plan, durations, movie) ← secs_mode_tail frame_count min_t st;
  if MAX_SPLIT_COUNT <? split_count plan then Fails MaxSplitCountExceeded
  else Returns (plan, durations, movie).

(** **** The check of the plan *)

(** The loop [for (i = 0; i < split_count; i++)] that adds up the counts
    of the ranges; its [assert(end_t > start_t)] guards a range whose
    duration cannot be computed. *)
Fixpoint check_plan_loop (todo : nat) (i : Z) (arr : list SERFrameRange)
         (durations : list Z) (movie : SERMovie) (tot_frames_added : Z)
  : outcome SplitError (Z * SERMovie) :=
  match todo with
  | O => Returns (tot_frames_added, movie)
  | S todo' =>
      range ← load arr i;
      duration ← load durations i;
      let '(asserted, movie) :=
        if duration =? 0 then
          let '(duration, movie1) := getFrameRangeDuration movie range in
          if duration <? 0 then
            let '(start_date, movie2) := readFrameDate movie1 (from range) in
            let '(end_date, movie3) := readFrameDate movie2 (to range) in
            (videoTimeToUnixtime start_date <? videoTimeToUnixtime end_date,
             movie3)
          else (true, movie1)
        else (true, movie) in
      if asserted then
        check_plan_loop todo' (u32 (i + 1)) arr durations movie
                        (int32 (tot_frames_added + count range))
      else AssertFailed
  end.

(** [arr] holds the initial contents of the global [splitRanges]; the
    local array [chuncks_duration] starts as zeros. *)
Definition determineSplitRanges (conf : MainConfig) (movie : SERMovie)
           (arr : list SERFrameRange)
  : outcome SplitError (SplitPlan * SERMovie) :=
  let frame_count := uiFrameCount (header movie) in
  let chuncks_duration := replicate (Z.to_nat MAX_SPLIT_COUNT) 0 in
  if split_amount conf <=? 0 then Fails InvalidValue
  else if (split_mode conf <? SPLIT_MODE_COUNT)
          || (SPLIT_MODE_SECS <? split_mode conf)
  then Fails InvalidMode
  else
    let min_src_frames :=
      MIN_SPLIT_FRAMES_PER_CHUNCK + MIN_SPLIT_FRAMES_PER_CHUNCK / 2 in
    if frame_count <=? min_src_frames then Fails SourceTooShort
    else
      '(plan, durations, movie) ←
        (if split_mode conf =? SPLIT_MODE_COUNT then
           plan ← count_mode frame_count (split_amount conf) arr;
           Returns (plan, chuncks_duration, movie)
         else if split_mode conf =? SPLIT_MODE_FRAMES then
           plan ← frames_mode frame_count (split_amount conf) arr;
           Returns (plan, chuncks_duration, movie)
         else secs_mode movie (split_amount conf) arr chuncks_duration);
      '(tot_frames_added, movie) ←
        check_plan_loop (Z.to_nat (split_count plan)) 0 (splitRanges plan)
                        durations movie 0;
      if negb (u32 tot_frames_added =? frame_count) then AssertFailed
      else Returns (plan, movie).

(** *** Writing a new container: [extractFramesFromVideo]

    The output stream is the list of the bytes written to it, in order;
    it is opened empty and [fwrite] stores every byte it is given, so
    each of the write loops makes a single pass.  The choice of the
    output path and the prompt before overwriting a file are left to the
    environment: the model starts where the output file was opened. *)

Inductive ExtractError : Type :=
| UnableToReadFirstFrameDate  (* "unable to read first frame date" *)
| WriteHeaderFailed           (* "failed to write header" *)
| FrameOffsetBeyond           (* "frame offset beyond movie length" *)
| InvalidFrameSize            (* "invalid frame size (0)" *)
| FrameBeyondMovieSize        (* "frame beyond movie size, cannot read frame" *)
| FailedToReadFrame           (* "failed to read frame" *)
| FailedToWriteFrame          (* "failed to write frame" *)
| InvalidFrameDate            (* "invalid frame date" *)
| WriteTrailerFailed.         (* "failed to write frame datetimes trailer" *)

Definition duplicateHeader (srcheader : SERHeader) : SERHeader := srcheader.

Definition set_uiFrameCount (h : SERHeader) (n : Z) : SERHeader :=
  mkSERHeader (sFileID h) (uiLuID h) (uiColorID h) (uiLittleEndian h)
              (uiImageWidth h) (uiImageHeight h) (uiPixelDepth h) n
              (sObserver h) (sInstrument h) (sTelescope h)
              (ulDateTime h) (ulDateTime_UTC h).

Definition set_dates (h : SERHeader) (date date_utc : Z) : SERHeader :=
  mkSERHeader (sFileID h) (uiLuID h) (uiColorID h) (uiLittleEndian h)
              (uiImageWidth h) (uiImageHeight h) (uiPixelDepth h)
              (uiFrameCount h) (sObserver h) (sInstrument h) (sTelescope h)
              date date_utc.

Definition writeHeaderToVideo (video : list byte) (header : SERHeader)
  : bool * list byte :=
  let maxbytes := sizeof_SERHeader in
  let '(totwritten, video) := fwrite video (bytes_of_header header) in
  (totwritten =? maxbytes, video).

(** [datetimes] is the buffer of [uint64_t], [size] the bytes to write. *)
Definition writeTrailerToVideo (video : list byte) (datetimes : list Z)
           (size : Z) : bool * list byte :=
  let mem := flat_map (le_split 8) datetimes in
  let '(totwritten, video) := fwrite video (take (Z.to_nat size) mem) in
  (totwritten =? size, video).

(** [frame_idx] is an [int]. *)
Definition appendFrameToVideo (video : list byte) (srcmovie : SERMovie)
           (frame_idx : Z) : (ExtractError + list byte) * SERMovie :=
  let srcheader := header srcmovie in
  let frame_sz := getFrameSize srcheader in
  if frame_sz =? 0 then (inl InvalidFrameSize, srcmovie)
  else
    let offset := getFrameOffset srcheader frame_idx in
    let '(rc, f1) := fseek (file srcmovie) offset in
    if rc <? 0 then (inl FrameBeyondMovieSize, set_file srcmovie f1)
    else
      let '(buffer, f2) := fread_full (fread_fuel frame_sz) f1 frame_sz [] in
      let totread := Z.of_nat (length buffer) in
      if negb (totread =? frame_sz)
      then (inl FailedToReadFrame, set_file srcmovie f2)
      else
        let '(totwritten, video) := fwrite video buffer in
        if negb (totwritten =? frame_sz)
        then (inl FailedToWriteFrame, set_file srcmovie f2)
        else (inr video, set_file srcmovie f2).

(** The loop [for (i = 0; i < count; i++)] over the frames of the range;
    [datetimes] is the part of [datetimes_buffer] filled so far. *)
Fixpoint extract_loop (todo : nat) (i from : Z) (movie : SERMovie)
         (ofile : list byte) (datetimes : list Z)
  : (ExtractError + list byte * list Z) * SERMovie :=
  match todo with
  | O => (inr (ofile, datetimes), movie)
  | S todo' =>
      let frame_idx := int32 (u32 (from + i)) in
      match appendFrameToVideo ofile movie frame_idx with
      | (inl e, movie) => (inl e, movie)
      | (inr ofile, movie) =>
          let '(datetime, movie) := readFrameDate movie frame_idx in
          if datetime =? 0 then (inl InvalidFrameDate, movie)
          else extract_loop todo' (int32 (i + 1)) from movie ofile
                            (datetimes ++ [datetime])
      end
  end.

(** The result is the contents of the new file. *)
Definition extractFramesFromVideo (movie : SERMovie) (range : SERFrameRange)
  : (ExtractError + list byte) * SERMovie :=
  let header := header movie in
  let new_header := set_uiFrameCount (duplicateHeader header) (count range) in
  let utc_diff := int64 (u64 (ulDateTime_UTC header - ulDateTime header)) in
  let '(first_frame_date, movie) := readFrameDate movie (from range) in
  let first_frame_utc := first_frame_date in
  let '(last_frame_date, movie) := readFrameDate movie (to range) in
  if first_frame_date =? 0 then (inl UnableToReadFirstFrameDate, movie)
  else
    let first_frame_utc :=
      if (0 <? utc_diff) && (u64 utc_diff <? first_frame_utc)
      then u64 (first_frame_utc - u64 utc_diff)
      else first_frame_utc in
    let new_header := set_dates new_header first_frame_date first_frame_utc in
    let '(ok, ofile) := writeHeaderToVideo [] new_header in
    if negb ok then (inl WriteHeaderFailed, movie)
    else
      let offset := getFrameOffset header (int32 (from range)) in
      let '(rc, f1) := fseek (file movie) offset in
      let movie := set_file movie f1 in
      if rc <? 0 then (inl FrameOffsetBeyond, movie)
      else
        let trailer_size := u64 (count range * 8) in
        match extract_loop (Z.to_nat (count range)) 0 (from range) movie
                           ofile [] with
        | (inl e, movie) => (inl e, movie)
        | (inr (ofile, datetimes_buffer), movie) =>
            let '(ok, ofile) :=
              writeTrailerToVideo ofile datetimes_buffer trailer_size in
            if negb ok then (inl WriteTrailerFailed, movie)
            else (inr ofile, movie)
        end.

(** *** Executing a split: [splitMovie] and the split action of [main] *)

Inductive SplitMovieError : Type :=
| NothingToSplit          (* split_count == 0 *)
| NoMoviesExtracted       (* "no movies extracted" *)
| OnlySomeExtracted.      (* "only %d frame(s) extracted out of %d" *)

(** The loop [for (i = 0; i < split_count; i++)]; [files] are the new
    containers written so far. *)
Fixpoint split_loop (todo : nat) (i : Z) (arr : list SERFrameRange)
         (movie : SERMovie) (files : list (list byte))
  : outcome SplitMovieError (list (list byte)) * list (list byte) :=
  match todo with
  | O => (Returns files, files)
  | S todo' =>
      match arr_get arr i with
      | None => (OutOfBounds, files)
      | Some range =>
          if negb (from range <? to range) || negb (0 <? count range)
          then (AssertFailed, files)
          else
            match extractFramesFromVideo movie range with
            | (inl _, _) =>
                (Fails (if (length files =? 0)%nat then NoMoviesExtracted
                        else OnlySomeExtracted), files)
            | (inr content, movie) =>
                split_loop todo' (int32 (i + 1)) arr movie (files ++ [content])
            end
      end
  end.

(** The status of the call and the containers that were written. *)
Definition splitMovie (movie : SERMovie) (plan : SplitPlan)
  : outcome SplitMovieError (list (list byte)) * list (list byte) :=
  if split_count plan =? 0 then (Fails NothingToSplit, [])
  else if MAX_SPLIT_COUNT <? split_count plan then (AssertFailed, [])
  else split_loop (Z.to_nat (split_count plan)) 0 (splitRanges plan) movie [].


(** *** Removing frames: [cutFramesFromVideo]

    The new container holds the frames before and after the range.  The
    local [frame_idx] has no initial value and the buffer of the
    timestamps comes from [malloc]: a variable or an element that was never
    assigned is [None], and reading it is undefined behaviour.  The stops
    [CutUninitialized], [CutOutOfBounds] and [CutIndeterminateDate] say
    that the program reached such a point; what it does from there on is
    undefined and the model does not describe it. *)

Inductive CutStop : Type :=
| CutTooManyFrames        (* "frames to cut must be less than source frame count" *)
| CutError (e : ExtractError)   (* the messages shared with the extraction *)
| CutUninitialized        (* [frame_idx] is read before it was assigned *)
| CutOutOfBounds          (* [datetimes_buffer] is written outside its bounds *)
| CutIndeterminateDate    (* an element of the buffer is written to the file
                             before it was assigned *)
| CutOutOfFuel.

(** The loop [for (i = 0; i < from; i++)] over the frames before the
    range. *)
Fixpoint cut_head_loop (fuel : nat) (i from : Z) (movie : SERMovie)
         (ofile : list byte) (datetimes : list (option Z))
         (frame_idx : option Z)
  : (CutStop + list byte * list (option Z) * option Z) * SERMovie :=
  match fuel with
  | O => (inl CutOutOfFuel, movie)
  | S fuel' =>
      if u32 i <? from then
        let frame_idx := i in
        match appendFrameToVideo ofile movie frame_idx with
        | (inl e, movie) => (inl (CutError e), movie)
        | (inr ofile, movie) =>
            let '(datetime, movie) := readFrameDate movie frame_idx in
            if datetime =? 0 then (inl (CutError InvalidFrameDate), movie)
            else
              match arr_set datetimes frame_idx (Some datetime) with
              | None => (inl CutOutOfBounds, movie)
              | Some datetimes =>
                  cut_head_loop fuel' (int32 (i + 1)) from movie ofile
                                datetimes (Some frame_idx)
              end
        end
      else (inr (ofile, datetimes, frame_idx), movie)
  end.

(** The loop [for (i = to + 1; i <= src_last_frame; i++)] over the frames
    after the range.  Its first statement is [frame_idx++]: when the loop
    over the frames before the range made no pass, the variable is read
    without a value. *)
Fixpoint cut_tail_loop (fuel : nat) (i src_last_frame : Z) (movie : SERMovie)
         (ofile : list byte) (datetimes : list (option Z))
         (frame_idx : option Z)
  : (CutStop + list byte * list (option Z)) * SERMovie :=
  match fuel with
  | O => (inl CutOutOfFuel, movie)
  | S fuel' =>
      if u32 i <=? src_last_frame then
        match frame_idx with
        | None => (inl CutUninitialized, movie)
        | Some frame_idx =>
            let frame_idx := int32 (frame_idx + 1) in
            match appendFrameToVideo ofile movie i with
            | (inl e, movie) => (inl (CutError e), movie)
            | (inr ofile, movie) =>
                let '(datetime, movie) := readFrameDate movie i in
                if datetime =? 0 then (inl (CutError InvalidFrameDate), movie)
                else
                  match arr_set datetimes frame_idx (Some datetime) with
                  | None => (inl CutOutOfBounds, movie)
                  | Some datetimes =>
                      cut_tail_loop fuel' (int32 (i + 1)) src_last_frame
                                    movie ofile datetimes (Some frame_idx)
                  end
            end
        end
      else (inr (ofile, datetimes), movie)
  end.

(** The buffer of timestamps when every element was assigned. *)
Fixpoint assigned (datetimes : list (option Z)) : option (list Z) :=
  match datetimes with
  | [] => Some []
  | Some d :: rest =>
      match assigned rest with
      | Some ds => Some (d :: ds)
      | None => None
      end
  | None :: _ => None
  end.

(** The result is the contents of the new file. *)
Definition cutFramesFromVideo (movie : SERMovie) (range : SERFrameRange)
  : (CutStop + list byte) * SERMovie :=
  let from := from range in
  let to := to range in
  let count := count range in
  let header := header movie in
  if uiFrameCount header <=? count then (inl CutTooManyFrames, movie)
  else
    let tot_frames := u32 (uiFrameCount header - count) in
    let new_header := set_uiFrameCount (duplicateHeader header) tot_frames in
    let src_last_frame := u32 (uiFrameCount header - 1) in
    let first_frame_idx := if from =? 0 then to else 0 in
    let last_frame_idx := if to =? src_last_frame then from
                          else src_last_frame in
    let utc_diff := int64 (u64 (ulDateTime_UTC header - ulDateTime header)) in
    let '(first_frame_date, movie) := readFrameDate movie first_frame_idx in
    let first_frame_utc := first_frame_date in
    let '(last_frame_date, movie) := readFrameDate movie last_frame_idx in
    if first_frame_date =? 0
    then (inl (CutError UnableToReadFirstFrameDate), movie)
    else
      let first_frame_utc :=
        if (0 <? utc_diff) && (u64 utc_diff <? first_frame_utc)
        then u64 (first_frame_utc - u64 utc_diff)
        else first_frame_utc in
      let new_header :=
        set_dates new_header first_frame_date first_frame_utc in
      let '(ok, ofile) := writeHeaderToVideo [] new_header in
      if negb ok then (inl (CutError WriteHeaderFailed), movie)
      else
        let offset := getFrameOffset header (int32 from) in
        let '(rc, f1) := fseek (file movie) offset in
        let movie := set_file movie f1 in
        if rc <? 0 then (inl (CutError FrameOffsetBeyond), movie)
        else
          let trailer_size := u64 (tot_frames * 8) in
          let datetimes_buffer := replicate (Z.to_nat tot_frames) None in
          match cut_head_loop (S (Z.to_nat from)) 0 from movie ofile
                              datetimes_buffer None with
          | (inl e, movie) => (inl e, movie)
          | (inr (ofile, datetimes_buffer, frame_idx), movie) =>
              match cut_tail_loop
                      (S (S (Z.to_nat src_last_frame)))
                      (int32 (u32 (to + 1))) src_last_frame movie ofile
                      datetimes_buffer frame_idx with
              | (inl e, movie) => (inl e, movie)
              | (inr (ofile, datetimes_buffer), movie) =>
                  match assigned datetimes_buffer with
                  | None => (inl CutIndeterminateDate, movie)
                  | Some datetimes =>
                      let '(ok, ofile) :=
                        writeTrailerToVideo ofile datetimes trailer_size in
                      if negb ok
                      then (inl (CutError WriteTrailerFailed), movie)
                      else (inr ofile, movie)
                  end
              end
          end.

(** *** Opening and checking a movie: [openMovie], [performMovieCheck] *)

(** The warnings of the program; they are not those of ser.h. *)
Definition WARN_INCOMPLETE_FRAMES : Z := Z.shiftl 1 0.
Definition WARN_INCOMPLETE_TRAILER : Z := Z.shiftl 1 1.
Definition WARN_BAD_FRAME_DATES : Z := Z.shiftl 1 2.

(** [parseHeader] has the text of the function of ser.c. *)
Definition parseHeader (f : FILE) : option SERHeader * FILE :=
  Ser.parseHeader f.

Definition readFirstFrameDate (movie : SERMovie) : Z * SERMovie :=
  readFrameDate movie 0.

Definition readLastFrameDate (movie : SERMovie) : Z * SERMovie :=
  let idx := u32 (uiFrameCount (header movie) - 1) in
  readFrameDate movie idx.

(** [contents] is what the file system holds at the path, if anything. *)
Definition openMovie (contents : option (list byte))
  : Ser.OpenError + SERMovie :=
  match contents with
  | None => inl Ser.CannotOpenFile
  | Some bytes =>
      match parseHeader (fopen bytes) with
      | (None, _) => inl Ser.HeaderReadFailed
      | (Some hdr, f1) =>
          if negb (strcmp (SER_FILE_ID ++ [x00]) (bytes_of_header hdr) =? 0)
          then inl Ser.NotASerFile
          else
            let warnings := 0 in
            let duration := 0 in
            let filesize := file_length f1 in
            let '(_, f2) := fseek f1 0 in
            let movie := mkSERMovie f2 filesize hdr duration 0 0 warnings in
            let trailer_offset := getTrailerOffset hdr in
            if filesize <? trailer_offset then
              inr (mkSERMovie f2 filesize hdr duration 0 0
                              (Z.lor warnings WARN_INCOMPLETE_FRAMES))
            else
              let '(first, movie) := readFirstFrameDate movie in
              let '(last, movie) := readLastFrameDate movie in
              let f3 := file movie in
              if first <? last then
                let duration := u64 (last - first) in
                let duration := duration / TIMEUNITS_PER_SEC in
                inr (mkSERMovie f3 filesize hdr (u32 duration) first last
                                warnings)
              else
                inr (mkSERMovie f3 filesize hdr duration first last
                                (Z.lor warnings WARN_BAD_FRAME_DATES))
      end
  end.

Definition countMovieWarnings (warnings : Z) : Z :=
  let len := sizeof_int in
  fold_left
    (fun count i =>
       if negb (Z.land warnings (Z.shiftl 1 i) =? 0) then count + 1
       else count)
    (map Z.of_nat (seq 0 (Z.to_nat len))) 0.

(** The loop of [performMovieCheck] over the timestamps; [None]: the model
    ran out of iterations. *)
Fixpoint check_dates_loop (fuel : nat) (i : Z) (movie : SERMovie)
         (last_date : Z) (has_valid_dates : bool)
  : option bool * SERMovie :=
  match fuel with
  | O => (None, movie)
  | S fuel' =>
      if u32 i <? uiFrameCount (header movie) then
        let '(date, movie) := readFrameDate movie i in
        let has_valid_dates := last_date <=? date in
        if negb has_valid_dates then (Some has_valid_dates, movie)
        else check_dates_loop fuel' (int32 (i + 1)) movie date
                              has_valid_dates
      else (Some has_valid_dates, movie)
  end.

(** The result and the number stored through [issues]. *)
Definition performMovieCheck (movie : SERMovie)
  : option (bool * Z) * SERMovie :=
  let ok := true in
  let count := 0 in
  let '(ok, count) :=
    if negb (warnings movie =? 0) then
      let wcount := countMovieWarnings (warnings movie) in
      (false, int32 (count + wcount))
    else (ok, count) in
  let trailer_offs := getTrailerOffset (header movie) in
  if trailer_offs <? filesize movie then
    match check_dates_loop
            (S (S (Z.to_nat (uiFrameCount (header movie))))) 0 movie 0
            true with
    | (None, movie) => (None, movie)
    | (Some has_valid_dates, movie) =>
        if negb has_valid_dates
        then (Some (false, int32 (count + 1)), movie)
        else (Some (ok, count), movie)
    end
  else (Some (ok, count), movie).

(** *** The frame range of the command line: [parseFrameRangeArgument] *)

(** The C library on strings, which are the bytes before the NUL. *)
Definition isspace (c : byte) : bool :=
  let n := byte.unsigned c in (n =? 32) || ((9 <=? n) && (n <=? 13)).

Definition isdigit (c : byte) : bool :=
  let n := byte.unsigned c in (48 <=? n) && (n <=? 57).

Fixpoint skip_spaces (s : list byte) : list byte :=
  match s with
  | c :: s' => if isspace c then skip_spaces s' else s
  | [] => []
  end.

Fixpoint digits_value (acc : Z) (s : list byte) : Z :=
  match s with
  | c :: s' =>
      if isdigit c then digits_value (10 * acc + (byte.unsigned c - 48)) s'
      else acc
  | [] => acc
  end.

(** [atoi]: white space, an optional sign, decimal digits.  [None]: the
    number is not an [int], and the behaviour is undefined. *)
Definition atoi (s : list byte) : option Z :=
  let s := skip_spaces s in
  let '(negative, s) :=
    match s with
    | c :: s' =>
        if byte.unsigned c =? 45 then (true, s')
        else if byte.unsigned c =? 43 then (false, s')
        else (false, s)
    | [] => (false, s)
    end in
  let n := digits_value 0 s in
  let n := if negative then - n else n in
  if (- 2 ^ 31 <=? n) && (n <? 2 ^ 31) then Some n else None.

Fixpoint starts_with (needle s : list byte) : bool :=
  match needle, s with
  | [], _ => true
  | c :: needle', d :: s' =>
      (byte.unsigned c =? byte.unsigned d) && starts_with needle' s'
  | _ :: _, [] => false
  end.

(** [strstr] and [strchr]: the offset of the first occurrence. *)
Fixpoint strstr (s needle : list byte) : option nat :=
  if starts_with needle s then Some O
  else
    match s with
    | _ :: s' => option_map S (strstr s' needle)
    | [] => None
    end.

Fixpoint strchr (s : list byte) (c : byte) : option nat :=
  match s with
  | d :: s' =>
      if byte.unsigned d =? byte.unsigned c then Some O
      else option_map S (strchr s' c)
  | [] => None
  end.

Inductive ParsedRange : Type :=
| RangeUndefined            (* [atoi] on a number that is not an [int] *)
| RangeInvalid              (* the function returns 0 *)
| RangeParsed (frames_from frames_to frames_count : Z).

(** The end of [parseFrameRangeArgument]; [from], [to] and [count] are
    [uint32_t] and the fields of [conf] are [int]s. *)
Definition store_range (from to count : Z) : ParsedRange :=
  let from := if 0 <? from then u32 (from - 1) else from in
  let to := if 0 <? to then u32 (to - 1) else to in
  RangeParsed (int32 from) (int32 to) (int32 count).

Definition parseFrameRangeArgument (arg : list byte) : ParsedRange :=
  let arglen := length arg in
  if Nat.eqb arglen 0 then RangeInvalid
  else
    let sep :=
      match strstr arg [x2e; x2e] with
      | Some sep => Some sep
      | None => strchr arg x2c
      end in
    match sep with
    | Some sep =>
        let is_comma :=
          match arg !! sep with
          | Some c => byte.unsigned c =? 44
          | None => false
          end in
        let seplen := if is_comma then 1%nat else 2%nat in
        if Nat.eqb sep 0 then RangeInvalid
        else if Nat.eqb sep (arglen - seplen) then RangeInvalid
        else
          let last_val := drop (sep + seplen) arg in
          match atoi (take sep arg) with
          | None => RangeUndefined
          | Some from =>
              let from := u32 from in
              if from =? 0 then RangeInvalid
              else
                match atoi last_val with
                | None => RangeUndefined
                | Some last_n =>
                    let last_n := u32 last_n in
                    if last_n =? 0 then RangeInvalid
                    else if negb is_comma then store_range from last_n 0
                    else
                      let count := last_n in
                      if count <=? 0 then RangeInvalid
                      else store_range from 0 count
                end
          end
    | None =>
        match atoi arg with
        | None => RangeUndefined
        | Some from =>
            let from := u32 from in
            if from =? 0 then RangeInvalid
            else store_range from (u32 (-1)) 0
        end
    end.

(** *** Extracting or cutting the range of the command line *)

Definition ACTION_NONE : Z := 0.
Definition ACTION_EXTRACT : Z := 1.
Definition ACTION_CUT : Z := 2.
Definition ACTION_SPLIT : Z := 3.

(** The ways the branch does not write a container: it ends at the label
    [err], or the model of [cutFramesFromVideo] stopped. *)
Inductive RangeActionError : Type :=
| InvalidFrameRange (e : RangeError)    (* "Invalid frame range: ..." *)
| RangeAssertFailed                     (* the [assert] of [updateRangeCount] *)
| ExtractFailed (e : ExtractError)      (* "Could not extract frames" *)
| CutStopped (e : CutStop)              (* "Could not cut frames: ...", or
                                           undefined behaviour was reached *)
| NoRangeAction.                        (* [ok] stays 0 *)

(** The branch [action < ACTION_SPLIT && action != ACTION_NONE &&
    check_succeded] of [main], on an open movie: the range is determined
    from the fields of [conf] that [parseFrameRangeArgument] stored, and
    the frames are extracted or cut.  The result is the container that was
    written. *)
Definition range_action (conf : MainConfig) (action : Z) (movie : SERMovie)
  : RangeActionError + list byte :=
  let from := frames_from conf in
  let to := frames_to conf in
  let count := frames_count conf in
  match determineFrameRange (header movie) from to count with
  | Fails e => inl (InvalidFrameRange e)
  | Returns range =>
      if action =? ACTION_EXTRACT then
        match fst (extractFramesFromVideo movie range) with
        | inl e => inl (ExtractFailed e)
        | inr written => inr written
        end
      else if action =? ACTION_CUT then
        match fst (cutFramesFromVideo movie range) with
        | inl e => inl (CutStopped e)
        | inr written => inr written
        end
      else inl NoRangeAction
  | _ => inl RangeAssertFailed
  end.

End SerUtils.

(** ** The specification's formulas

    The definitions of this module follow the words of the specification;
    the theorems compare them with the code. *)

Module Spec.

Definition headerSize : Z := 178.

Definition planeCount (h : SERHeader) : Z :=
  if 100 <=? uiColorID h then 3 else 1.

Definition frameByteSize (h : SERHeader) : Z :=
  uiImageWidth h * uiImageHeight h * planeCount h
  * (if uiPixelDepth h <=? 8 then 1 else 2).

Definition frameByteOffset (h : SERHeader) (idx : Z) : Z :=
  headerSize + idx * frameByteSize h.


(** [seconds = floor(native / timeUnitsPerSecond) - 62,135,596,800]. *)
Definition unixSeconds (native : Z) : Z :=
  native / 10000000 - 62135596800.

(** The sub-second remainder of [native], in microseconds. *)
Definition microseconds (native : Z) : Z :=
  (native mod 10000000) / 10.


(** A list of ranges that is contiguous and ordered from frame [first]
    up to, and without, frame [next]: every range holds at least one
    frame, starts where the one before it stopped, and carries its
    number of frames. *)
Fixpoint chain (first : Z) (ranges : list SerUtils.SERFrameRange)
         (next : Z) : Prop :=
  match ranges with
  | [] => first = next
  | r :: rest =>
      SerUtils.from r = first
      /\ SerUtils.from r <= SerUtils.to r
      /\ SerUtils.count r = SerUtils.to r - SerUtils.from r + 1
      /\ chain (SerUtils.to r + 1) rest next
  end.



(** The 16-bit channel [c] of pixel [k] in a frame buffer with [planes]
    channels per pixel: the word of its two stored bytes in the byte order
    of the host, or, when [swap], of the two bytes exchanged. *)
Definition channel16 (swap : bool) (buf : list byte) (planes k c : nat) : Z :=
  let off := (2 * (planes * k + c))%nat in
  let b0 := nth off buf x00 in
  let b1 := nth (off + 1) buf x00 in
  le_combine (if swap then [b1; b0] else [b0; b1]).

End Spec.

(** The byte offset of pixel [x], [y] in the buffer of [frame]. *)
Definition pixel_offset (frame : Ser.SERFrame) (x y : Z) : Z :=
  let bytes_per_px :=
    (if COLOR_RGB <=? Ser.colorID frame then 3 else 1)
    * (if Ser.pixelDepth frame <=? 8 then 1 else 2) in
  u32 (u32 (u32 (y * Ser.width frame) * bytes_per_px) + u32 (x * bytes_per_px)).

(** ** Plans, loop states and whole movies *)



(** The timestamp that the trailer holds for frame [k]. *)
Definition trailer_date (trailer : list byte) (k : nat) : Z :=
  le_combine (slice (8 * k) 8 trailer).

(** A handle on the movie whose header is [h] and whose file holds [src]. *)
Definition movie_on (h : SERHeader) (src : list byte)
           (movie : SerUtils.SERMovie) : Prop :=
  SerUtils.header movie = h /\ f_data (SerUtils.file movie) = src.

(** A file that holds the header [h], the bytes [frames] of all its frames
    and a trailer with a timestamp for every frame; frame indices are
    [int]s and the size of the file is a [long]. *)
Record whole_movie (h : SERHeader) (frames trailer : list byte) : Prop := {
  whole_wf : header_wf h;
  whole_count : 1 <= uiFrameCount h < 2 ^ 31;
  whole_size : 0 < SerUtils.getFrameSize h;
  whole_frames :
    Z.of_nat (length frames) = uiFrameCount h * SerUtils.getFrameSize h;
  whole_trailer : Z.of_nat (length trailer) = 8 * uiFrameCount h;
  whole_length :
    178 + Z.of_nat (length frames) + Z.of_nat (length trailer) < 2 ^ 63
}.

(** The UTC start date that [extractFramesFromVideo] writes into the new
    header, from the header of the source and the timestamp of the first
    extracted frame. *)
Definition new_utc_date (header : SERHeader) (first_frame_date : Z) : Z :=
  let utc_diff := int64 (u64 (ulDateTime_UTC header - ulDateTime header)) in
  if (0 <? utc_diff) && (u64 utc_diff <? first_frame_date)
  then u64 (first_frame_date - u64 utc_diff)
  else first_frame_date.

(** ** Concrete inputs *)

(** A mono movie header: 640 x 480 pixels of depth 12, 1000 frames. *)
Definition geometry_example : SERHeader :=
  mkSERHeader SER_FILE_ID 0 COLOR_MONO 0 640 480 12 1000
              (replicate 40 x00) (replicate 40 x00) (replicate 40 x00) 0 0.

(** A mono movie header of depth 8 whose frames of 65536 x 65536 pixels
    hold 2^32 bytes. *)
Definition wide_header : SERHeader :=
  mkSERHeader SER_FILE_ID 0 COLOR_MONO 0 65536 65536 8 1
              (replicate 40 x00) (replicate 40 x00) (replicate 40 x00) 0 0.

(** A handle on a movie with two-byte RGB pixels whose header says
    "little-endian = 1", and a frame of it: 2 x 1 pixels of depth 12. *)
Definition rgb12_header : SERHeader :=
  mkSERHeader SER_FILE_ID 0 COLOR_RGB 1 2 1 12 1
              (replicate 40 x00) (replicate 40 x00) (replicate 40 x00) 0 0.

Definition rgb12_movie : Ser.SERMovie :=
  Ser.mkSERMovie (fopen []) 0 rgb12_header 0 0 0 0 0.

Definition rgb12_pixels : list byte :=
  [x0a; xbc; x01; x23; x04; x56; x07; x89; x0a; xbc; x0d; xef].

Definition rgb12_frame : Ser.SERFrame :=
  Ser.mkSERFrame 1 0 0 0 1 12 COLOR_RGB 2 1 12 (Some rgb12_pixels).

(** A movie of one RGB frame of 2 x 1 pixels of depth 16 whose header says
    "little-endian = 0", without timestamps, and the frame that
    [SERGetFrame] returns for it.  The channels of the first pixel are the
    byte pairs 01 02, 03 04 and 05 06. *)
Definition rgb16_header : SERHeader :=
  mkSERHeader SER_FILE_ID 0 COLOR_RGB 0 2 1 16 1
              (replicate 40 x00) (replicate 40 x00) (replicate 40 x00) 0 0.

Definition rgb16_pixels : list byte :=
  [x01; x02; x03; x04; x05; x06; x07; x08; x09; x0a; x0b; x0c].

Definition rgb16_movie : Ser.SERMovie :=
  Ser.mkSERMovie (fopen (bytes_of_header rgb16_header ++ rgb16_pixels)) 190
                 rgb16_header 0 0 0 0 0.

Definition rgb16_frame : Ser.SERFrame :=
  Ser.mkSERFrame 1 0 0 0 0 16 COLOR_RGB 2 1 12 (Some rgb16_pixels).

(** The header of a mono movie of 10 frames, 4 x 4 pixels of depth 8. *)
Definition ten_frames_header : SERHeader :=
  mkSERHeader SER_FILE_ID 0 COLOR_MONO 0 4 4 8 10
              (replicate 40 x00) (replicate 40 x00) (replicate 40 x00) 0 0.

(** A file of 10 declared frames of 16 bytes that ends inside frame 3
    (three whole frames and five bytes), and the handle that [SEROpenMovie]
    makes of it. *)
Definition truncated_file : list byte :=
  bytes_of_header ten_frames_header ++ replicate 53 x01.

Definition truncated_movie : Ser.SERMovie :=
  Ser.mkSERMovie (mkFILE truncated_file 0 [(0, 178)]) 231 ten_frames_header
                 0 0 0 WARN_INCOMPLETE_FRAMES 0.

(** Files without the magic string: 200 and 100 zero bytes. *)
Definition zeros_200 : list byte := replicate 200 x00.
Definition zeros_100 : list byte := replicate 100 x00.

(** A mono movie of [n] frames of one byte whose trailer holds timestamps
    one second apart, from 2020-01-01 00:00:00 on, and a handle on it. *)
Definition split_header (n : Z) : SERHeader :=
  mkSERHeader SER_FILE_ID 0 COLOR_MONO 0 1 1 8 n
              (replicate 40 x00) (replicate 40 x00) (replicate 40 x00) 0 0.

Definition split_file (n : nat) : list byte :=
  bytes_of_header (split_header (Z.of_nat n))
  ++ replicate n x07
  ++ flat_map
       (fun i => le_split 8 (637134336000000000 + Z.of_nat i * 10000000))
       (seq 0 n).

Definition split_movie (n : nat) : SerUtils.SERMovie :=
  SerUtils.mkSERMovie (fopen (split_file n)) (Z.of_nat (length (split_file n)))
                      (split_header (Z.of_nat n)) 0 0 0 0.

(** The global [splitRanges] as the program starts. *)
Definition zero_ranges : list SerUtils.SERFrameRange :=
  replicate 50 (SerUtils.mkRange 0 0 0).

(** The plan of a call that returned, without the unused elements of the
    array. *)
Definition planned (r : SerUtils.outcome SerUtils.SplitError
                          (SerUtils.SplitPlan * SerUtils.SERMovie))
  : SerUtils.outcome SerUtils.SplitError (list SerUtils.SERFrameRange) :=
  match r with
  | SerUtils.Returns (plan, _) =>
      SerUtils.Returns (take (Z.to_nat (SerUtils.split_count plan))
                             (SerUtils.splitRanges plan))
  | SerUtils.Fails e => SerUtils.Fails e
  | SerUtils.AssertFailed => SerUtils.AssertFailed
  | SerUtils.OutOfBounds => SerUtils.OutOfBounds
  | SerUtils.OutOfFuel => SerUtils.OutOfFuel
  end.

(** A mono movie of two frames of 2 x 1 pixels whose frames were taken at
    2020-01-01 00:00:00 and one second later, with the start dates [date]
    and [utc] in its header, and a handle on it. *)
Definition clip_header (date utc : Z) : SERHeader :=
  mkSERHeader SER_FILE_ID 0 COLOR_MONO 0 2 1 8 2
              (replicate 40 x00) (replicate 40 x00) (replicate 40 x00)
              date utc.

Definition clip_frames : list byte := [x01; x02; x03; x04].

Definition clip_trailer : list byte :=
  le_split 8 637134336000000000 ++ le_split 8 637134336010000000.

Definition clip_file (date utc : Z) : list byte :=
  bytes_of_header (clip_header date utc) ++ clip_frames ++ clip_trailer.

Definition clip_movie (date utc : Z) : SerUtils.SERMovie :=
  SerUtils.mkSERMovie (fopen (clip_file date utc))
                      (Z.of_nat (length (clip_file date utc)))
                      (clip_header date utc) 0 0 0 0.

(** ** More inputs and notions *)

(** A header with the magic string whose [uiLuID] is 1, and a file that
    holds it with two frames and their timestamps. *)
Definition luid_header : SERHeader :=
  mkSERHeader SER_FILE_ID 1 COLOR_MONO 0 2 1 8 2
              (replicate 40 x00) (replicate 40 x00) (replicate 40 x00) 0 0.

Definition luid_file : list byte :=
  bytes_of_header luid_header ++ clip_frames ++ clip_trailer.

(** The start of [clip_file]: the header and the frames, and [n] bytes of
    the trailer. *)
Definition clip_start (n : nat) : list byte :=
  bytes_of_header (clip_header 0 0) ++ clip_frames ++ take n clip_trailer.

(** The container that holds the frames of the range [r] of a movie, with
    their timestamps: the header carries the count of the range, the
    timestamp of its first frame as start date and the UTC start date
    computed from it. *)
Definition extracted_movie (h : SERHeader) (frames trailer : list byte)
           (r : SerUtils.SERFrameRange) : list byte :=
  let fs := Z.to_nat (SerUtils.getFrameSize h) in
  let a := Z.to_nat (SerUtils.from r) in
  let c := Z.to_nat (SerUtils.count r) in
  let first := trailer_date trailer a in
  bytes_of_header
    (SerUtils.set_dates (SerUtils.set_uiFrameCount h (SerUtils.count r))
                        first (new_utc_date h first))
  ++ slice (a * fs) (c * fs) frames
  ++ slice (8 * a) (8 * c) trailer.

(** A plan of two ranges of two frames for a movie of four frames. *)
Definition two_halves : SerUtils.SplitPlan :=
  SerUtils.mkPlan
    (SerUtils.mkRange 0 1 2 :: SerUtils.mkRange 2 3 2
       :: replicate 48 (SerUtils.mkRange 0 0 0))
    2.

Definition four_frames : list byte := replicate 4 x07.

Definition four_dates : list byte :=
  flat_map (fun i => le_split 8 (637134336000000000 + Z.of_nat i * 10000000))
           (seq 0 4).

(** Chunk number [j] of a movie cut into chunks of [q] frames. *)
Definition even_chunk (q : Z) (j : nat) : SerUtils.SERFrameRange :=
  SerUtils.mkRange (Z.of_nat j * q) (Z.of_nat j * q + q - 1) q.

(** A decimal numeral and its value. *)
Definition numeral (s : list byte) : Prop :=
  s <> [] /\ forallb SerUtils.isdigit s = true.

Definition decimal (s : list byte) : Z :=
  fold_left (fun acc c => 10 * acc + (byte.unsigned c - 48)) s 0.

(** The first [n] groups of [k] bytes of a buffer. *)
Fixpoint chunks (n k : nat) (bs : list byte) : list (list byte) :=
  match n with
  | O => []
  | S n' => take k bs :: chunks n' k (drop k bs)
  end.

(** The two bytes of a channel of a 16-bit frame after the conversion of
    [SERGetFramePixels]. *)
Definition word16 (same_endianess : bool) (depth : Z) (w : list byte)
  : list byte :=
  le_split 2 (Ser.convert16 same_endianess depth (le_combine w)).

(** The bytes that [SERGetFramePixels] stores for a pixel whose bytes in
    the frame are [px]: the channels are converted one by one, and their
    order is reversed for a colour code other than [COLOR_RGB]. *)
Definition decoded_pixel (h : SERHeader) (same_endianess : bool)
           (px : list byte) : list byte :=
  let channels :=
    if uiPixelDepth h <=? 8 then map (fun c => [c]) px
    else map (word16 same_endianess (uiPixelDepth h))
             (chunks (Z.to_nat (Ser.SERGetNumberOfPlanes h)) 2 px) in
  concat (if uiColorID h <=? COLOR_RGB then channels else rev channels).

(** A movie of one BGR frame of 2 x 1 pixels of depth 16 without
    timestamps, and the frame that [SERGetFrame] returns for it; and the
    same for a mono frame of 3 x 2 pixels of depth 12 and for an RGB frame
    of 2 x 2 pixels of depth 8. *)
Definition bgr16_header : SERHeader :=
  mkSERHeader SER_FILE_ID 0 COLOR_BGR 0 2 1 16 1
              (replicate 40 x00) (replicate 40 x00) (replicate 40 x00) 0 0.

Definition bgr16_movie : Ser.SERMovie :=
  Ser.mkSERMovie (fopen (bytes_of_header bgr16_header ++ rgb12_pixels)) 190
                 bgr16_header 0 0 0 0 0.

Definition bgr16_frame : Ser.SERFrame :=
  Ser.mkSERFrame 1 0 0 0 0 16 COLOR_BGR 2 1 12 (Some rgb12_pixels).

Definition mono12_header : SERHeader :=
  mkSERHeader SER_FILE_ID 0 COLOR_MONO 0 3 2 12 1
              (replicate 40 x00) (replicate 40 x00) (replicate 40 x00) 0 0.

Definition mono12_movie : Ser.SERMovie :=
  Ser.mkSERMovie (fopen (bytes_of_header mono12_header ++ rgb12_pixels)) 190
                 mono12_header 0 0 0 0 0.

Definition mono12_frame : Ser.SERFrame :=
  Ser.mkSERFrame 1 0 0 0 0 12 COLOR_MONO 3 2 12 (Some rgb12_pixels).

Definition rgb8_header : SERHeader :=
  mkSERHeader SER_FILE_ID 0 COLOR_RGB 0 2 2 8 1
              (replicate 40 x00) (replicate 40 x00) (replicate 40 x00) 0 0.

Definition rgb8_movie : Ser.SERMovie :=
  Ser.mkSERMovie (fopen (bytes_of_header rgb8_header ++ rgb12_pixels)) 190
                 rgb8_header 0 0 0 0 0.

Definition rgb8_frame : Ser.SERFrame :=
  Ser.mkSERFrame 1 0 0 0 0 8 COLOR_RGB 2 2 12 (Some rgb12_pixels).

(** The buffer of [SERGetFramePixels] for the mono frame, in the
    endianness of the movie. *)
Definition mono12_decoded : list byte :=
  [x5c; xc1; x33; x30; x96; x60; xf9; x90; x5c; xc1; xbf; xf1].

(** * Properties *)

(** Closes [header_wf] for a concrete header. *)
Ltac solve_header_wf :=
  split; unfold is_u32, is_u64; cbv -[Z.le Z.lt Z.pow];
  try reflexivity; lia.

(** ** Machine integers *)

Lemma wrap_small bits x : 0 <= x < 2 ^ bits -> wrap bits x = x.
Proof. intros H. unfold wrap. now apply Z.mod_small. Qed.

Lemma wrap_range bits x : 0 <= bits -> 0 <= wrap bits x < 2 ^ bits.
Proof.
  intros H. unfold wrap. apply Z.mod_pos_bound.
  now apply Z.pow_pos_nonneg.
Qed.

Lemma swrap_small bits x :
  0 < bits -> - 2 ^ (bits - 1) <= x < 2 ^ (bits - 1) -> swrap bits x = x.
Proof.
  intros Hb H. unfold swrap.
  assert (E : 2 ^ bits = 2 * 2 ^ (bits - 1)).
  { replace bits with (Z.succ (bits - 1)) at 1 by lia.
    rewrite Z.pow_succ_r by lia. reflexivity. }
  rewrite Z.mod_small by lia. lia.
Qed.

Lemma u16_small x : is_u16 x -> u16 x = x.
Proof. apply wrap_small. Qed.

Lemma u32_small x : is_u32 x -> u32 x = x.
Proof. apply wrap_small. Qed.

Lemma u64_small x : is_u64 x -> u64 x = x.
Proof. apply wrap_small. Qed.

Lemma int32_small x : is_int x -> int32 x = x.
Proof. intros H. apply swrap_small; [lia | exact H]. Qed.

Lemma int64_small x : - 2 ^ 63 <= x < 2 ^ 63 -> int64 x = x.
Proof. intros H. apply swrap_small; [lia | exact H]. Qed.

Lemma u32_range x : is_u32 (u32 x).
Proof. apply wrap_range. lia. Qed.

Lemma u64_range x : is_u64 (u64 x).
Proof. apply wrap_range. lia. Qed.


(** ** Geometry of the container *)

Lemma SERGetFrameSize_exact (h : SERHeader) :
  header_wf h ->
  1 <= uiPixelDepth h ->
  Spec.frameByteSize h < 2 ^ 32 ->
  Ser.SERGetFrameSize h = Spec.frameByteSize h.
Proof.
  intros Hwf Hd Hs. destruct Hwf.
  unfold Ser.SERGetFrameSize, Ser.SERGetBytesPerPixel,
    Ser.SERGetNumberOfPlanes, Spec.frameByteSize, Spec.planeCount,
    COLOR_RGB, is_u32 in *.
  destruct (Z.ltb_spec (uiPixelDepth h) 1) as [Hlt | _]; [lia |].
  assert (Hwt : 0 <= uiImageWidth h * uiImageHeight h)
    by (apply Z.mul_nonneg_nonneg; lia).
  revert Hs Hwt. generalize (uiImageWidth h * uiImageHeight h). intros p Hs Hp.
  destruct (100 <=? uiColorID h); destruct (uiPixelDepth h <=? 8);
    rewrite (u32_small p) by (unfold is_u32; lia);
    rewrite ?(u32_small 1), ?(u32_small 3), ?(u32_small (2 * 1)),
      ?(u32_small (2 * 3)) by (unfold is_u32; lia);
    rewrite u32_small by (unfold is_u32; lia); lia.
Qed.

Lemma SERGetFrameSize_range (h : SERHeader) : is_u32 (Ser.SERGetFrameSize h).
Proof. apply u32_range. Qed.

(** The offset without wrap-around, for an index that is an [int]. *)
Lemma SERGetFrameOffset_exact (h : SERHeader) (idx : Z) :
  0 <= idx < 2 ^ 31 ->
  Ser.SERGetFrameOffset h idx = sizeof_SERHeader + idx * Ser.SERGetFrameSize h.
Proof.
  intros Hi. unfold Ser.SERGetFrameOffset, sizeof_SERHeader.
  pose proof (SERGetFrameSize_range h) as Hs. unfold is_u32 in Hs.
  rewrite (u64_small idx) by (unfold is_u64; lia).
  rewrite (u64_small (idx * _)) by (unfold is_u64; nia).
  rewrite u64_small by (unfold is_u64; nia).
  apply int64_small. nia.
Qed.

(** C3, as the code has it.  For every header whose pixel depth is at least
    1 and whose frame size [width * height * planeCount * (1 or 2)] fits the
    32 bits in which the code forms it, and every frame index [idx] that is
    a non-negative [int] (the frame count included, when it is below 2^31):
    the frame size is that product, [SERGetFrameOffset h idx] is
    [178 + idx * frameByteSize h], consecutive offsets differ by the frame
    size, and the trailer offset is the offset of index [frameCount]. *)
Theorem C3_frame_offset_layout (h : SERHeader) (idx : Z) :
  header_wf h ->
  1 <= uiPixelDepth h ->
  Spec.frameByteSize h < 2 ^ 32 ->
  0 <= idx < 2 ^ 31 - 1 ->
  uiFrameCount h < 2 ^ 31 ->
  Ser.SERGetFrameSize h = Spec.frameByteSize h
  /\ Ser.SERGetFrameOffset h idx = Spec.frameByteOffset h idx
  /\ Ser.SERGetFrameOffset h (idx + 1) - Ser.SERGetFrameOffset h idx
     = Spec.frameByteSize h
  /\ Ser.SERGetTrailerOffset h = Spec.frameByteOffset h (uiFrameCount h)
  /\ Ser.SERGetTrailerOffset h = Ser.SERGetFrameOffset h (uiFrameCount h).
Proof.
  intros Hwf Hd Hs Hi Hc.
  pose proof (SERGetFrameSize_exact h Hwf Hd Hs) as Hsize.
  pose proof (wf_count h Hwf) as Hcount. unfold is_u32 in Hcount.
  unfold Spec.frameByteOffset, Spec.headerSize, Ser.SERGetTrailerOffset.
  rewrite (int32_small (uiFrameCount h)) by (unfold is_int; lia).
  rewrite !SERGetFrameOffset_exact by lia.
  rewrite Hsize. unfold sizeof_SERHeader. repeat split; lia.
Qed.

Lemma geometry_example_wf : header_wf geometry_example.
Proof. solve_header_wf. Qed.

Lemma C3_frame_offset_layout_witness :
  Ser.SERGetFrameSize geometry_example = Spec.frameByteSize geometry_example
  /\ Ser.SERGetFrameOffset geometry_example 7
     = Spec.frameByteOffset geometry_example 7
  /\ Ser.SERGetFrameOffset geometry_example (7 + 1)
     - Ser.SERGetFrameOffset geometry_example 7
     = Spec.frameByteSize geometry_example
  /\ Ser.SERGetTrailerOffset geometry_example
     = Spec.frameByteOffset geometry_example (uiFrameCount geometry_example)
  /\ Ser.SERGetTrailerOffset geometry_example
     = Ser.SERGetFrameOffset geometry_example (uiFrameCount geometry_example).
Proof.
  apply (C3_frame_offset_layout geometry_example 7).
  - exact geometry_example_wf.
  - simpl. lia.
  - vm_compute. reflexivity.
  - lia.
  - simpl. lia.
Defined.

(** C3 as stated fails for the header [wide_header], whose fields are all
    in range (depth 8, one frame): its frames hold 65536 * 65536 = 2^32
    bytes, the code forms the product in 32 bits and answers frame size 0,
    so that the offset of index 1 is 178 where the formula gives
    178 + 2^32, consecutive offsets do not differ by the frame size, and
    the trailer offset is not the formula's offset of index [frameCount]. *)
Lemma C3_fails_when_the_size_wraps :
  header_wf wide_header
  /\ 1 <= uiPixelDepth wide_header <= 16
  /\ Spec.frameByteSize wide_header = 2 ^ 32
  /\ Ser.SERGetFrameSize wide_header = 0
  /\ Ser.SERGetFrameOffset wide_header 1 = 178
  /\ Spec.frameByteOffset wide_header 1 = 178 + 2 ^ 32
  /\ Ser.SERGetFrameOffset wide_header 1 <> Spec.frameByteOffset wide_header 1
  /\ Ser.SERGetFrameOffset wide_header (0 + 1)
     - Ser.SERGetFrameOffset wide_header 0
     <> Spec.frameByteSize wide_header
  /\ Ser.SERGetTrailerOffset wide_header
     <> Spec.frameByteOffset wide_header (uiFrameCount wide_header).
Proof.
  split; [solve_header_wf |].
  split; [cbn; lia |].
  repeat split; try reflexivity; vm_compute; discriminate.
Qed.

(** ** Bit depth and byte order of the pixels *)



(** [SERGetFramePixel] on a mono frame with two-byte pixels: the word at
    the offset of the pixel is converted, after its bytes were exchanged
    when the requested byte order is not the one of the movie. *)
Lemma SERGetFramePixel_mono_word
      (movie : Ser.SERMovie) (frame : Ser.SERFrame) (buf : list byte)
      (x y big_endian : Z) :
  Ser.data frame = Some buf ->
  8 < Ser.pixelDepth frame ->
  Ser.colorID frame < COLOR_RGB ->
  0 <= x < Ser.width frame ->
  0 <= y < Ser.height frame ->
  Ser.SERGetFramePixel movie frame x y big_endian
  = Some (Ser.PxInt16
            (Ser.getTruncatedUInt16
               (if big_endian =? Z.b2z (Ser.SERIsBigEndian movie)
                then Ser.load16 buf (pixel_offset frame x y)
                else swapint16 (Ser.load16 buf (pixel_offset frame x y)))
               (Ser.pixelDepth frame))).
Proof.
  intros Hdata Hdepth Hcolor Hx Hy.
  unfold Ser.SERGetFramePixel, pixel_offset, Ser.getTruncatedUInt16.
  rewrite Hdata.
  destruct (Z.leb_spec (Ser.width frame) x) as [Hw | _]; [lia |].
  destruct (Z.leb_spec (Ser.height frame) y) as [Hh | _]; [lia |].
  destruct (Z.leb_spec (Ser.pixelDepth frame) 8) as [H8 | _]; [lia |].
  destruct (Z.leb_spec COLOR_RGB (Ser.colorID frame)) as [Hc | _]; [lia |].
  cbn [orb negb]. change (2 =? 1) with false. cbv iota.
  destruct (Z.ltb_spec (Ser.pixelDepth frame) 16) as [Hlt | Hge];
    destruct (Z.leb_spec 16 (Ser.pixelDepth frame)) as [Hle | Hgt];
    try lia; reflexivity.
Qed.

Lemma swapint16_bytes (b0 b1 : byte) :
  swapint16 (le_combine [b0; b1]) = le_combine [b1; b0].
Proof.
  unfold swapint16, swap_bytes.
  change 2%nat with (length [b0; b1]). rewrite split_le_combine.
  reflexivity.
Qed.




(** The rule of [SERIsBigEndian]. *)
Lemma SERIsBigEndian_rule (movie : Ser.SERMovie) :
  Ser.SERIsBigEndian movie = true <->
  (Ser.invert_endianness movie = 0
   /\ uiLittleEndian (Ser.header movie) = 1)
  \/ (Ser.invert_endianness movie <> 0
      /\ uiLittleEndian (Ser.header movie) = 0).
Proof.
  unfold Ser.SERIsBigEndian.
  destruct (Z.eqb_spec (Ser.invert_endianness movie) 0) as [Hi | Hi];
    destruct (Z.eqb_spec (uiLittleEndian (Ser.header movie)) 0) as [H0 | H0];
    destruct (Z.eqb_spec (uiLittleEndian (Ser.header movie)) 1) as [H1 | H1];
    cbn; split; intros H; try discriminate; try reflexivity; try lia;
    try (destruct H as [[? ?] | [? ?]]; lia).
Qed.

Lemma pixel_offset_exact (w ht b x y : Z) :
  0 <= x < w -> 0 <= y < ht -> 1 <= b -> w * ht * b < 2 ^ 32 ->
  u32 (u32 (u32 (y * w) * b) + u32 (x * b)) = (y * w + x) * b
  /\ 0 <= y * w + x < w * ht.
Proof.
  intros Hx Hy Hb Hsize.
  assert (H1 : 0 <= y * w + x < w * ht) by nia.
  assert (H2 : 0 <= y * w <= y * w + x) by nia.
  split; [| exact H1].
  rewrite (u32_small (y * w)) by (unfold is_u32; nia).
  rewrite (u32_small (y * w * b)) by (unfold is_u32; nia).
  rewrite (u32_small (x * b)) by (unfold is_u32; nia).
  rewrite u32_small by (unfold is_u32; nia). lia.
Qed.

(** The word that [SERGetFramePixel] loads for the pixel in column [x] of
    row [y] of a mono frame is the stored channel of pixel
    [y * width + x]. *)
Lemma mono_word_is_stored_channel
      (frame : Ser.SERFrame) (buf : list byte) (x y : Z) :
  8 < Ser.pixelDepth frame ->
  Ser.colorID frame < COLOR_RGB ->
  0 <= x < Ser.width frame ->
  0 <= y < Ser.height frame ->
  Ser.width frame * Ser.height frame * 2 < 2 ^ 32 ->
  let k := Z.to_nat (y * Ser.width frame + x) in
  Ser.load16 buf (pixel_offset frame x y) = Spec.channel16 false buf 1 k 0
  /\ swapint16 (Ser.load16 buf (pixel_offset frame x y))
     = Spec.channel16 true buf 1 k 0.
Proof.
  intros Hdepth Hcolor Hx Hy Hsize k.
  unfold pixel_offset.
  destruct (Z.leb_spec COLOR_RGB (Ser.colorID frame)) as [Hc | _]; [lia |].
  destruct (Z.leb_spec (Ser.pixelDepth frame) 8) as [H8 | _]; [lia |].
  change (1 * 2) with 2.
  destruct (pixel_offset_exact (Ser.width frame) (Ser.height frame) 2 x y)
    as [Hoff Hk]; trivial; try lia.
  rewrite Hoff. unfold Ser.load16, Spec.channel16.
  replace (Z.to_nat ((y * Ser.width frame + x) * 2))
    with (2 * (1 * k + 0))%nat by (subst k; lia).
  replace (Z.to_nat ((y * Ser.width frame + x) * 2 + 1))
    with (2 * (1 * k + 0) + 1)%nat by (subst k; lia).
  split; [reflexivity | apply swapint16_bytes].
Qed.

(** C5.  The pixel data of a movie is big-endian exactly when the invert
    option is off and the header's "little-endian" field is 1, or the option
    is on and the field is 0.  On a mono frame with two-byte pixels whose
    buffer holds the frame, a pixel read that asks for this byte order
    converts the stored channel as it is, and a read that asks for the
    other order converts the channel with its two bytes exchanged.  On a
    colour frame with two-byte channels [SERGetFramePixel] does not do so:
    it advances a [char] pointer by one byte between the three loads, so
    that the green and blue words are taken one and two bytes after the
    red one.  For the first pixel of [rgb16_frame], whose channels are the
    byte pairs 01 02, 03 04 and 05 06, a read in the other byte order
    returns 0x0102, 0x0203, 0x0304 where the exchanged channels are
    0x0102, 0x0304, 0x0506, and a read in the byte order of the movie
    returns 0x0201, 0x0302, 0x0403 where the channels are 0x0201, 0x0403,
    0x0605.  [SERGetFramePixels] exchanges the two bytes of every channel
    of the same frame, and copies them for the byte order of the movie. *)
Theorem C5_effective_endianness :
  (forall movie : Ser.SERMovie,
      Ser.SERIsBigEndian movie = true <->
      (Ser.invert_endianness movie = 0
       /\ uiLittleEndian (Ser.header movie) = 1)
      \/ (Ser.invert_endianness movie <> 0
          /\ uiLittleEndian (Ser.header movie) = 0))
  /\ (forall (movie : Ser.SERMovie) (frame : Ser.SERFrame) (buf : list byte)
             (x y : Z),
         Ser.data frame = Some buf ->
         8 < Ser.pixelDepth frame ->
         Ser.colorID frame < COLOR_RGB ->
         0 <= x < Ser.width frame ->
         0 <= y < Ser.height frame ->
         Ser.width frame * Ser.height frame * 2 < 2 ^ 32 ->
         Ser.width frame * Ser.height frame * 2 <= Z.of_nat (length buf) ->
         let k := Z.to_nat (y * Ser.width frame + x) in
         Ser.SERGetFramePixel movie frame x y
                              (Z.b2z (Ser.SERIsBigEndian movie))
         = Some (Ser.PxInt16
                   (Ser.getTruncatedUInt16 (Spec.channel16 false buf 1 k 0)
                                           (Ser.pixelDepth frame)))
         /\ Ser.SERGetFramePixel movie frame x y
                                 (Z.b2z (negb (Ser.SERIsBigEndian movie)))
            = Some (Ser.PxInt16
                      (Ser.getTruncatedUInt16 (Spec.channel16 true buf 1 k 0)
                                              (Ser.pixelDepth frame))))
  /\ (fst (Ser.SERGetFrame rgb16_movie 0) = inr rgb16_frame
      /\ Ser.SERIsBigEndian rgb16_movie = false
      /\ Ser.SERGetFramePixel rgb16_movie rgb16_frame 0 0 1
         = Some (Ser.PxRgb16 0x0102 0x0203 0x0304)
      /\ Ser.PxRgb16 (Spec.channel16 true rgb16_pixels 3 0 0)
                     (Spec.channel16 true rgb16_pixels 3 0 1)
                     (Spec.channel16 true rgb16_pixels 3 0 2)
         = Ser.PxRgb16 0x0102 0x0304 0x0506
      /\ Ser.SERGetFramePixel rgb16_movie rgb16_frame 0 0 0
         = Some (Ser.PxRgb16 0x0201 0x0302 0x0403)
      /\ Ser.PxRgb16 (Spec.channel16 false rgb16_pixels 3 0 0)
                     (Spec.channel16 false rgb16_pixels 3 0 1)
                     (Spec.channel16 false rgb16_pixels 3 0 2)
         = Ser.PxRgb16 0x0201 0x0403 0x0605
      /\ fst (Ser.SERGetFramePixels rgb16_movie 0 1)
         = inr [x02; x01; x04; x03; x06; x05; x08; x07; x0a; x09; x0c; x0b]
      /\ fst (Ser.SERGetFramePixels rgb16_movie 0 0) = inr rgb16_pixels).
Proof.
  split; [exact SERIsBigEndian_rule |]. split.
  - intros movie frame buf x y Hdata Hdepth Hcolor Hx Hy Hsize Hlen k.
    destruct (mono_word_is_stored_channel frame buf x y)
      as [Hsame Hswap]; trivial.
    fold k in Hsame, Hswap.
    rewrite !(SERGetFramePixel_mono_word movie frame buf) by trivial.
    rewrite Z.eqb_refl, Hsame.
    split; [reflexivity |].
    replace (Z.b2z (negb (Ser.SERIsBigEndian movie))
             =? Z.b2z (Ser.SERIsBigEndian movie)) with false
      by (now destruct (Ser.SERIsBigEndian movie)).
    now rewrite <- Hsame, Hswap.
  - repeat split; vm_compute; reflexivity.
Qed.

Lemma C5_effective_endianness_witness :
  Ser.SERGetFramePixel mono12_movie mono12_frame 1 1
                       (Z.b2z (Ser.SERIsBigEndian mono12_movie))
  = Some (Ser.PxInt16
            (Ser.getTruncatedUInt16 (Spec.channel16 false rgb12_pixels 1 4 0)
                                    12))
  /\ Ser.SERGetFramePixel mono12_movie mono12_frame 1 1
                          (Z.b2z (negb (Ser.SERIsBigEndian mono12_movie)))
     = Some (Ser.PxInt16
               (Ser.getTruncatedUInt16 (Spec.channel16 true rgb12_pixels 1 4 0)
                                       12)).
Proof.
  apply (proj1 (proj2 C5_effective_endianness)
               mono12_movie mono12_frame rgb12_pixels 1 1).
  - reflexivity.
  - simpl. lia.
  - vm_compute. reflexivity.
  - simpl. lia.
  - simpl. lia.
  - simpl. lia.
  - simpl. lia.
Defined.

(** The header of [rgb12_movie] says "little-endian = 1", which stands for
    big-endian pixel data; a read that asks for little-endian words
    exchanges the bytes of the words it loads.  The green and blue words are
    loaded one and two bytes after the red one. *)
Example rgb12_pixel_big_endian :
  Ser.SERIsBigEndian rgb12_movie = true
  /\ Ser.SERGetFramePixel rgb12_movie rgb12_frame 0 0 1
     = Some (Ser.PxRgb16 0xC15C 0x1BC1 0x3033)
  /\ Ser.SERGetFramePixel rgb12_movie rgb12_frame 0 0 0
     = Some (Ser.PxRgb16 0xABCA 0xC0CC 0x1231).
Proof. repeat split. Qed.

(** ** Warnings *)

Lemma land_pow2 (w i : Z) :
  0 <= i -> Z.land w (2 ^ i) = if Z.testbit w i then 2 ^ i else 0.
Proof.
  intros Hi. apply Z.bits_inj'. intros n Hn.
  rewrite Z.land_spec, Z.pow2_bits_eqb by lia.
  destruct (Z.eqb_spec i n) as [-> | Hne].
  - destruct (Z.testbit w n); [now rewrite Z.pow2_bits_true | now rewrite Z.bits_0].
  - rewrite andb_false_r.
    destruct (Z.testbit w i); [now rewrite Z.pow2_bits_false | now rewrite Z.bits_0].
Qed.

Lemma flag_test (w i : Z) :
  0 <= i -> negb (Z.land w (Z.shiftl 1 i) =? 0) = Z.testbit w i.
Proof.
  intros Hi. rewrite Z.shiftl_1_l, land_pow2 by lia.
  assert (0 < 2 ^ i) by (apply Z.pow_pos_nonneg; lia).
  destruct (Z.testbit w i).
  - destruct (Z.eqb_spec (2 ^ i) 0); [lia | reflexivity].
  - reflexivity.
Qed.

(** C10.  [SERCountMovieWarnings] counts the flags at the bit positions 0
    to 3, the byte size of an [int] being the bound of its loop; the flag
    [WARN_BAD_FRAME_DATES] is bit 4, and a movie with that warning alone is
    counted as having none. *)
Theorem C10_warning_count_skips_bad_frame_dates :
  (forall w : Z,
     Ser.SERCountMovieWarnings w
     = Z.b2z (Z.testbit w 0) + Z.b2z (Z.testbit w 1)
       + Z.b2z (Z.testbit w 2) + Z.b2z (Z.testbit w 3))
  /\ sizeof_int - 1 = 3
  /\ Z.testbit WARN_BAD_FRAME_DATES 4 = true
  /\ Ser.SERCountMovieWarnings WARN_BAD_FRAME_DATES = 0.
Proof.
  split; [| repeat split].
  intros w. unfold Ser.SERCountMovieWarnings, sizeof_int.
  change (map Z.of_nat (seq 0 (Z.to_nat 4))) with [0; 1; 2; 3].
  cbn [fold_left]. rewrite !flag_test by lia.
  destruct (Z.testbit w 0), (Z.testbit w 1), (Z.testbit w 2), (Z.testbit w 3);
    reflexivity.
Qed.

(** ** Timestamps *)

Lemma int64_u64 (x : Z) : int64 (u64 x) = int64 x.
Proof.
  unfold int64, u64, swrap, wrap. now rewrite Zplus_mod_idemp_l.
Qed.

(** The conversion of the program, [videoTimeToUnixtime], divides in
    [uint64_t]: it is the floor of the specification. *)
Lemma videoTimeToUnixtime_exact (video_t : Z) :
  is_u64 video_t ->
  SerUtils.videoTimeToUnixtime video_t = Spec.unixSeconds video_t.
Proof.
  intros Ht. unfold is_u64 in Ht.
  unfold SerUtils.videoTimeToUnixtime, Spec.unixSeconds, TIMEUNITS_PER_SEC,
    NANOSEC_PER_SEC, SECS_UNTIL_UNIXTIME.
  change (1000000000 / 100) with 10000000.
  rewrite int64_u64. apply int64_small.
  assert (0 <= video_t / 10000000 < 2 ^ 62).
  { split; [apply Z.div_pos; lia |].
    apply Z.div_lt_upper_bound; lia. }
  lia.
Qed.

(** C6, at the failing input.  The library's [SERVideoTimeToUnixtime]
    converts the timestamp to [double] before it divides.  The timestamp
    637134335999999999 (one tick before 2020-01-01 00:00:00) is rounded to
    637134336000000000: the code answers 1577836800 seconds and 0
    microseconds, where the floor is 1577836799 seconds and the remainder
    999999 microseconds, which is also what the program's integer
    conversion answers. *)
Theorem C6_conversion_rounds_in_double :
  Ser.SERVideoTimeToUnixtime 637134335999999999 true = (1577836800, Some 0)
  /\ Spec.unixSeconds 637134335999999999 = 1577836799
  /\ Spec.microseconds 637134335999999999 = 999999
  /\ SerUtils.videoTimeToUnixtime 637134335999999999 = 1577836799
  /\ Double.of_Z 637134335999999999 = Double.of_Z 637134336000000000.
Proof. repeat split; vm_compute; reflexivity. Qed.

(** Away from a second's end the seconds agree, and the microseconds are
    still those of the rounded timestamp. *)
Example SERVideoTimeToUnixtime_one_microsecond :
  Ser.SERVideoTimeToUnixtime 637134336000000010 true = (1577836800, Some 0)
  /\ Spec.microseconds 637134336000000010 = 1.
Proof. split; vm_compute; reflexivity. Qed.

(** ** Frame ranges *)

(** What [determineFrameRange] does for a header whose frame count is an
    [int] and for arguments whose sums stay in [int] ([from + count - 1]
    overflows otherwise): [from'] and [to'] are
    the endpoints after negative values were taken from the end and the
    count was applied.  Only the upper bound of an endpoint is tested. *)
Lemma determineFrameRange_cases (h : SERHeader) (from to count : Z) :
  0 <= uiFrameCount h < 2 ^ 31 ->
  is_int from -> is_int to -> is_int count ->
  uiFrameCount h + count <= 2 ^ 31 ->
  let tot := uiFrameCount h in
  let from' := if from <? 0 then tot + from else from in
  let to' := if 0 <? count then from' + count - 1
             else if to <? 0 then tot + to else to in
  SerUtils.determineFrameRange h from to count
  = if tot <=? from' then SerUtils.Fails SerUtils.FirstFrameBeyond
    else if tot <=? to' then SerUtils.Fails SerUtils.LastFrameBeyond
    else if to' <? from' then SerUtils.Fails SerUtils.LastBeforeFirst
    else if 0 <=? from'
         then SerUtils.Returns (SerUtils.mkRange from' to' (to' - from' + 1))
    else if 0 <=? to' then SerUtils.AssertFailed
    else SerUtils.Returns
           (SerUtils.mkRange (from' + 2 ^ 32) (to' + 2 ^ 32) (to' - from' + 1)).
Proof.
  intros Hc Hf Ht Hn Hsum tot from' to'. unfold is_int in *.
  unfold SerUtils.determineFrameRange.
  rewrite (int32_small (uiFrameCount h)) by (unfold is_int; lia).
  fold tot.
  assert (Hfrom : (if from <? 0 then int32 (tot + from) else from) = from').
  { subst from'. destruct (from <? 0) eqn:E; [| reflexivity].
    apply Z.ltb_lt in E. apply int32_small. unfold is_int. subst tot. lia. }
  rewrite Hfrom.
  destruct (Z.leb_spec tot from') as [H1 | H1]; [reflexivity |].
  assert (Hfr : - 2 ^ 31 <= from' < 2 ^ 31).
  { subst from' tot. destruct (from <? 0) eqn:E; lia. }
  assert (Hto : (if 0 <? count then int32 (from' + count - 1)
                 else if to <? 0 then int32 (tot + to) else to) = to').
  { subst to'. destruct (0 <? count) eqn:E.
    - apply Z.ltb_lt in E. apply int32_small. unfold is_int. subst tot. lia.
    - destruct (to <? 0) eqn:E'; [| reflexivity].
      apply Z.ltb_lt in E'. apply int32_small. unfold is_int. subst tot. lia. }
  rewrite Hto.
  destruct (Z.leb_spec tot to') as [H2 | H2]; [reflexivity |].
  destruct (Z.ltb_spec to' from') as [H3 | H3]; [reflexivity |].
  unfold SerUtils.updateRangeCount. cbn [SerUtils.from SerUtils.to].
  assert (E32 : forall z, - 2 ^ 32 <= z < 0 -> u32 z = z + 2 ^ 32).
  { intros z Hz. unfold u32, wrap.
    rewrite <- (Z.mod_add z 1 (2 ^ 32)) by lia.
    apply Z.mod_small. lia. }
  destruct (Z.leb_spec 0 from') as [H4 | H4].
  - rewrite (u32_small from'), (u32_small to') by (unfold is_u32; subst tot; lia).
    destruct (Z.ltb_spec to' from') as [H5 | H5]; [lia |].
    rewrite (u32_small (to' - from')) by (unfold is_u32; subst tot; lia).
    rewrite u32_small by (unfold is_u32; subst tot; lia).
    do 2 f_equal. lia.
  - rewrite (E32 from') by lia.
    destruct (Z.leb_spec 0 to') as [H5 | H5].
    + rewrite (u32_small to') by (unfold is_u32; subst tot; lia).
      destruct (Z.ltb_spec to' (from' + 2 ^ 32)) as [H6 | H6]; [reflexivity | lia].
    + rewrite (E32 to') by lia.
      destruct (Z.ltb_spec (to' + 2 ^ 32) (from' + 2 ^ 32)) as [H6 | H6]; [lia |].
      replace (to' + 2 ^ 32 - (from' + 2 ^ 32)) with (to' - from') by lia.
      rewrite (u32_small (to' - from')) by (unfold is_u32; lia).
      rewrite u32_small by (unfold is_u32; lia).
      do 2 f_equal. lia.
Qed.

(** C8, at the failing input.  For a movie of 10 frames, [from = -15] and
    [to = -12] resolve to the endpoints -5 and -2, which lie outside
    [[0, 10)]; the code tests an endpoint against the frame count only, and
    returns the range of the two values read as [uint32_t]. *)
Theorem C8_endpoint_below_zero_is_accepted :
  uiFrameCount ten_frames_header = 10
  /\ SerUtils.determineFrameRange ten_frames_header (-15) (-12) 0
     = SerUtils.Returns (SerUtils.mkRange 4294967291 4294967294 4)
  /\ SerUtils.determineFrameRange ten_frames_header (-15) 4 0
     = SerUtils.AssertFailed.
Proof. repeat split. Qed.

(** ** Reading a file *)

Lemma slice_length (off len : nat) (bs : list byte) :
  length (slice off len bs) = Nat.min len (length bs - off).
Proof. unfold slice. now rewrite length_take, length_drop. Qed.

Lemma slice_nil_at_end (off len : nat) (bs : list byte) :
  (length bs <= off)%nat -> slice off len bs = [].
Proof. intros H. unfold slice. rewrite drop_ge by lia. apply take_nil. Qed.

Lemma fseek_data (f : FILE) (offset : Z) :
  f_data (snd (fseek f offset)) = f_data f.
Proof. unfold fseek. now destruct (offset <? 0). Qed.

Lemma fseek_ok (f : FILE) (offset : Z) :
  0 <= offset ->
  fseek f offset = (0, mkFILE (f_data f) offset (f_reads f)).
Proof.
  intros H. unfold fseek.
  destruct (Z.ltb_spec offset 0); [lia | reflexivity].
Qed.

Lemma fread_full_data (fuel : nat) :
  forall (f : FILE) (size : Z) (buf : list byte),
    f_data (snd (fread_full fuel f size buf)) = f_data f.
Proof.
  induction fuel as [| fuel IH]; intros f size buf; cbn [fread_full];
    [reflexivity |].
  destruct (Z.of_nat (length buf) <? size); [| reflexivity].
  unfold fread. cbv zeta.
  destruct (Z.of_nat (length (slice _ _ (f_data f))) <=? 0); [reflexivity |].
  now rewrite IH.
Qed.

(** The read loop, in closed form: it delivers the bytes of the file from
    the cursor on, [size] of them or as many as there are, and it leaves by
    its own tests before the fuel is used up. *)
Lemma fread_full_closed (f : FILE) (size : Z) :
  0 <= f_pos f -> 0 <= size ->
  fst (fread_full (fread_fuel size) f size [])
  = slice (Z.to_nat (f_pos f)) (Z.to_nat size) (f_data f).
Proof.
  intros Hpos Hsize. unfold fread_fuel.
  generalize (Z.to_nat size) at 1. intros n.
  cbn [fread_full length]. change (Z.of_nat 0) with 0.
  destruct (Z.ltb_spec 0 size) as [Hs | Hs].
  2: { replace size with 0 by lia. reflexivity. }
  rewrite Z.sub_0_r. unfold fread at 1. cbv zeta.
  set (chunk := slice (Z.to_nat (f_pos f)) (Z.to_nat size) (f_data f)).
  destruct (Z.leb_spec (Z.of_nat (length chunk)) 0) as [He | Hne].
  { cbn [fst]. destruct chunk; [reflexivity | cbn [length] in He; lia]. }
  cbn [app].
  destruct (Z.ltb_spec (Z.of_nat (length chunk)) size) as [Hshort | Hfull];
    [| reflexivity].
  unfold fread. cbv zeta. cbn [f_data f_pos].
  rewrite slice_nil_at_end.
  { reflexivity. }
  subst chunk. rewrite slice_length in Hshort, Hne |- *. lia.
Qed.

Lemma fread_full_length (f : FILE) (size : Z) :
  0 <= f_pos f -> 0 <= size ->
  f_pos f + size <= Z.of_nat (length (f_data f)) ->
  Z.of_nat (length (fst (fread_full (fread_fuel size) f size []))) = size.
Proof.
  intros Hpos Hsize Hfit. rewrite fread_full_closed, slice_length by lia. lia.
Qed.

Lemma le_combine_zeros (l : list byte) :
  Forall (eq x00) l -> le_combine l = 0.
Proof.
  induction l as [| b l IH]; intros H; [reflexivity |].
  inversion H as [| ? ? Hb Hl]; subst.
  change (le_combine (x00 :: l))
    with (Z.lor (byte.unsigned x00) (Z.shiftl (le_combine l) 8)).
  rewrite (IH Hl). reflexivity.
Qed.

Lemma le_combine_zero_padded (bs zs : list byte) :
  Forall (eq x00) zs -> le_combine (bs ++ zs) = le_combine bs.
Proof.
  intros Hz. rewrite le_combine_app, (le_combine_zeros zs Hz).
  now rewrite Z.shiftl_0_l, Z.lor_0_r.
Qed.

Lemma date_loops_agree : SerUtils.date_read_loop = Ser.date_read_loop.
Proof. reflexivity. Qed.

(** The date loop, in closed form: the eight bytes at the cursor, or the
    bytes that are left there, above which the date keeps its zeros. *)
Lemma date_read_loop_closed (f : FILE) :
  0 <= f_pos f ->
  le_combine (fst (Ser.date_read_loop (fread_fuel 8) f (le_split 8 0) 0))
  = le_combine (slice (Z.to_nat (f_pos f)) 8 (f_data f)).
Proof.
  intros Hpos. unfold fread_fuel. generalize (Z.to_nat 8). intros n.
  cbn [Ser.date_read_loop]. change (0 <? 8) with true. cbv iota.
  unfold fread at 1. cbv zeta. change (Z.to_nat 8) with 8%nat.
  set (chunk := slice (Z.to_nat (f_pos f)) 8 (f_data f)).
  assert (Hpad : le_combine (chunk ++ drop (length chunk) (le_split 8 0))
                 = le_combine chunk).
  { apply le_combine_zero_padded, Forall_drop.
    repeat constructor. }
  destruct (Z.leb_spec (Z.of_nat (length chunk)) 0) as [He | Hne];
    [exact Hpad |].
  destruct (Z.ltb_spec (Z.of_nat (length chunk)) 8) as [Hshort | Hfull];
    [| exact Hpad].
  unfold fread. cbv zeta. cbn [f_data f_pos].
  rewrite slice_nil_at_end.
  { cbn [length app drop]. change (Z.of_nat 0 <=? 0) with true. exact Hpad. }
  subst chunk. rewrite slice_length in Hshort, Hne |- *. lia.
Qed.

Lemma date_read_loop_data (fuel : nat) :
  forall (f : FILE) (mem : list byte) (nread : Z),
    f_data (snd (Ser.date_read_loop fuel f mem nread)) = f_data f.
Proof.
  induction fuel as [| fuel IH]; intros f mem nread; cbn [Ser.date_read_loop];
    [reflexivity |].
  destruct (nread <? 8); [| reflexivity].
  unfold fread. cbv zeta.
  destruct (Z.of_nat (length (slice _ _ (f_data f))) <=? 0); [reflexivity |].
  now rewrite IH.
Qed.

(** [SERGetFrameDate] and [readFrameDate] change the stream of the handle
    and nothing else, and never the bytes of the file. *)
Lemma SERGetFrameDate_keeps (movie : Ser.SERMovie) (idx : Z) :
  let movie' := snd (Ser.SERGetFrameDate movie idx) in
  Ser.header movie' = Ser.header movie
  /\ Ser.filesize movie' = Ser.filesize movie
  /\ f_data (Ser.file movie') = f_data (Ser.file movie).
Proof.
  unfold Ser.SERGetFrameDate.
  destruct (uiFrameCount (Ser.header movie) <=? idx); [now cbn |].
  destruct (fseek _ _) as [rc f1] eqn:Hseek.
  destruct (Ser.date_read_loop _ f1 _ _) as [mem f2] eqn:Hloop.
  cbn. repeat split.
  change f2 with (snd (mem, f2)). rewrite <- Hloop, date_read_loop_data.
  change f1 with (snd (rc, f1)). rewrite <- Hseek. apply fseek_data.
Qed.

Lemma readFrameDate_keeps (movie : SerUtils.SERMovie) (idx : Z) :
  let movie' := snd (SerUtils.readFrameDate movie idx) in
  SerUtils.header movie' = SerUtils.header movie
  /\ f_data (SerUtils.file movie') = f_data (SerUtils.file movie).
Proof.
  unfold SerUtils.readFrameDate. rewrite date_loops_agree.
  destruct (uiFrameCount (SerUtils.header movie) <=? idx); [now cbn |].
  destruct (fseek _ _) as [rc f1] eqn:Hseek.
  destruct (Ser.date_read_loop _ f1 _ _) as [mem f2] eqn:Hloop.
  cbn. split; [reflexivity |].
  change f2 with (snd (mem, f2)). rewrite <- Hloop, date_read_loop_data.
  change f1 with (snd (rc, f1)). rewrite <- Hseek. apply fseek_data.
Qed.

(** ** Reading a frame *)



Example SEROpenMovie_truncated_file :
  Ser.SEROpenMovie (Some truncated_file) = (inr truncated_movie, [(0, 178)]).
Proof. vm_compute. reflexivity. Qed.

Example SERGetFrame_truncated_file :
  fst (Ser.SERGetFrame truncated_movie 4) = inl Ser.MissingFrame
  /\ fst (Ser.SERGetFrame truncated_movie 3) = inl Ser.IncompleteFrame
  /\ fst (Ser.SERGetFrame truncated_movie 2)
     = inr (Ser.mkSERFrame 3 2 0 0 0 8 COLOR_MONO 4 4 16
                           (Some (replicate 16 x01)))
  /\ fst (Ser.SERGetFrame truncated_movie 10) = inl Ser.FrameIndexBeyond.
Proof. repeat split; vm_compute; reflexivity. Qed.


(** ** Opening a movie *)

(** The file holds a whole header: the loop of [parseHeader] makes one
    read, of 178 bytes at offset 0. *)
Lemma header_read_loop_whole (f : FILE) :
  f_pos f = 0 ->
  (178 <= length (f_data f))%nat ->
  Ser.header_read_loop (fread_fuel sizeof_SERHeader) f []
  = (Some (take 178 (f_data f)),
     mkFILE (f_data f) 178 (f_reads f ++ [(0, 178)])).
Proof.
  intros Hpos Hlen. unfold fread_fuel, sizeof_SERHeader.
  generalize (Z.to_nat 178). intros n.
  cbn [Ser.header_read_loop length]. unfold sizeof_SERHeader.
  change (Z.of_nat 0 <? 178) with true. cbv iota.
  unfold fread. cbv zeta. rewrite Hpos.
  change (Z.to_nat 0) with 0%nat. change (Z.to_nat 178) with 178%nat.
  unfold slice. rewrite drop_0.
  assert (Hn : length (take 178 (f_data f)) = 178%nat)
    by (rewrite length_take; lia).
  rewrite Hn. cbn [app]. rewrite Hn.
  reflexivity.
Qed.

(** The file is shorter than a header: the loop fails, after the read that
    found the file short and, unless the file is empty, a second read at
    the end of the file. *)
Lemma header_read_loop_short (f : FILE) :
  f_pos f = 0 ->
  (length (f_data f) < 178)%nat ->
  Ser.header_read_loop (fread_fuel sizeof_SERHeader) f []
  = (None,
     mkFILE (f_data f) (Z.of_nat (length (f_data f)))
            (f_reads f
             ++ if (length (f_data f) =? 0)%nat then [(0, 178)]
                else [(0, 178); (Z.of_nat (length (f_data f)), 178)])).
Proof.
  intros Hpos Hlen. unfold fread_fuel, sizeof_SERHeader.
  generalize (Z.to_nat 178). intros n.
  cbn [Ser.header_read_loop length]. unfold sizeof_SERHeader.
  change (Z.of_nat 0 <? 178) with true. cbv iota.
  assert (Hs : slice 0 178 (f_data f) = f_data f).
  { unfold slice. now rewrite drop_0, take_ge by lia. }
  unfold fread at 1. cbv zeta. rewrite Hpos.
  change (Z.to_nat 0) with 0%nat. change (Z.to_nat 178) with 178%nat.
  rewrite !Hs.
  destruct (Z.leb_spec (Z.of_nat (length (f_data f))) 0) as [He | Hne].
  { destruct (Nat.eqb_spec (length (f_data f)) 0); [| lia].
    replace (length (f_data f)) with 0%nat by lia. reflexivity. }
  cbn [app]. change (Z.of_nat 0 =? 178) with false. cbv iota.
  destruct (Z.ltb_spec (Z.of_nat (length (f_data f))) 178); [| lia].
  unfold fread. cbv zeta. cbn [f_pos f_data f_reads].
  rewrite slice_nil_at_end by lia. cbn [length].
  change (Z.of_nat 0 <=? 0) with true. cbv iota.
  destruct (Nat.eqb_spec (length (f_data f)) 0); [lia |].
  rewrite <- app_assoc, Z.add_0_l, Z.add_0_r. reflexivity.
Qed.

Lemma strcmp_differs (m s t1 t2 : list byte) :
  length m = length s ->
  Forall (fun c => byte.unsigned c <> 0) m ->
  m <> s ->
  strcmp (m ++ t1) (s ++ t2) <> 0.
Proof.
  revert s. induction m as [| c1 m IH]; intros [| c2 s] Hlen Hnz Hne;
    try discriminate; [congruence |].
  cbn [strcmp app]. inversion Hnz as [| ? ? Hc1 Hm]; subst.
  destruct (Z.eqb_spec (byte.unsigned c1) (byte.unsigned c2)) as [He | He];
    [| lia].
  apply byte.unsigned_inj in He. subst c2.
  destruct (Z.eqb_spec (byte.unsigned c1) 0) as [H0 | _]; [contradiction |].
  apply IH; [now inversion Hlen | exact Hm | congruence].
Qed.

Lemma SER_FILE_ID_chars : Forall (fun c => byte.unsigned c <> 0) SER_FILE_ID.
Proof. repeat constructor; discriminate. Qed.

(** C9, as the code has it.  A file whose first 14 bytes are not the magic
    string is not opened.  When the file holds the 178 bytes of a header,
    the failure is "File is not a SER movie file" and the one read that was
    made is the read of the header; when the file is shorter, the read of
    the header fails first ("Failed to parse movie header"), and the reads
    that were made are the attempts to read the header. *)
Theorem C9_bad_magic_is_rejected (contents : list byte) :
  take 14 contents <> SER_FILE_ID ->
  ((178 <= length contents)%nat ->
   Ser.SEROpenMovie (Some contents) = (inl Ser.NotASerFile, [(0, 178)]))
  /\ ((length contents < 178)%nat ->
      Ser.SEROpenMovie (Some contents)
      = (inl Ser.HeaderReadFailed,
         if (length contents =? 0)%nat then [(0, 178)]
         else [(0, 178); (Z.of_nat (length contents), 178)])).
Proof.
  intros Hmagic. split; intros Hlen; unfold Ser.SEROpenMovie, Ser.parseHeader.
  - rewrite fseek_ok by lia. cbn [f_data f_reads fopen].
    rewrite header_read_loop_whole by (trivial; cbn; lia).
    cbn [f_data f_reads app IS_BIG_ENDIAN].
    set (mem := take 178 contents).
    assert (Hid : sFileID (header_of_bytes mem) = take 14 contents).
    { cbn [sFileID header_of_bytes]. unfold slice. subst mem.
      now rewrite drop_0, take_take. }
    unfold bytes_of_header. rewrite Hid.
    assert (Hcmp : forall rest,
               strcmp (SER_FILE_ID ++ [x00]) (take 14 contents ++ rest) <> 0).
    { intros rest. apply strcmp_differs.
      - rewrite length_take. change (length SER_FILE_ID) with 14%nat. lia.
      - exact SER_FILE_ID_chars.
      - congruence. }
    match goal with
    | |- context [strcmp ?a (?b ++ ?r)] =>
        specialize (Hcmp r); destruct (Z.eqb_spec (strcmp a (b ++ r)) 0)
    end; [contradiction | reflexivity].
  - rewrite fseek_ok by lia. cbn [f_data f_reads fopen].
    rewrite header_read_loop_short by (trivial; cbn; lia).
    cbn [f_data f_reads app]. reflexivity.
Qed.

Lemma C9_bad_magic_is_rejected_witness :
  Ser.SEROpenMovie (Some zeros_200) = (inl Ser.NotASerFile, [(0, 178)]).
Proof.
  apply (C9_bad_magic_is_rejected zeros_200).
  - vm_compute. discriminate.
  - vm_compute. lia.
Defined.

(** C9 as stated fails for a file that is shorter than a header: a file of
    100 zero bytes does not start with the magic string, and it is refused
    with the failure of the header read, not with the failure that tells a
    bad magic string. *)
Lemma C9_short_file_fails_on_the_header :
  take 14 zeros_100 <> SER_FILE_ID
  /\ fst (Ser.SEROpenMovie (Some zeros_100)) = inl Ser.HeaderReadFailed
  /\ fst (Ser.SEROpenMovie (Some zeros_100)) <> inl Ser.NotASerFile.
Proof.
  split; [vm_compute; discriminate |].
  split; [vm_compute; reflexivity | vm_compute; discriminate].
Qed.

(** ** Results of calls *)









(** ** Chains of ranges *)





Lemma chain_le (a b : Z) (l : list SerUtils.SERFrameRange) :
  Spec.chain a l b -> a <= b.
Proof.
  revert a. induction l as [| r l IH]; intros a H; cbn in H.
  - lia.
  - destruct H as (H1 & H2 & H3 & H4). apply IH in H4. lia.
Qed.





(** ** Arrays of ranges *)

Lemma take_S_insert {A : Type} (l : list A) (i : nat) (x : A) :
  (i < length l)%nat -> take (S i) (<[i := x]> l) = take i l ++ [x].
Proof.
  intros H. rewrite (take_S_r _ _ x) by (apply list_lookup_insert_eq; lia).
  now rewrite take_insert_ge by lia.
Qed.






(** ** The split plan by count *)



(** ** The split plan by frames *)



(** The loop of the frames mode leaves by its own tests: 52 passes are
    never used up. *)
Lemma frames_mode_loop_fuel (N amount : Z) (fuel : nat) :
  forall (arr : list SerUtils.SERFrameRange) (fa ra last : Z),
    length arr = 50%nat ->
    0 <= ra -> (Z.to_nat (51 - ra) < fuel)%nat ->
    SerUtils.frames_mode_loop fuel N amount arr fa ra last
    <> SerUtils.OutOfFuel.
Proof.
  induction fuel as [| fuel IH]; intros arr fa ra last Hlen Hra Hfuel; [lia |].
  cbn [SerUtils.frames_mode_loop].
  destruct (fa <? N); [| discriminate].
  unfold SerUtils.load, SerUtils.store, SerUtils.updated, SerUtils.arr_get,
    SerUtils.arr_set, SerUtils.updateRangeCount.
  rewrite Hlen.
  destruct (Z.leb_spec 0 ra) as [_ | Hneg]; [| lia].
  destruct (Z.ltb_spec ra (Z.of_nat 50)) as [Hlt | Hge]; cbn [andb];
    [| discriminate].
  destruct (arr !! Z.to_nat ra) as [old |]; cbn; [| discriminate].
  match goal with
  | |- (if ?c then _ else _) <> _ => destruct c; [discriminate |]
  end.
  match goal with
  | |- context [if ?c then None else Some _] => destruct c; cbn;
                                                 [discriminate |]
  end.
  rewrite length_insert, Hlen.
  destruct (Z.ltb_spec ra (Z.of_nat 50)) as [_ | Hge]; [| lia].
  cbn. rewrite (u32_small (ra + 1)) by (unfold is_u32; lia).
  destruct (SerUtils.MAX_SPLIT_COUNT <? ra + 1); [discriminate |].
  apply IH; [now rewrite !length_insert | lia | lia].
Qed.

(** ** The split plan by seconds *)






(** ** The check of the plan *)






(** Plans of the three modes for 300 frames, one second apart: two chunks
    by count, chunks of 120 frames, and chunks of 100 seconds, where the 98
    frames that are left go to the chunk before them. *)
Example split_plans_for_300_frames :
  planned (SerUtils.determineSplitRanges (SerUtils.mkMainConfig 0 0 0 2 1)
                                         (split_movie 300) zero_ranges)
  = SerUtils.Returns [SerUtils.mkRange 0 149 150; SerUtils.mkRange 150 299 150]
  /\ planned (SerUtils.determineSplitRanges (SerUtils.mkMainConfig 0 0 0 120 2)
                                            (split_movie 300) zero_ranges)
     = SerUtils.Returns [SerUtils.mkRange 0 119 120;
                         SerUtils.mkRange 120 239 120;
                         SerUtils.mkRange 240 299 60]
  /\ planned (SerUtils.determineSplitRanges (SerUtils.mkMainConfig 0 0 0 100 3)
                                            (split_movie 300) zero_ranges)
     = SerUtils.Returns [SerUtils.mkRange 0 100 101;
                         SerUtils.mkRange 101 299 199].
Proof. repeat split; vm_compute; reflexivity. Qed.

(** Calls of the planner that do not return.  With 203 frames and chunks
    of 100 seconds the second chunk is closed at frame 201 and the last
    frame is in no range: the check of the sum stops the program.  So it
    does when no chunk is ever closed (400 seconds).  In count mode, 50
    chunks and a remainder store a 51st range after the end of the array. *)
Example split_plans_that_do_not_return :
  planned (SerUtils.determineSplitRanges (SerUtils.mkMainConfig 0 0 0 100 3)
                                         (split_movie 203) zero_ranges)
  = SerUtils.AssertFailed
  /\ planned (SerUtils.determineSplitRanges (SerUtils.mkMainConfig 0 0 0 400 3)
                                            (split_movie 300) zero_ranges)
     = SerUtils.AssertFailed
  /\ planned (SerUtils.determineSplitRanges (SerUtils.mkMainConfig 0 0 0 50 1)
                                            (split_movie (Z.to_nat 5001)) zero_ranges)
     = SerUtils.OutOfBounds.
Proof. repeat split; vm_compute; reflexivity. Qed.

(** ** The layout of a whole movie *)

Lemma length_bytes_of_header (h : SERHeader) :
  header_wf h -> length (bytes_of_header h) = 178%nat.
Proof.
  intros Hwf. destruct Hwf. unfold bytes_of_header.
  rewrite !length_app, !length_le_split. lia.
Qed.

Lemma getFrameOffset_exact (h : SERHeader) (idx : Z) :
  0 <= idx < 2 ^ 31 ->
  SerUtils.getFrameOffset h idx = 178 + idx * SerUtils.getFrameSize h.
Proof. apply SERGetFrameOffset_exact. Qed.

Lemma getTrailerOffset_exact (h : SERHeader) :
  0 <= uiFrameCount h < 2 ^ 31 ->
  SerUtils.getTrailerOffset h
  = 178 + uiFrameCount h * SerUtils.getFrameSize h.
Proof.
  intros Hc. unfold SerUtils.getTrailerOffset.
  rewrite int32_small by (unfold is_int; lia).
  now apply getFrameOffset_exact.
Qed.

(** A slice of the frames, and a slice of the trailer, of a file made of a
    header, frames and a trailer. *)
Lemma slice_of_frames (hdr frames trailer : list byte) (a n : nat) :
  length hdr = 178%nat -> (a + n <= length frames)%nat ->
  slice (178 + a) n (hdr ++ frames ++ trailer) = slice a n frames.
Proof.
  intros Hh Hfit. unfold slice.
  rewrite drop_app_add' by (symmetry; exact Hh).
  rewrite drop_app_le by lia. rewrite take_app_le; [reflexivity |].
  rewrite length_drop. lia.
Qed.

Lemma slice_of_trailer (hdr frames trailer : list byte) (a n : nat) :
  length hdr = 178%nat ->
  slice (178 + length frames + a) n (hdr ++ frames ++ trailer)
  = slice a n trailer.
Proof.
  intros Hh. unfold slice.
  rewrite <- Nat.add_assoc, drop_app_add' by (symmetry; exact Hh).
  now rewrite drop_app_add.
Qed.

(** The trailer is the memory of the timestamps it holds. *)
Lemma trailer_of_dates (n : nat) :
  forall trailer : list byte,
    length trailer = (8 * n)%nat ->
    flat_map (le_split 8) (map (trailer_date trailer) (seq 0 n)) = trailer.
Proof.
  induction n as [| n IH]; intros trailer Hlen.
  - destruct trailer; [reflexivity | discriminate].
  - cbn [seq map flat_map].
    rewrite <- (take_drop 8 trailer) at 3. f_equal.
    + unfold trailer_date, slice. rewrite Nat.mul_0_r, drop_0.
      assert (H8 : length (take 8 trailer) = 8%nat)
        by (rewrite length_take; lia).
      rewrite <- H8 at 1. apply split_le_combine.
    + rewrite <- (IH (drop 8 trailer)) by (rewrite length_drop; lia).
      f_equal. rewrite <- seq_shift, map_map. apply map_ext. intros k.
      unfold trailer_date, slice. rewrite drop_drop. do 3 f_equal. lia.
Qed.

Lemma readFrameDate_closed (h : SERHeader) (frames trailer : list byte)
      (movie : SerUtils.SERMovie) (k : nat) :
  whole_movie h frames trailer ->
  movie_on h (bytes_of_header h ++ frames ++ trailer) movie ->
  Z.of_nat k < uiFrameCount h ->
  fst (SerUtils.readFrameDate movie (Z.of_nat k)) = trailer_date trailer k
  /\ movie_on h (bytes_of_header h ++ frames ++ trailer)
              (snd (SerUtils.readFrameDate movie (Z.of_nat k))).
Proof.
  intros Hwhole (Hh & Hdata) Hk. destruct Hwhole.
  split.
  2: { pose proof (readFrameDate_keeps movie (Z.of_nat k)) as (H1 & H2).
       split; congruence. }
  pose proof (SERGetFrameSize_range h) as Hfs. unfold is_u32 in Hfs.
  change (Ser.SERGetFrameSize h) with (SerUtils.getFrameSize h) in Hfs.
  unfold SerUtils.readFrameDate. rewrite date_loops_agree, Hh.
  destruct (Z.leb_spec (uiFrameCount h) (Z.of_nat k)) as [Hge | _]; [lia |].
  rewrite getTrailerOffset_exact by lia.
  set (fs := SerUtils.getFrameSize h) in *.
  assert (Hprod : 0 <= uiFrameCount h * fs) by nia.
  rewrite (u64_small (Z.of_nat k * 8)) by (unfold is_u64; lia).
  rewrite u64_small by (unfold is_u64; lia).
  rewrite int64_small by lia. rewrite fseek_ok by lia.
  match goal with
  | |- context [Ser.date_read_loop ?n ?f ?mem ?z] =>
      pose proof (date_read_loop_closed f) as Hread;
      destruct (Ser.date_read_loop n f mem z) as [date_mem f2]
  end.
  cbn [fst f_pos f_data IS_BIG_ENDIAN andb] in Hread |- *.
  rewrite Hread by lia. rewrite Hdata. unfold trailer_date.
  replace (Z.to_nat (178 + uiFrameCount h * fs + Z.of_nat k * 8))
    with (178 + length frames + 8 * k)%nat by lia.
  now rewrite slice_of_trailer by (now apply length_bytes_of_header).
Qed.

(** ** Extracting frames *)

Lemma appendFrameToVideo_closed (h : SERHeader) (frames trailer : list byte)
      (movie : SerUtils.SERMovie) (out : list byte) (k : nat) :
  whole_movie h frames trailer ->
  movie_on h (bytes_of_header h ++ frames ++ trailer) movie ->
  Z.of_nat k < uiFrameCount h ->
  let fs := Z.to_nat (SerUtils.getFrameSize h) in
  exists movie',
    SerUtils.appendFrameToVideo out movie (Z.of_nat k)
    = (inr (out ++ slice (k * fs) fs frames), movie')
    /\ movie_on h (bytes_of_header h ++ frames ++ trailer) movie'.
Proof.
  intros Hwhole (Hh & Hdata) Hk fsn. destruct Hwhole.
  pose proof (SERGetFrameSize_range h) as Hfs. unfold is_u32 in Hfs.
  change (Ser.SERGetFrameSize h) with (SerUtils.getFrameSize h) in Hfs.
  unfold SerUtils.appendFrameToVideo. rewrite Hh.
  set (fs := SerUtils.getFrameSize h) in *.
  destruct (Z.eqb_spec fs 0) as [H0 | _]; [lia |].
  rewrite getFrameOffset_exact by lia. fold fs.
  assert (Hprod : 0 <= Z.of_nat k * fs) by nia.
  assert (Hfit : Z.of_nat k * fs + fs <= uiFrameCount h * fs) by nia.
  rewrite fseek_ok by lia. cbn [Z.ltb Z.compare].
  match goal with
  | |- context [fread_full ?n ?f ?s ?b] =>
      pose proof (fread_full_closed f s) as Hread;
      pose proof (fread_full_data n f s b) as Hkeep;
      destruct (fread_full n f s b) as [buffer f2]
  end.
  cbn [fst snd f_pos f_data] in Hread, Hkeep.
  rewrite Hread by lia. rewrite Hdata.
  replace (Z.to_nat (178 + Z.of_nat k * fs)) with (178 + k * fsn)%nat
    by (subst fsn; nia).
  rewrite slice_of_frames
    by (try (now apply length_bytes_of_header); subst fsn; nia).
  fold fsn.
  assert (Hlen : Z.of_nat (length (slice (k * fsn) fsn frames)) = fs).
  { rewrite slice_length. subst fsn. nia. }
  rewrite Hlen, Z.eqb_refl. cbn [negb].
  unfold fwrite. rewrite Hlen, Z.eqb_refl. cbn [negb].
  eexists. split; [reflexivity |].
  split; cbn; congruence.
Qed.





Lemma trailer_date_range (trailer : list byte) (k : nat) :
  is_u64 (trailer_date trailer k).
Proof.
  unfold is_u64, trailer_date.
  pose proof (le_combine_bound (slice (8 * k) 8 trailer)) as Hb.
  pose proof (slice_length (8 * k) 8 trailer) as Hl.
  assert (2 ^ (8 * Z.of_nat (length (slice (8 * k) 8 trailer))) <= 2 ^ 64)
    by (apply Z.pow_le_mono_r; lia).
  lia.
Qed.

Lemma new_utc_date_range (h : SERHeader) (first : Z) :
  is_u64 first -> is_u64 (new_utc_date h first).
Proof.
  intros H. unfold new_utc_date.
  destruct (_ && _); [apply u64_range | exact H].
Qed.








(** With the first frame's timestamp as the local start date and a UTC start
    date one hour later, the new file holds a UTC start date one hour
    earlier than the local one. *)
Example extraction_mirrors_the_utc_offset :
  let first := 637134336000000000 in
  let hour := 36000000000 in
  fst (SerUtils.extractFramesFromVideo (clip_movie first (first + hour))
                                       (SerUtils.mkRange 0 1 2))
  = inr (clip_file first (first - hour)).
Proof. vm_compute. reflexivity. Qed.

(** ** Byte order and the memory of a header *)

Lemma swap_bytes_range (size : nat) (v : Z) :
  0 <= swap_bytes size v < 2 ^ (8 * Z.of_nat size).
Proof.
  unfold swap_bytes.
  pose proof (le_combine_bound (rev (le_split size v))) as H.
  now rewrite length_rev, length_le_split in H.
Qed.

Lemma swap_bytes_twice (size : nat) (v : Z) :
  swap_bytes size (swap_bytes size v) = v mod 2 ^ (8 * Z.of_nat size).
Proof.
  unfold swap_bytes.
  rewrite <- (length_le_split size v) at 1.
  rewrite <- length_rev, split_le_combine, rev_involutive.
  rewrite le_combine_split. do 2 f_equal. lia.
Qed.

Lemma header_wf_swapMovieHeader (h : SERHeader) :
  header_wf h -> header_wf (swapMovieHeader h).
Proof.
  intros Hwf. destruct Hwf. split; cbn; trivial;
    try apply (swap_bytes_range 4); apply (swap_bytes_range 8).
Qed.

Lemma swapMovieHeader_twice (h : SERHeader) :
  header_wf h -> swapMovieHeader (swapMovieHeader h) = h.
Proof.
  intros Hwf. destruct Hwf. destruct h. unfold swapMovieHeader. cbn in *.
  unfold swapint32, swapint64. rewrite !swap_bytes_twice.
  unfold is_u32, is_u64 in *.
  change (8 * Z.of_nat 4) with 32. change (8 * Z.of_nat 8) with 64.
  rewrite !Z.mod_small by assumption. reflexivity.
Qed.

Lemma le_split_swap_bytes (size : nat) (v : Z) :
  le_split size (swap_bytes size v) = rev (le_split size v).
Proof.
  unfold swap_bytes.
  rewrite <- (length_le_split size v) at 1.
  rewrite <- length_rev. apply split_le_combine.
Qed.

Lemma slice_app_skip (a l : list byte) (k off n : nat) :
  length a = k -> (k <= off)%nat ->
  slice off n (a ++ l) = slice (off - k) n l.
Proof.
  intros Hk Hoff. unfold slice. subst k.
  now rewrite drop_app_ge by lia.
Qed.

Lemma slice_app_here (b l : list byte) (n : nat) :
  length b = n -> slice 0 n (b ++ l) = b.
Proof.
  intros Hn. unfold slice. rewrite drop_0. subst n.
  now rewrite take_app_length.
Qed.

Lemma le_combine_le_split_4 (v : Z) :
  is_u32 v -> le_combine (le_split 4 v) = v.
Proof.
  unfold is_u32. intros H. rewrite le_combine_split.
  now apply Z.mod_small.
Qed.

Lemma le_combine_le_split_8 (v : Z) :
  is_u64 v -> le_combine (le_split 8 v) = v.
Proof.
  unfold is_u64. intros H. rewrite le_combine_split.
  now apply Z.mod_small.
Qed.

(** The struct read from the memory of a header is that header. *)
Lemma header_of_bytes_of_header (h : SERHeader) (rest : list byte) :
  header_wf h -> header_of_bytes (bytes_of_header h ++ rest) = h.
Proof.
  intros Hwf. destruct Hwf.
  destruct h as [fid luid color le w ht depth count obs ins tel date utc].
  cbn in *. unfold header_of_bytes, bytes_of_header. cbn.
  rewrite <- !app_assoc.
  repeat
    (rewrite ?slice_app_here by (trivial; apply length_le_split);
     rewrite ?(slice_app_skip fid _ 14) by (trivial; lia);
     rewrite ?(slice_app_skip obs _ 40) by (trivial; lia);
     rewrite ?(slice_app_skip ins _ 40) by (trivial; lia);
     rewrite ?(slice_app_skip tel _ 40) by (trivial; lia);
     rewrite ?(slice_app_skip (le_split 4 _) _ 4)
       by (try apply length_le_split; lia);
     rewrite ?(slice_app_skip (le_split 8 _) _ 8)
       by (try apply length_le_split; lia);
     cbn [Nat.sub]).
  rewrite !le_combine_le_split_4, !le_combine_le_split_8 by assumption.
  reflexivity.
Qed.

Lemma slice_slice_app (a n m : nat) (l : list byte) :
  slice a n l ++ slice (a + n) m l = slice a (n + m) l.
Proof.
  unfold slice. rewrite <- drop_drop. apply take_take_drop.
Qed.

Lemma le_split_le_combine_slice (off n : nat) (bs : list byte) :
  (off + n <= length bs)%nat ->
  le_split n (le_combine (slice off n bs)) = slice off n bs.
Proof.
  intros H.
  assert (Hl : length (slice off n bs) = n) by (rewrite slice_length; lia).
  rewrite <- Hl at 1. apply split_le_combine.
Qed.

Lemma le_combine_slice_range (off n : nat) (bs : list byte) :
  0 <= le_combine (slice off n bs) < 2 ^ (8 * Z.of_nat n).
Proof.
  pose proof (le_combine_bound (slice off n bs)) as Hb.
  pose proof (slice_length off n bs) as Hl.
  assert (2 ^ (8 * Z.of_nat (length (slice off n bs))) <= 2 ^ (8 * Z.of_nat n))
    by (apply Z.pow_le_mono_r; lia).
  lia.
Qed.

(** The struct read from 178 bytes of memory is well-formed, and its memory
    is those bytes. *)
Lemma header_wf_header_of_bytes (bs : list byte) :
  (178 <= length bs)%nat -> header_wf (header_of_bytes bs).
Proof.
  intros Hlen. split; cbn; rewrite ?slice_length; try lia;
    try apply (le_combine_slice_range _ 4);
    apply (le_combine_slice_range _ 8).
Qed.

Lemma bytes_of_header_of_bytes (bs : list byte) :
  (178 <= length bs)%nat ->
  bytes_of_header (header_of_bytes bs) = take 178 bs.
Proof.
  intros Hlen. unfold bytes_of_header, header_of_bytes. cbn.
  rewrite !le_split_le_combine_slice by lia.
  repeat (rewrite !app_assoc, slice_slice_app; cbn [Nat.add];
          rewrite <- ?app_assoc).
  rewrite (slice_slice_app 0 170 8). unfold slice. now rewrite drop_0.
Qed.

Lemma parseHeader_closed (f : FILE) :
  (178 <= length (f_data f))%nat ->
  Ser.parseHeader f
  = (Some (header_of_bytes (take 178 (f_data f))),
     mkFILE (f_data f) 178 (f_reads f ++ [(0, 178)])).
Proof.
  intros Hlen. unfold Ser.parseHeader.
  rewrite fseek_ok by lia.
  rewrite header_read_loop_whole by (trivial; cbn; lia).
  reflexivity.
Qed.

Lemma parseHeader_short (f : FILE) :
  (length (f_data f) < 178)%nat -> fst (Ser.parseHeader f) = None.
Proof.
  intros Hlen. unfold Ser.parseHeader.
  rewrite fseek_ok by lia.
  rewrite header_read_loop_short by (trivial; cbn; lia).
  reflexivity.
Qed.

Lemma header_of_bytes_take (bs : list byte) :
  header_of_bytes (take 178 bs) = header_of_bytes bs.
Proof.
  unfold header_of_bytes, slice.
  rewrite !take_drop_commute, !take_take. reflexivity.
Qed.

(** ** Opening a movie: the header and the warnings *)

Lemma strcmp_terminated (m : list byte) :
  Forall (fun c => byte.unsigned c <> 0) m ->
  forall s : list byte,
    (length m < length s)%nat ->
    strcmp (m ++ [x00]) s = 0 <-> take (S (length m)) s = m ++ [x00].
Proof.
  induction m as [| c1 m IH]; intros Hnz [| c2 s] Hlen;
    cbn [length] in Hlen; try lia.
  - cbn [app strcmp length take].
    change (byte.unsigned x00) with 0.
    destruct (Z.eqb_spec 0 (byte.unsigned c2)) as [He | He].
    + change (byte.unsigned x00) with 0 in He.
      split; [intros _ | reflexivity].
      f_equal. apply byte.unsigned_inj. now rewrite <- He.
    + split; [lia |]. intros H. injection H as H. subst c2. now destruct He.
  - inversion Hnz as [| ? ? Hc1 Hm]; subst.
    cbn [app strcmp length take].
    destruct (Z.eqb_spec (byte.unsigned c1) (byte.unsigned c2)) as [He | He].
    + apply byte.unsigned_inj in He. subst c2.
      destruct (Z.eqb_spec (byte.unsigned c1) 0) as [H0 | _]; [contradiction |].
      rewrite (IH Hm s) by lia.
      split; [intros H; now f_equal | intros H; now injection H].
    + split; [lia |]. intros H. injection H as H _. now subst c2.
Qed.

Lemma SERGetTrailerOffset_exact (h : SERHeader) :
  0 <= uiFrameCount h < 2 ^ 31 ->
  Ser.SERGetTrailerOffset h = 178 + uiFrameCount h * Ser.SERGetFrameSize h.
Proof. apply getTrailerOffset_exact. Qed.

(** The date read, in closed form: the eight bytes at the place of the
    timestamp in the trailer, or the bytes that the file has there. *)
Lemma SERGetFrameDate_closed (movie : Ser.SERMovie) (idx : Z) :
  0 <= uiFrameCount (Ser.header movie) < 2 ^ 31 ->
  178 + uiFrameCount (Ser.header movie)
        * (Ser.SERGetFrameSize (Ser.header movie) + 8) < 2 ^ 63 ->
  0 <= idx < uiFrameCount (Ser.header movie) ->
  fst (Ser.SERGetFrameDate movie idx)
  = le_combine
      (slice (Z.to_nat (178 + uiFrameCount (Ser.header movie)
                              * Ser.SERGetFrameSize (Ser.header movie)
                        + 8 * idx))
             8 (f_data (Ser.file movie))).
Proof.
  intros HN Hlong Hidx.
  pose proof (SERGetFrameSize_range (Ser.header movie)) as Hfs.
  unfold is_u32 in Hfs.
  unfold Ser.SERGetFrameDate.
  destruct (Z.leb_spec (uiFrameCount (Ser.header movie)) idx) as [Hge | _];
    [lia |].
  rewrite SERGetTrailerOffset_exact by lia.
  set (fs := Ser.SERGetFrameSize (Ser.header movie)) in *.
  assert (Hprod : 0 <= uiFrameCount (Ser.header movie) * fs) by nia.
  rewrite (u64_small (idx * 8)) by (unfold is_u64; lia).
  rewrite u64_small by (unfold is_u64; lia).
  rewrite int64_small by lia. rewrite fseek_ok by lia.
  match goal with
  | |- context [Ser.date_read_loop ?n ?f ?mem ?z] =>
      pose proof (date_read_loop_closed f) as Hread;
      destruct (Ser.date_read_loop n f mem z) as [date_mem f2]
  end.
  cbn [fst f_pos f_data IS_BIG_ENDIAN andb] in Hread |- *.
  rewrite Hread by lia. do 3 f_equal. lia.
Qed.

Lemma SERGetFrameDate_beyond (movie : Ser.SERMovie) (idx : Z) :
  uiFrameCount (Ser.header movie) <= idx ->
  Ser.SERGetFrameDate movie idx = (0, movie).
Proof.
  intros H. unfold Ser.SERGetFrameDate.
  destruct (Z.leb_spec (uiFrameCount (Ser.header movie)) idx); [reflexivity | lia].
Qed.

Lemma strcmp_magic_header (bytes : list byte) :
  (178 <= length bytes)%nat ->
  strcmp (SER_FILE_ID ++ [x00]) (bytes_of_header (header_of_bytes bytes)) = 0
  <-> take 15 bytes = SER_FILE_ID ++ [x00].
Proof.
  intros Hlen. rewrite bytes_of_header_of_bytes by exact Hlen.
  rewrite (strcmp_terminated SER_FILE_ID SER_FILE_ID_chars)
    by (rewrite length_take; change (length SER_FILE_ID) with 14%nat; lia).
  change (S (length SER_FILE_ID)) with 15%nat.
  rewrite take_take. reflexivity.
Qed.

(** The first steps of [SEROpenMovie] on a file that holds a header. *)
Ltac open_header Hlen :=
  unfold Ser.SEROpenMovie;
  rewrite parseHeader_closed by (cbn [fopen f_data]; exact Hlen);
  cbn [fopen f_data f_reads app IS_BIG_ENDIAN];
  rewrite header_of_bytes_take.

Lemma SEROpenMovie_not_ser (bytes : list byte) :
  (178 <= length bytes)%nat ->
  take 15 bytes <> SER_FILE_ID ++ [x00] ->
  Ser.SEROpenMovie (Some bytes) = (inl Ser.NotASerFile, [(0, 178)]).
Proof.
  intros Hlen Hmagic. open_header Hlen.
  destruct (Z.eqb_spec
              (strcmp (SER_FILE_ID ++ [x00])
                      (bytes_of_header (header_of_bytes bytes))) 0)
    as [He | _]; [| reflexivity].
  now apply strcmp_magic_header in He.
Qed.


Lemma SEROpenMovie_with_frames (bytes : list byte) :
  (178 <= length bytes)%nat ->
  take 15 bytes = SER_FILE_ID ++ [x00] ->
  let h := header_of_bytes bytes in
  let N := uiFrameCount h in
  let T := 178 + N * Ser.SERGetFrameSize h in
  let len := Z.of_nat (length bytes) in
  0 <= N < 2 ^ 31 ->
  178 + N * (Ser.SERGetFrameSize h + 8) < 2 ^ 63 ->
  T <= len < 2 ^ 63 ->
  let first :=
    if N =? 0 then 0 else le_combine (slice (Z.to_nat T) 8 bytes) in
  let last :=
    if N =? 0 then 0
    else le_combine (slice (Z.to_nat (T + 8 * (N - 1))) 8 bytes) in
  let warns :=
    if len <=? T then WARN_MISSING_TRAILER
    else if len - T <? 8 * N then WARN_INCOMPLETE_TRAILER else 0 in
  exists f3,
    fst (Ser.SEROpenMovie (Some bytes))
    = inr (Ser.mkSERMovie
             f3 len h
             (if first <? last
              then u32 ((last - first) / TIMEUNITS_PER_SEC) else 0)
             first last
             (if first <? last then warns
              else if Z.land warns WARN_INCOMPLETE_TRAILER =? 0
                   then Z.lor warns WARN_BAD_FRAME_DATES else warns)
             0)
    /\ f_data f3 = bytes.
Proof.
  intros Hlen Hmagic h N T len HN Hlong Hsize first last warns.
  open_header Hlen. fold h.
  apply strcmp_magic_header in Hmagic; [| exact Hlen]. fold h in Hmagic.
  rewrite Hmagic. cbn [Z.eqb negb].
  rewrite fseek_ok by lia.
  unfold file_length, Ser.SERMovieHasTrailer, Ser.SERGetFrameCount.
  cbn [f_data f_reads Ser.header Ser.filesize].
  rewrite SERGetTrailerOffset_exact by exact HN.
  pose proof (SERGetFrameSize_range h) as Hfs. unfold is_u32 in Hfs.
  fold N. fold T. fold len.
  assert (HT : 178 <= T) by (subst T; nia).
  rewrite (u64_small T) by (unfold is_u64; lia).
  rewrite (u64_small (N * 8)) by (unfold is_u64; lia).
  rewrite (u64_small (len - T)) by (unfold is_u64; lia).
  destruct (Z.ltb_spec len T) as [Hlt | _]; [lia |].
  replace (negb (T <? len)) with (len <=? T)
    by (destruct (Z.ltb_spec T len), (Z.leb_spec len T); trivial; lia).
  replace (N * 8) with (8 * N) by lia. fold warns.
  set (movie := Ser.mkSERMovie _ len h 0 0 0 0 0).
  assert (Hm : Ser.header movie = h) by reflexivity.
  assert (Hb : f_data (Ser.file movie) = bytes) by reflexivity.
  clearbody movie.
  (* the first date *)
  assert (Hfirst : fst (Ser.SERGetFirstFrameDate movie) = first).
  { unfold Ser.SERGetFirstFrameDate. subst first.
    destruct (Z.eqb_spec N 0) as [H0 | H0].
    - now rewrite SERGetFrameDate_beyond by (rewrite Hm; fold N; lia).
    - rewrite SERGetFrameDate_closed by (rewrite Hm; fold N; lia).
      rewrite Hm, Hb. fold N T. do 3 f_equal; lia. }
  pose proof (SERGetFrameDate_keeps movie 0) as (Hh1 & Hs1 & Hd1).
  unfold Ser.SERGetFirstFrameDate in *.
  destruct (Ser.SERGetFrameDate movie 0) as [first' movie1].
  cbn [fst snd] in Hfirst, Hh1, Hs1, Hd1. subst first'.
  rewrite Hm in Hh1. rewrite Hb in Hd1.
  (* the last date *)
  assert (Hlast : fst (Ser.SERGetLastFrameDate movie1) = last).
  { unfold Ser.SERGetLastFrameDate, Ser.SERGetFrameCount. subst last.
    rewrite Hh1. fold N.
    destruct (Z.eqb_spec N 0) as [H0 | H0].
    - rewrite H0. change (u32 (0 - 1)) with 4294967295.
      now rewrite SERGetFrameDate_beyond by (rewrite Hh1; fold N; lia).
    - rewrite (u32_small (N - 1)) by (unfold is_u32; lia).
      rewrite SERGetFrameDate_closed by (rewrite Hh1; fold N; lia).
      rewrite Hh1, Hd1. fold N T. do 3 f_equal; lia. }
  pose proof (SERGetFrameDate_keeps
                movie1 (u32 (Ser.SERGetFrameCount movie1 - 1)))
    as (_ & _ & Hd2).
  unfold Ser.SERGetLastFrameDate in *.
  destruct (Ser.SERGetFrameDate movie1 _) as [last' movie2].
  cbn [fst snd] in Hlast, Hd2. subst last'.
  exists (Ser.file movie2).
  split; [| now rewrite Hd2, Hd1].
  destruct (first <? last); [reflexivity |].
  destruct (Z.land warns WARN_INCOMPLETE_TRAILER =? 0); reflexivity.
Qed.

(** X1.  [swapint32] and [swapint64] reverse the bytes of the object they
    are given, and [swapMovieHeader], which applies them to the seven
    32-bit and the two 64-bit fields of a header, undoes itself: a header
    swapped twice is the header, and a swapped header still holds values of
    its field types. *)
Theorem swapMovieHeader_involutive (h : SERHeader) :
  header_wf h ->
  header_wf (swapMovieHeader h)
  /\ swapMovieHeader (swapMovieHeader h) = h
  /\ (forall v, le_split 4 (swapint32 v) = rev (le_split 4 v))
  /\ (forall v, le_split 8 (swapint64 v) = rev (le_split 8 v)).
Proof.
  intros Hwf. split; [now apply header_wf_swapMovieHeader |].
  split; [now apply swapMovieHeader_twice |].
  split; intros v; apply le_split_swap_bytes.
Qed.

Lemma swapMovieHeader_involutive_witness :
  header_wf (swapMovieHeader geometry_example)
  /\ swapMovieHeader (swapMovieHeader geometry_example) = geometry_example
  /\ (forall v, le_split 4 (swapint32 v) = rev (le_split 4 v))
  /\ (forall v, le_split 8 (swapint64 v) = rev (le_split 8 v)).
Proof.
  apply (swapMovieHeader_involutive geometry_example). solve_header_wf.
Defined.

(** X2.  A header written by [writeHeaderToVideo] is read back by
    [parseHeader]: the write stores 178 bytes and succeeds, and parsing a
    file that starts with these bytes returns the header that was written,
    with the stream left after the header. *)
Theorem parseHeader_reads_written_header (h : SERHeader) (rest : list byte) :
  header_wf h ->
  let written := SerUtils.writeHeaderToVideo [] h in
  fst written = true
  /\ length (snd written) = 178%nat
  /\ fst (Ser.parseHeader (fopen (snd written ++ rest))) = Some h
  /\ f_pos (snd (Ser.parseHeader (fopen (snd written ++ rest)))) = 178.
Proof.
  intros Hwf written.
  assert (Hw : written = (true, bytes_of_header h)).
  { subst written. unfold SerUtils.writeHeaderToVideo, fwrite.
    rewrite length_bytes_of_header by exact Hwf. reflexivity. }
  rewrite Hw. cbn [fst snd].
  split; [reflexivity |]. split; [now apply length_bytes_of_header |].
  rewrite parseHeader_closed
    by (cbn [fopen f_data]; rewrite length_app, length_bytes_of_header; trivial; lia).
  cbn [fst snd fopen f_data f_pos].
  rewrite header_of_bytes_take, header_of_bytes_of_header by exact Hwf.
  split; reflexivity.
Qed.

Lemma parseHeader_reads_written_header_witness :
  let written := SerUtils.writeHeaderToVideo [] geometry_example in
  fst written = true
  /\ length (snd written) = 178%nat
  /\ fst (Ser.parseHeader (fopen (snd written ++ [x01; x02])))
     = Some geometry_example
  /\ f_pos (snd (Ser.parseHeader (fopen (snd written ++ [x01; x02])))) = 178.
Proof.
  apply (parseHeader_reads_written_header geometry_example [x01; x02]).
  solve_header_wf.
Defined.

(** X3.  [parseHeader] checks nothing but the length of the file.  On a
    file of at least 178 bytes it succeeds, whatever the bytes are: the
    header it returns is well-formed and its memory is the first 178 bytes
    of the file, and one read of 178 bytes at offset 0 was made.  On a
    shorter file it fails. *)
Theorem parseHeader_needs_178_bytes (f : FILE) :
  ((178 <= length (f_data f))%nat ->
   exists h,
     Ser.parseHeader f
     = (Some h, mkFILE (f_data f) 178 (f_reads f ++ [(0, 178)]))
     /\ header_wf h
     /\ bytes_of_header h = take 178 (f_data f))
  /\ ((length (f_data f) < 178)%nat -> fst (Ser.parseHeader f) = None).
Proof.
  split; intros Hlen; [| now apply parseHeader_short].
  exists (header_of_bytes (take 178 (f_data f))).
  split; [now apply parseHeader_closed |].
  rewrite header_of_bytes_take.
  split; [now apply header_wf_header_of_bytes
         | now apply bytes_of_header_of_bytes].
Qed.

Lemma parseHeader_needs_178_bytes_witness :
  (exists h,
     Ser.parseHeader (fopen zeros_200)
     = (Some h, mkFILE zeros_200 178 [(0, 178)])
     /\ header_wf h
     /\ bytes_of_header h = take 178 zeros_200)
  /\ fst (Ser.parseHeader (fopen zeros_100)) = None.
Proof.
  split.
  - apply (proj1 (parseHeader_needs_178_bytes (fopen zeros_200))).
    vm_compute. lia.
  - apply (proj2 (parseHeader_needs_178_bytes (fopen zeros_100))).
    vm_compute. lia.
Defined.

Lemma SEROpenMovie_accepted (bytes : list byte) :
  (178 <= length bytes)%nat ->
  take 15 bytes = SER_FILE_ID ++ [x00] ->
  exists movie,
    fst (Ser.SEROpenMovie (Some bytes)) = inr movie
    /\ Ser.header movie = header_of_bytes bytes
    /\ Ser.filesize movie = Z.of_nat (length bytes).
Proof.
  intros Hlen Hmagic. open_header Hlen.
  apply strcmp_magic_header in Hmagic; [| exact Hlen].
  rewrite Hmagic. cbn [Z.eqb negb].
  rewrite fseek_ok by lia. cbv zeta.
  destruct (_ <? _); [eexists; repeat split |].
  destruct (Ser.SERGetFirstFrameDate _) as [first movie1].
  destruct (Ser.SERGetLastFrameDate _) as [last movie2].
  destruct (first <? last); [eexists; repeat split |].
  destruct (_ =? 0); eexists; repeat split.
Qed.

(** X4.  [SEROpenMovie] opens a file of at least 178 bytes exactly when its
    first 15 bytes are the magic string followed by a zero byte: the
    comparison with [strcmp] runs past the 14 characters of [sFileID] into
    the first byte of [uiLuID].  The handle then holds the header read from
    the first 178 bytes and the length of the file; otherwise the call
    fails with "File is not a SER movie file" after the one read of the
    header. *)
Theorem SEROpenMovie_accepts_magic_and_zero (bytes : list byte) :
  (178 <= length bytes)%nat ->
  (take 15 bytes = SER_FILE_ID ++ [x00] ->
   exists movie,
     fst (Ser.SEROpenMovie (Some bytes)) = inr movie
     /\ Ser.header movie = header_of_bytes bytes
     /\ Ser.filesize movie = Z.of_nat (length bytes))
  /\ (take 15 bytes <> SER_FILE_ID ++ [x00] ->
      Ser.SEROpenMovie (Some bytes) = (inl Ser.NotASerFile, [(0, 178)])).
Proof.
  intros Hlen. split; intros Hmagic.
  - now apply SEROpenMovie_accepted.
  - now apply SEROpenMovie_not_ser.
Qed.

Lemma SEROpenMovie_accepts_magic_and_zero_witness :
  (exists movie,
     fst (Ser.SEROpenMovie (Some (clip_file 0 0))) = inr movie
     /\ Ser.header movie = header_of_bytes (clip_file 0 0)
     /\ Ser.filesize movie = Z.of_nat (length (clip_file 0 0)))
  /\ Ser.SEROpenMovie (Some luid_file) = (inl Ser.NotASerFile, [(0, 178)]).
Proof.
  split.
  - apply (SEROpenMovie_accepts_magic_and_zero (clip_file 0 0));
      [vm_compute; lia | reflexivity].
  - apply (SEROpenMovie_accepts_magic_and_zero luid_file);
      [vm_compute; lia | vm_compute; discriminate].
Defined.

Lemma take_15_header (h : SERHeader) (payload : list byte) :
  header_wf h ->
  take 15 (bytes_of_header h ++ payload) = take 15 (bytes_of_header h).
Proof.
  intros Hwf. apply take_app_le.
  rewrite length_bytes_of_header by exact Hwf. lia.
Qed.


Lemma ten_frames_header_wf : header_wf ten_frames_header.
Proof. solve_header_wf. Qed.


(** The file of a header, all its frames and some bytes after them, as
    [SEROpenMovie_with_frames] wants it. *)
Lemma SEROpenMovie_after_frames
      (h : SERHeader) (frames tail : list byte) :
  header_wf h ->
  take 15 (bytes_of_header h) = SER_FILE_ID ++ [x00] ->
  uiFrameCount h < 2 ^ 31 ->
  178 + uiFrameCount h * (Ser.SERGetFrameSize h + 8) < 2 ^ 63 ->
  Z.of_nat (length frames) = uiFrameCount h * Ser.SERGetFrameSize h ->
  Z.of_nat (length (bytes_of_header h ++ frames ++ tail)) < 2 ^ 63 ->
  let N := uiFrameCount h in
  let t := Z.of_nat (length tail) in
  let bytes := bytes_of_header h ++ frames ++ tail in
  let first := if N =? 0 then 0 else le_combine (slice 0 8 tail) in
  let last :=
    if N =? 0 then 0 else le_combine (slice (8 * (Z.to_nat N - 1)) 8 tail) in
  let warns :=
    if t <=? 0 then WARN_MISSING_TRAILER
    else if t <? 8 * N then WARN_INCOMPLETE_TRAILER else 0 in
  exists f3,
    fst (Ser.SEROpenMovie (Some bytes))
    = inr (Ser.mkSERMovie
             f3 (Z.of_nat (length bytes)) h
             (if first <? last
              then u32 ((last - first) / TIMEUNITS_PER_SEC) else 0)
             first last
             (if first <? last then warns
              else if Z.land warns WARN_INCOMPLETE_TRAILER =? 0
                   then Z.lor warns WARN_BAD_FRAME_DATES else warns)
             0)
    /\ f_data f3 = bytes.
Proof.
  intros Hwf Hmagic HN Hlong Hframes Htail N t bytes first last warns.
  pose proof (length_bytes_of_header h Hwf) as Hh.
  pose proof (wf_count h Hwf) as Hc. unfold is_u32 in Hc.
  pose proof (SERGetFrameSize_range h) as Hfs. unfold is_u32 in Hfs.
  assert (Hbytes : Z.of_nat (length bytes)
                   = 178 + N * Ser.SERGetFrameSize h + t).
  { subst bytes t N. rewrite !length_app. lia. }
  assert (Hlen : (178 <= length bytes)%nat)
    by (subst bytes; rewrite length_app; lia).
  assert (Hhdr : header_of_bytes bytes = h)
    by (now apply header_of_bytes_of_header).
  pose proof (SEROpenMovie_with_frames bytes Hlen) as Hopen.
  cbv zeta in Hopen. rewrite Hhdr in Hopen. fold N in Hopen.
  destruct Hopen as (f3 & Hres & Hdata).
  - subst bytes. now rewrite take_15_header.
  - lia.
  - exact Hlong.
  - fold bytes in Htail. rewrite Hbytes in Htail |- *. nia.
  - exists f3. split; [| exact Hdata]. rewrite Hres.
    assert (Hsl : forall k : nat,
               slice (Z.to_nat (178 + N * Ser.SERGetFrameSize h)
                      + k) 8 bytes
               = slice k 8 tail).
    { intros k. subst bytes.
      replace (Z.to_nat (178 + N * Ser.SERGetFrameSize h) + k)%nat
        with (178 + length frames + k)%nat by lia.
      now apply slice_of_trailer. }
    assert (Hfirst : (if N =? 0 then 0
                      else le_combine
                             (slice (Z.to_nat (178 + N * Ser.SERGetFrameSize h))
                                    8 bytes)) = first).
    { subst first. destruct (N =? 0); [reflexivity |].
      rewrite <- (Hsl 0%nat). do 2 f_equal. lia. }
    assert (Hlast : (if N =? 0 then 0
                     else le_combine
                            (slice (Z.to_nat (178 + N * Ser.SERGetFrameSize h
                                              + 8 * (N - 1)))
                                   8 bytes)) = last).
    { subst last. destruct (Z.eqb_spec N 0); [reflexivity |].
      rewrite <- Hsl. do 2 f_equal. nia. }
    rewrite Hfirst, Hlast.
    replace (Z.of_nat (length bytes) <=? 178 + N * Ser.SERGetFrameSize h)
      with (t <=? 0)
      by (rewrite Hbytes;
          destruct (Z.leb_spec t 0), (Z.leb_spec (178 + N * Ser.SERGetFrameSize h + t) (178 + N * Ser.SERGetFrameSize h)); trivial; lia).
    replace (Z.of_nat (length bytes) - (178 + N * Ser.SERGetFrameSize h))
      with t by lia.
    reflexivity.
Qed.

(** X6.  A file that holds all the frames of its header and a trailer that
    is missing or cut short is opened with one of two sets of warnings.
    When no byte follows the frames, the warnings are
    [WARN_MISSING_TRAILER] and, because both frame dates then read as 0,
    [WARN_BAD_FRAME_DATES]; the dates and the duration of the handle are 0.
    When the trailer is there but shorter than eight bytes for every
    frame, the warning is [WARN_INCOMPLETE_TRAILER] alone, whatever the
    dates that were read. *)
Theorem SEROpenMovie_short_trailer
        (h : SERHeader) (frames part : list byte) :
  header_wf h ->
  take 15 (bytes_of_header h) = SER_FILE_ID ++ [x00] ->
  uiFrameCount h < 2 ^ 31 ->
  178 + uiFrameCount h * (Ser.SERGetFrameSize h + 8) < 2 ^ 63 ->
  Z.of_nat (length frames) = uiFrameCount h * Ser.SERGetFrameSize h ->
  Z.of_nat (length part) < 8 * uiFrameCount h ->
  exists movie,
    fst (Ser.SEROpenMovie (Some (bytes_of_header h ++ frames ++ part)))
    = inr movie
    /\ Ser.header movie = h
    /\ (part = [] ->
        Ser.warnings movie
        = Z.lor WARN_MISSING_TRAILER WARN_BAD_FRAME_DATES
        /\ Ser.firstFrameDate movie = 0 /\ Ser.lastFrameDate movie = 0
        /\ Ser.duration movie = 0)
    /\ (part <> [] -> Ser.warnings movie = WARN_INCOMPLETE_TRAILER).
Proof.
  intros Hwf Hmagic HN Hlong Hframes Hpart.
  pose proof (length_bytes_of_header h Hwf) as Hh.
  destruct (SEROpenMovie_after_frames h frames part)
    as (f3 & Hres & _); trivial.
  { rewrite !length_app. lia. }
  cbv zeta in Hres. eexists. split; [exact Hres |].
  split; [reflexivity |].
  assert (HN0 : (uiFrameCount h =? 0) = false) by (apply Z.eqb_neq; lia).
  rewrite HN0. cbn [Ser.warnings Ser.firstFrameDate Ser.lastFrameDate
                      Ser.duration].
  split.
  - intros ->. cbn [length]. unfold slice. rewrite !drop_nil, !take_nil.
    change (le_combine []) with 0. repeat apply conj; reflexivity.
  - intros Hne.
    assert (0 < Z.of_nat (length part))
      by (destruct part; [contradiction | cbn [length]; lia]).
    destruct (Z.leb_spec (Z.of_nat (length part)) 0); [lia |].
    destruct (Z.ltb_spec (Z.of_nat (length part)) (8 * uiFrameCount h));
      [| lia].
    destruct (le_combine _ <? le_combine _); reflexivity.
Qed.

Lemma SEROpenMovie_short_trailer_witness :
  exists movie,
    fst (Ser.SEROpenMovie (Some (clip_start 5))) = inr movie
    /\ Ser.header movie = clip_header 0 0
    /\ (take 5 clip_trailer = [] ->
        Ser.warnings movie
        = Z.lor WARN_MISSING_TRAILER WARN_BAD_FRAME_DATES
        /\ Ser.firstFrameDate movie = 0 /\ Ser.lastFrameDate movie = 0
        /\ Ser.duration movie = 0)
    /\ (take 5 clip_trailer <> [] ->
        Ser.warnings movie = WARN_INCOMPLETE_TRAILER).
Proof.
  apply (SEROpenMovie_short_trailer (clip_header 0 0) clip_frames
                                    (take 5 clip_trailer)).
  - solve_header_wf.
  - reflexivity.
  - vm_compute. reflexivity.
  - vm_compute. reflexivity.
  - reflexivity.
  - vm_compute. reflexivity.
Defined.

(** X7.  A file that holds a header, all its frames (at least one) and a
    timestamp for every frame is opened with the dates of the first and of
    the last frame.  When the last date is above the first one there is no
    warning and the duration is their difference in seconds; otherwise, and
    so for every movie of a single frame, the warning is
    [WARN_BAD_FRAME_DATES] and the duration is 0.  Bytes that follow the
    trailer change nothing. *)
Theorem SEROpenMovie_whole_movie
        (h : SERHeader) (frames trailer extra : list byte) :
  header_wf h ->
  take 15 (bytes_of_header h) = SER_FILE_ID ++ [x00] ->
  1 <= uiFrameCount h < 2 ^ 31 ->
  Z.of_nat (length frames) = uiFrameCount h * Ser.SERGetFrameSize h ->
  Z.of_nat (length trailer) = 8 * uiFrameCount h ->
  Z.of_nat (length (bytes_of_header h ++ frames ++ trailer ++ extra))
  < 2 ^ 63 ->
  let first := trailer_date trailer 0 in
  let last := trailer_date trailer (Z.to_nat (uiFrameCount h) - 1) in
  exists movie,
    fst (Ser.SEROpenMovie
           (Some (bytes_of_header h ++ frames ++ trailer ++ extra)))
    = inr movie
    /\ Ser.header movie = h
    /\ Ser.filesize movie
       = Z.of_nat (length (bytes_of_header h ++ frames ++ trailer ++ extra))
    /\ Ser.firstFrameDate movie = first
    /\ Ser.lastFrameDate movie = last
    /\ (first < last ->
        Ser.warnings movie = 0
        /\ Ser.duration movie = u32 ((last - first) / 10000000))
    /\ (last <= first ->
        Ser.warnings movie = WARN_BAD_FRAME_DATES
        /\ Ser.duration movie = 0).
Proof.
  intros Hwf Hmagic HN Hframes Htrailer Hsize first last.
  pose proof (length_bytes_of_header h Hwf) as Hh.
  pose proof (SERGetFrameSize_range h) as Hfs. unfold is_u32 in Hfs.
  assert (Hlong : 178 + uiFrameCount h * (Ser.SERGetFrameSize h + 8)
                  < 2 ^ 63).
  { rewrite !length_app, !Nat2Z.inj_add in Hsize. lia. }
  destruct (SEROpenMovie_after_frames h frames (trailer ++ extra))
    as (f3 & Hres & _); trivial; try lia.
  cbv zeta in Hres. eexists. split; [exact Hres |].
  assert (HN0 : (uiFrameCount h =? 0) = false) by (apply Z.eqb_neq; lia).
  rewrite HN0.
  assert (Hsl : forall k : nat,
             (k < Z.to_nat (uiFrameCount h))%nat ->
             le_combine (slice (8 * k) 8 (trailer ++ extra))
             = trailer_date trailer k).
  { intros k Hk. unfold trailer_date, slice.
    rewrite drop_app_le by lia. rewrite take_app_le; [reflexivity |].
    rewrite length_drop. lia. }
  assert (Hlast : le_combine
                    (slice (8 * (Z.to_nat (uiFrameCount h) - 1)) 8
                           (trailer ++ extra)) = last)
    by (apply Hsl; lia).
  change (8 * 0)%nat with 0%nat. rewrite Hlast.
  assert (Hfirst : le_combine (slice 0 8 (trailer ++ extra)) = first)
    by (apply (Hsl 0%nat); lia).
  rewrite Hfirst.
  cbn [Ser.header Ser.filesize Ser.firstFrameDate Ser.lastFrameDate
       Ser.warnings Ser.duration].
  assert (Hw : (if Z.of_nat (length (trailer ++ extra)) <=? 0
                then WARN_MISSING_TRAILER
                else if Z.of_nat (length (trailer ++ extra))
                        <? 8 * uiFrameCount h
                     then WARN_INCOMPLETE_TRAILER else 0) = 0).
  { rewrite length_app.
    destruct (Z.leb_spec (Z.of_nat (length trailer + length extra)) 0);
      [lia |].
    destruct (Z.ltb_spec (Z.of_nat (length trailer + length extra))
                         (8 * uiFrameCount h)); [lia | reflexivity]. }
  rewrite Hw. repeat split.
  - destruct (Z.ltb_spec first last); [reflexivity | lia].
  - destruct (Z.ltb_spec first last); [reflexivity | lia].
  - destruct (Z.ltb_spec first last); [lia | reflexivity].
  - destruct (Z.ltb_spec first last); [lia | reflexivity].
Qed.

Lemma SEROpenMovie_whole_movie_witness :
  let first := trailer_date clip_trailer 0 in
  let last := trailer_date clip_trailer (Z.to_nat 2 - 1) in
  exists movie,
    fst (Ser.SEROpenMovie
           (Some (bytes_of_header (clip_header 0 0)
                  ++ clip_frames ++ clip_trailer ++ [xff])))
    = inr movie
    /\ Ser.header movie = clip_header 0 0
    /\ Ser.filesize movie
       = Z.of_nat (length (bytes_of_header (clip_header 0 0)
                           ++ clip_frames ++ clip_trailer ++ [xff]))
    /\ Ser.firstFrameDate movie = first
    /\ Ser.lastFrameDate movie = last
    /\ (first < last ->
        Ser.warnings movie = 0
        /\ Ser.duration movie = u32 ((last - first) / 10000000))
    /\ (last <= first ->
        Ser.warnings movie = WARN_BAD_FRAME_DATES
        /\ Ser.duration movie = 0).
Proof.
  apply (SEROpenMovie_whole_movie (clip_header 0 0) clip_frames clip_trailer
                                  [xff]).
  - solve_header_wf.
  - reflexivity.
  - vm_compute. split; [discriminate | reflexivity].
  - reflexivity.
  - reflexivity.
  - vm_compute. reflexivity.
Defined.

(** X8.  [SERGetFrameDate] never fails.  For an index at or above the frame
    count it answers 0 and leaves the handle as it is.  For an index below
    it, it answers the little-endian value of the eight bytes at offset
    [178 + frameCount * frameSize + 8 * idx], or of as many bytes as the
    file has there: 0 when the file ends at or before that offset.  The
    header, the size and the bytes of the file are unchanged. *)
Theorem SERGetFrameDate_reads_trailer_slot (movie : Ser.SERMovie) (idx : Z) :
  0 <= uiFrameCount (Ser.header movie) < 2 ^ 31 ->
  178 + uiFrameCount (Ser.header movie)
        * (Ser.SERGetFrameSize (Ser.header movie) + 8) < 2 ^ 63 ->
  let h := Ser.header movie in
  let off := Z.to_nat (178 + uiFrameCount h * Ser.SERGetFrameSize h
                       + 8 * idx) in
  let res := Ser.SERGetFrameDate movie idx in
  (uiFrameCount h <= idx -> res = (0, movie))
  /\ (0 <= idx < uiFrameCount h ->
      fst res = le_combine (slice off 8 (f_data (Ser.file movie)))
      /\ ((length (f_data (Ser.file movie)) <= off)%nat -> fst res = 0))
  /\ Ser.header (snd res) = h
  /\ Ser.filesize (snd res) = Ser.filesize movie
  /\ f_data (Ser.file (snd res)) = f_data (Ser.file movie).
Proof.
  intros HN Hlong h off res.
  split; [intros Hge; now apply SERGetFrameDate_beyond |].
  split; [| apply SERGetFrameDate_keeps].
  intros Hidx.
  assert (Hres : fst res = le_combine (slice off 8 (f_data (Ser.file movie))))
    by (now apply SERGetFrameDate_closed).
  split; [exact Hres |].
  intros Hend. rewrite Hres, slice_nil_at_end by exact Hend. reflexivity.
Qed.

Lemma SERGetFrameDate_reads_trailer_slot_witness :
  let h := Ser.header truncated_movie in
  let off := Z.to_nat (178 + uiFrameCount h * Ser.SERGetFrameSize h
                       + 8 * 3) in
  let res := Ser.SERGetFrameDate truncated_movie 3 in
  (uiFrameCount h <= 3 -> res = (0, truncated_movie))
  /\ (0 <= 3 < uiFrameCount h ->
      fst res = le_combine (slice off 8 (f_data (Ser.file truncated_movie)))
      /\ ((length (f_data (Ser.file truncated_movie)) <= off)%nat ->
          fst res = 0))
  /\ Ser.header (snd res) = h
  /\ Ser.filesize (snd res) = Ser.filesize truncated_movie
  /\ f_data (Ser.file (snd res)) = f_data (Ser.file truncated_movie).
Proof.
  apply (SERGetFrameDate_reads_trailer_slot truncated_movie 3).
  - vm_compute. split; [discriminate | reflexivity].
  - vm_compute. reflexivity.
Defined.

(** ** Frame ranges, once more *)

(** X9.  When the first endpoint, counted from the end if it is negative,
    does not fall before frame 0, [determineFrameRange] either fails with
    one of its three messages or returns a range that lies in the movie:
    its endpoints are the resolved ones, in order and below the frame
    count, and its count is the number of frames between them.  No
    [assert] fails. *)
Theorem determineFrameRange_in_movie (h : SERHeader) (from to count : Z) :
  0 <= uiFrameCount h < 2 ^ 31 ->
  is_int from -> is_int to -> is_int count ->
  uiFrameCount h + count <= 2 ^ 31 ->
  - uiFrameCount h <= from ->
  let tot := uiFrameCount h in
  let from' := if from <? 0 then tot + from else from in
  let to' := if 0 <? count then from' + count - 1
             else if to <? 0 then tot + to else to in
  SerUtils.determineFrameRange h from to count <> SerUtils.AssertFailed
  /\ (forall r,
        SerUtils.determineFrameRange h from to count = SerUtils.Returns r ->
        r = SerUtils.mkRange from' to' (to' - from' + 1)
        /\ 0 <= from' <= to' /\ to' < tot)
  /\ (from' <= to' < tot ->
      SerUtils.determineFrameRange h from to count
      = SerUtils.Returns (SerUtils.mkRange from' to' (to' - from' + 1))).
Proof.
  intros Hc Hf Ht Hn Hsum Hlow tot from' to'.
  rewrite determineFrameRange_cases by assumption. fold tot from' to'.
  assert (H0 : 0 <= from').
  { subst from' tot. destruct (Z.ltb_spec from 0); lia. }
  destruct (Z.leb_spec tot from') as [H1 | H1];
    [split; [discriminate | split; [discriminate | lia]] |].
  destruct (Z.leb_spec tot to') as [H2 | H2];
    [split; [discriminate | split; [discriminate | lia]] |].
  destruct (Z.ltb_spec to' from') as [H3 | H3];
    [split; [discriminate | split; [discriminate | lia]] |].
  destruct (Z.leb_spec 0 from') as [H4 | H4]; [| lia].
  split; [discriminate |]. split; [| reflexivity].
  intros r Hr. injection Hr as <-. repeat split; lia.
Qed.

Lemma determineFrameRange_in_movie_witness :
  let tot := uiFrameCount ten_frames_header in
  let from' := if -3 <? 0 then tot + -3 else -3 in
  let to' := if 0 <? 0 then from' + 0 - 1
             else if -1 <? 0 then tot + -1 else -1 in
  SerUtils.determineFrameRange ten_frames_header (-3) (-1) 0
  <> SerUtils.AssertFailed
  /\ (forall r,
        SerUtils.determineFrameRange ten_frames_header (-3) (-1) 0
        = SerUtils.Returns r ->
        r = SerUtils.mkRange from' to' (to' - from' + 1)
        /\ 0 <= from' <= to' /\ to' < tot)
  /\ (from' <= to' < tot ->
      SerUtils.determineFrameRange ten_frames_header (-3) (-1) 0
      = SerUtils.Returns (SerUtils.mkRange from' to' (to' - from' + 1))).
Proof.
  apply (determineFrameRange_in_movie ten_frames_header (-3) (-1) 0);
    unfold is_int; simpl; lia.
Defined.

(** ** Extracting a range of frames *)

Lemma extract_loop_from (h : SERHeader) (frames trailer : list byte)
      (a : nat) (todo : nat) :
  forall (k : nat) (movie : SerUtils.SERMovie) (out : list byte)
         (dates : list Z),
    whole_movie h frames trailer ->
    (forall j, (a + k <= j < a + k + todo)%nat -> trailer_date trailer j <> 0) ->
    movie_on h (bytes_of_header h ++ frames ++ trailer) movie ->
    Z.of_nat (a + k + todo) <= uiFrameCount h ->
    let fs := Z.to_nat (SerUtils.getFrameSize h) in
    exists movie',
      SerUtils.extract_loop todo (Z.of_nat k) (Z.of_nat a) movie out dates
      = (inr (out ++ slice ((a + k) * fs) (todo * fs) frames,
              dates ++ map (trailer_date trailer) (seq (a + k) todo)),
         movie')
      /\ movie_on h (bytes_of_header h ++ frames ++ trailer) movie'.
Proof.
  induction todo as [| todo IH];
    intros k movie out dates Hwhole Hdates Hon Hend fs.
  - exists movie. cbn [SerUtils.extract_loop seq map].
    rewrite Nat.mul_0_l. unfold slice. rewrite take_0, !app_nil_r.
    split; [reflexivity | exact Hon].
  - pose proof (whole_count _ _ _ Hwhole) as Hcount.
    cbn [SerUtils.extract_loop].
    replace (Z.of_nat a + Z.of_nat k) with (Z.of_nat (a + k)) by lia.
    rewrite (u32_small (Z.of_nat (a + k))) by (unfold is_u32; lia).
    rewrite (int32_small (Z.of_nat (a + k))) by (unfold is_int; lia).
    destruct (appendFrameToVideo_closed h frames trailer movie out (a + k))
      as (movie1 & Happend & Hon1); trivial; [lia |].
    rewrite Happend.
    destruct (readFrameDate_closed h frames trailer movie1 (a + k))
      as (Hdate & Hon2); trivial; [lia |].
    destruct (SerUtils.readFrameDate movie1 (Z.of_nat (a + k)))
      as [datetime movie2].
    cbn [fst snd] in Hdate, Hon2. subst datetime.
    destruct (Z.eqb_spec (trailer_date trailer (a + k)) 0) as [H0 | _].
    { now apply Hdates in H0; [| lia]. }
    rewrite (int32_small (Z.of_nat k + 1)) by (unfold is_int; lia).
    replace (Z.of_nat k + 1) with (Z.of_nat (S k)) by lia.
    destruct (IH (S k) movie2
                 (out ++ slice ((a + k) * Z.to_nat (SerUtils.getFrameSize h))
                               (Z.to_nat (SerUtils.getFrameSize h)) frames)
                 (dates ++ [trailer_date trailer (a + k)]))
      as (movie3 & Hloop & Hon3); trivial.
    { intros j Hj. apply Hdates. lia. }
    { lia. }
    exists movie3. split; [| exact Hon3].
    rewrite Hloop. fold fs. cbn [seq map].
    replace (a + S k)%nat with (S (a + k)) by lia.
    rewrite <- !app_assoc. cbn [app]. do 3 f_equal.
    unfold slice.
    replace (S (a + k) * fs)%nat with ((a + k) * fs + fs)%nat by lia.
    rewrite <- drop_drop, take_take_drop. f_equal; lia.
Qed.

Lemma trailer_date_slice (trailer : list byte) (a c k : nat) :
  (k < c)%nat ->
  trailer_date (slice (8 * a) (8 * c) trailer) k
  = trailer_date trailer (a + k).
Proof.
  intros Hk. unfold trailer_date, slice.
  replace (8 * c)%nat with (8 * k + (8 * c - 8 * k))%nat by lia.
  rewrite <- take_drop_commute, take_take, drop_drop.
  replace (8 `min` (8 * c - 8 * k))%nat with 8%nat by lia.
  do 3 f_equal. lia.
Qed.

Lemma trailer_slice_of_dates (trailer : list byte) (a c : nat) :
  (8 * (a + c) <= length trailer)%nat ->
  flat_map (le_split 8) (map (trailer_date trailer) (seq a c))
  = slice (8 * a) (8 * c) trailer.
Proof.
  intros Hlen.
  rewrite <- (trailer_of_dates c (slice (8 * a) (8 * c) trailer))
    by (rewrite slice_length; lia).
  f_equal. rewrite <- (Nat.add_0_r a) at 1.
  rewrite <- (fmap_add_seq a 0 c), <- list_fmap_compose.
  apply map_ext_in. intros k Hk. apply in_seq in Hk. cbn.
  symmetry. apply trailer_date_slice. lia.
Qed.

Lemma getFrameSize_set (h : SERHeader) (n date utc : Z) :
  SerUtils.getFrameSize
    (SerUtils.set_dates (SerUtils.set_uiFrameCount h n) date utc)
  = SerUtils.getFrameSize h.
Proof. reflexivity. Qed.

Lemma extractFramesFromVideo_range_closed
      (h : SERHeader) (frames trailer : list byte)
      (movie : SerUtils.SERMovie) (a c : nat) (b : Z) :
  whole_movie h frames trailer ->
  Z.of_nat (a + c) <= uiFrameCount h ->
  (1 <= c)%nat ->
  0 <= b < uiFrameCount h ->
  (forall k, (a <= k < a + c)%nat -> trailer_date trailer k <> 0) ->
  movie_on h (bytes_of_header h ++ frames ++ trailer) movie ->
  let fs := Z.to_nat (SerUtils.getFrameSize h) in
  let first := trailer_date trailer a in
  exists movie',
    SerUtils.extractFramesFromVideo
      movie (SerUtils.mkRange (Z.of_nat a) b (Z.of_nat c))
    = (inr (bytes_of_header
              (SerUtils.set_dates (SerUtils.set_uiFrameCount h (Z.of_nat c))
                                  first (new_utc_date h first))
            ++ slice (a * fs) (c * fs) frames
            ++ slice (8 * a) (8 * c) trailer),
       movie')
    /\ movie_on h (bytes_of_header h ++ frames ++ trailer) movie'.
Proof.
  intros Hwhole Hend Hc Hb Hdates Hon fs first.
  pose proof (whole_count _ _ _ Hwhole) as Hcount.
  pose proof (whole_wf _ _ _ Hwhole) as Hwf.
  pose proof (whole_size _ _ _ Hwhole) as Hsize.
  pose proof (whole_frames _ _ _ Hwhole) as Hframes.
  pose proof (whole_trailer _ _ _ Hwhole) as Htrailer.
  pose proof (SERGetFrameSize_range h) as Hfs. unfold is_u32 in Hfs.
  change (Ser.SERGetFrameSize h) with (SerUtils.getFrameSize h) in Hfs.
  unfold SerUtils.extractFramesFromVideo.
  cbn [SerUtils.from SerUtils.to SerUtils.count].
  rewrite (proj1 Hon).
  destruct (readFrameDate_closed h frames trailer movie a Hwhole Hon)
    as (Hfirst & Hon1); [lia |].
  destruct (SerUtils.readFrameDate movie (Z.of_nat a))
    as [first_frame_date movie1].
  cbn [fst snd] in Hfirst, Hon1. subst first_frame_date. fold first.
  destruct (readFrameDate_closed h frames trailer movie1 (Z.to_nat b)
                                 Hwhole Hon1)
    as (_ & Hon2); [lia |].
  rewrite Z2Nat.id in Hon2 by lia.
  destruct (SerUtils.readFrameDate movie1 b) as [last_frame_date movie2].
  cbn [snd] in Hon2.
  destruct (Z.eqb_spec first 0) as [H0 | _].
  { now apply (Hdates a) in H0; [| lia]. }
  change (if (0 <? int64 (u64 (ulDateTime_UTC h - ulDateTime h)))
             && (u64 (int64 (u64 (ulDateTime_UTC h - ulDateTime h))) <? first)
          then u64 (first
                    - u64 (int64 (u64 (ulDateTime_UTC h - ulDateTime h))))
          else first)
    with (new_utc_date h first).
  set (new_header :=
         SerUtils.set_dates
           (SerUtils.set_uiFrameCount (SerUtils.duplicateHeader h)
                                      (Z.of_nat c))
           first (new_utc_date h first)).
  unfold SerUtils.writeHeaderToVideo, fwrite.
  assert (Hnew : length (bytes_of_header new_header) = 178%nat).
  { apply length_bytes_of_header. subst new_header.
    destruct Hwf. destruct h. split; cbn in *; trivial.
    - unfold is_u32. lia.
    - apply trailer_date_range.
    - apply new_utc_date_range, trailer_date_range. }
  rewrite Hnew. change (Z.of_nat 178 =? sizeof_SERHeader) with true.
  cbn [negb app].
  rewrite (int32_small (Z.of_nat a)) by (unfold is_int; lia).
  rewrite getFrameOffset_exact by lia.
  rewrite fseek_ok by nia. cbn [Z.ltb Z.compare].
  rewrite Nat2Z.id.
  match goal with
  | |- context [SerUtils.extract_loop ?n 0 ?from ?m ?o ?d] =>
      destruct (extract_loop_from h frames trailer a n 0 m o d)
        as (movie3 & Hloop & Hon3); trivial
  end.
  { intros j Hj. apply Hdates. lia. }
  { lia. }
  change (Z.of_nat 0) with 0 in Hloop. rewrite Hloop.
  unfold SerUtils.writeTrailerToVideo, fwrite.
  cbn [app]. rewrite Nat.add_0_r.
  rewrite trailer_slice_of_dates by lia.
  rewrite (u64_small (Z.of_nat c * 8)) by (unfold is_u64; lia).
  assert (Hsl : length (slice (8 * a) (8 * c) trailer) = (8 * c)%nat)
    by (rewrite slice_length; lia).
  rewrite take_ge by lia. rewrite Hsl.
  replace (Z.of_nat (8 * c) =? Z.of_nat c * 8) with true
    by (symmetry; apply Z.eqb_eq; lia).
  cbn [negb]. exists movie3. split; [| exact Hon3].
  rewrite <- app_assoc. reflexivity.
Qed.

Lemma whole_movie_extracted
      (h : SERHeader) (frames trailer : list byte) (a c : nat) :
  whole_movie h frames trailer ->
  Z.of_nat (a + c) <= uiFrameCount h ->
  (1 <= c)%nat ->
  let fs := Z.to_nat (SerUtils.getFrameSize h) in
  let first := trailer_date trailer a in
  whole_movie
    (SerUtils.set_dates (SerUtils.set_uiFrameCount h (Z.of_nat c))
                        first (new_utc_date h first))
    (slice (a * fs) (c * fs) frames)
    (slice (8 * a) (8 * c) trailer).
Proof.
  intros Hwhole Hend Hc fs first.
  destruct Hwhole as [Hwf Hcount Hsize Hframes Htrailer Hlength].
  pose proof (SERGetFrameSize_range h) as Hfs. unfold is_u32 in Hfs.
  change (Ser.SERGetFrameSize h) with (SerUtils.getFrameSize h) in Hfs.
  split; rewrite ?getFrameSize_set; rewrite ?slice_length.
  - destruct Hwf. destruct h. split; cbn in *; trivial.
    + unfold is_u32. lia.
    + apply trailer_date_range.
    + apply new_utc_date_range, trailer_date_range.
  - destruct h. cbn in *. lia.
  - exact Hsize.
  - destruct h. cbn in *. subst fs. nia.
  - destruct h. cbn in *. lia.
  - subst fs. nia.
Qed.

(** X10.  Extracting the frames [a .. a + c - 1] of a movie that holds all
    its frames and timestamps, those of the range being nonzero, writes a
    movie of the same kind: the source header with the frame count [c], the
    timestamp of frame [a] as start date and the UTC start date computed
    from it; the [c] frames of the source from frame [a] on; and their [c]
    timestamps.  Frame [k] of the new movie is frame [a + k] of the source,
    with its timestamp.  The source keeps its header and its bytes. *)
Theorem extractFramesFromVideo_range
        (h : SERHeader) (frames trailer : list byte)
        (movie : SerUtils.SERMovie) (a c : nat) :
  whole_movie h frames trailer ->
  Z.of_nat (a + c) <= uiFrameCount h ->
  (1 <= c)%nat ->
  (forall k, (a <= k < a + c)%nat -> trailer_date trailer k <> 0) ->
  movie_on h (bytes_of_header h ++ frames ++ trailer) movie ->
  let fs := Z.to_nat (SerUtils.getFrameSize h) in
  let first := trailer_date trailer a in
  let h' :=
    SerUtils.set_dates (SerUtils.set_uiFrameCount h (Z.of_nat c))
                       first (new_utc_date h first) in
  let frames' := slice (a * fs) (c * fs) frames in
  let trailer' := slice (8 * a) (8 * c) trailer in
  let res :=
    SerUtils.extractFramesFromVideo
      movie
      (SerUtils.mkRange (Z.of_nat a) (Z.of_nat (a + c - 1)) (Z.of_nat c)) in
  fst res = inr (bytes_of_header h' ++ frames' ++ trailer')
  /\ movie_on h (bytes_of_header h ++ frames ++ trailer) (snd res)
  /\ whole_movie h' frames' trailer'
  /\ (forall k, (k < c)%nat ->
        slice (k * fs) fs frames' = slice ((a + k) * fs) fs frames
        /\ trailer_date trailer' k = trailer_date trailer (a + k)).
Proof.
  intros Hwhole Hend Hc Hdates Hon fs first h' frames' trailer' res.
  pose proof (whole_count _ _ _ Hwhole) as Hcount.
  destruct (extractFramesFromVideo_range_closed
              h frames trailer movie a c (Z.of_nat (a + c - 1)))
    as (movie' & Hres & Hon'); trivial; [lia |].
  subst res. rewrite Hres. cbn [fst snd].
  split; [reflexivity |]. split; [exact Hon' |].
  split; [now apply whole_movie_extracted |].
  intros k Hk. split; [| now apply trailer_date_slice].
  subst frames'. unfold slice.
  replace (c * fs)%nat with (k * fs + (c * fs - k * fs))%nat by nia.
  rewrite <- take_drop_commute, take_take, drop_drop.
  replace (fs `min` (c * fs - k * fs))%nat with fs by nia.
  do 2 f_equal. lia.
Qed.

Lemma clip_whole (date utc : Z) :
  is_u64 date -> is_u64 utc ->
  whole_movie (clip_header date utc) clip_frames clip_trailer.
Proof.
  intros Hd Hu.
  split; [| vm_compute; split; [discriminate | reflexivity]
          | reflexivity | reflexivity | reflexivity | reflexivity].
  unfold is_u64 in *. solve_header_wf.
Qed.

Lemma clip_dates (k : nat) :
  (k < 2)%nat -> trailer_date clip_trailer k <> 0.
Proof.
  destruct k as [| [| k]]; intros Hk; [vm_compute; discriminate ..| lia].
Qed.

Lemma extractFramesFromVideo_range_witness :
  let fs := Z.to_nat (SerUtils.getFrameSize (clip_header 0 0)) in
  let first := trailer_date clip_trailer 1 in
  let h' :=
    SerUtils.set_dates (SerUtils.set_uiFrameCount (clip_header 0 0) 1)
                       first (new_utc_date (clip_header 0 0) first) in
  let frames' := slice (1 * fs) (1 * fs) clip_frames in
  let trailer' := slice (8 * 1) (8 * 1) clip_trailer in
  let res :=
    SerUtils.extractFramesFromVideo (clip_movie 0 0)
                                    (SerUtils.mkRange 1 1 1) in
  fst res = inr (bytes_of_header h' ++ frames' ++ trailer')
  /\ movie_on (clip_header 0 0) (clip_file 0 0) (snd res)
  /\ whole_movie h' frames' trailer'
  /\ (forall k, (k < 1)%nat ->
        slice (k * fs) fs frames' = slice ((1 + k) * fs) fs clip_frames
        /\ trailer_date trailer' k = trailer_date clip_trailer (1 + k)).
Proof.
  apply (extractFramesFromVideo_range (clip_header 0 0) clip_frames
                                      clip_trailer (clip_movie 0 0) 1 1).
  - apply clip_whole; unfold is_u64; lia.
  - simpl. lia.
  - lia.
  - intros k Hk. apply clip_dates. lia.
  - split; reflexivity.
Defined.

(** ** Executing a split *)

Lemma extracted_movie_written
      (h : SERHeader) (frames trailer : list byte)
      (movie : SerUtils.SERMovie) (r : SerUtils.SERFrameRange) :
  whole_movie h frames trailer ->
  0 <= SerUtils.from r -> SerUtils.from r <= SerUtils.to r ->
  SerUtils.to r < uiFrameCount h ->
  SerUtils.count r = SerUtils.to r - SerUtils.from r + 1 ->
  (forall k, Z.of_nat k < uiFrameCount h -> trailer_date trailer k <> 0) ->
  movie_on h (bytes_of_header h ++ frames ++ trailer) movie ->
  exists movie',
    SerUtils.extractFramesFromVideo movie r
    = (inr (extracted_movie h frames trailer r), movie')
    /\ movie_on h (bytes_of_header h ++ frames ++ trailer) movie'.
Proof.
  intros Hwhole H0 Hle Hto Hcount Hdates Hon.
  destruct r as [a b c]. cbn [SerUtils.from SerUtils.to SerUtils.count] in *.
  destruct (extractFramesFromVideo_range_closed
              h frames trailer movie (Z.to_nat a) (Z.to_nat c) b)
    as (movie' & Hres & Hon'); trivial; try lia.
  { intros k Hk. apply Hdates. lia. }
  rewrite !Z2Nat.id in Hres by lia.
  exists movie'. split; [exact Hres | exact Hon'].
Qed.

Lemma split_loop_closed
      (h : SERHeader) (frames trailer : list byte)
      (arr : list SerUtils.SERFrameRange) :
  whole_movie h frames trailer ->
  (forall k, Z.of_nat k < uiFrameCount h -> trailer_date trailer k <> 0) ->
  forall (rs : list SerUtils.SERFrameRange) (i : nat) (a : Z)
         (movie : SerUtils.SERMovie) (files : list (list byte)),
    (i + length rs <= 50)%nat ->
    (forall j r, rs !! j = Some r -> arr !! (i + j)%nat = Some r) ->
    0 <= a ->
    Spec.chain a rs (uiFrameCount h) ->
    Forall (fun r => SerUtils.from r < SerUtils.to r) rs ->
    movie_on h (bytes_of_header h ++ frames ++ trailer) movie ->
    SerUtils.split_loop (length rs) (Z.of_nat i) arr movie files
    = (SerUtils.Returns (files ++ map (extracted_movie h frames trailer) rs),
       files ++ map (extracted_movie h frames trailer) rs).
Proof.
  intros Hwhole Hdates.
  induction rs as [| r rs IH]; intros i a movie files Hi Harr Ha Hchain Hlt Hon.
  - cbn. now rewrite app_nil_r.
  - cbn [length SerUtils.split_loop].
    pose proof (Harr 0%nat r eq_refl) as Hr. rewrite Nat.add_0_r in Hr.
    assert (Hget : SerUtils.arr_get arr (Z.of_nat i) = Some r).
    { unfold SerUtils.arr_get. apply lookup_lt_Some in Hr as Hlen.
      destruct (Z.leb_spec 0 (Z.of_nat i)); [| lia].
      destruct (Z.ltb_spec (Z.of_nat i) (Z.of_nat (length arr))); [| lia].
      cbn [andb]. now rewrite Nat2Z.id. }
    rewrite Hget.
    cbn [Spec.chain] in Hchain. destruct Hchain as (H1 & H2 & H3 & H4).
    pose proof (chain_le _ _ _ H4) as Hle.
    inversion Hlt as [| ? ? Hr1 Hrs]; subst.
    destruct (Z.ltb_spec (SerUtils.from r) (SerUtils.to r)) as [_ | ?];
      [| lia].
    destruct (Z.ltb_spec 0 (SerUtils.count r)) as [_ | ?]; [| lia].
    cbn [negb orb].
    destruct (extracted_movie_written h frames trailer movie r)
      as (movie' & Hres & Hon'); trivial; try lia.
    rewrite Hres.
    rewrite (int32_small (Z.of_nat i + 1)) by (unfold is_int; cbn [length] in Hi; lia).
    replace (Z.of_nat i + 1) with (Z.of_nat (S i)) by lia.
    rewrite (IH (S i) (SerUtils.to r + 1) movie'); trivial.
    + cbn [map]. now rewrite <- !app_assoc.
    + cbn [length] in Hi. lia.
    + intros j r' Hj. replace (S i + j)%nat with (i + S j)%nat by lia.
      now apply Harr.
    + lia.
Qed.

Lemma chain_frames (frames : list byte) (fs : nat) :
  forall (rs : list SerUtils.SERFrameRange) (a b : Z),
    0 <= a ->
    Spec.chain a rs b ->
    concat (map (fun r =>
                   slice (Z.to_nat (SerUtils.from r) * fs)
                         (Z.to_nat (SerUtils.count r) * fs) frames) rs)
    = slice (Z.to_nat a * fs) (Z.to_nat (b - a) * fs) frames.
Proof.
  induction rs as [| r rs IH]; intros a b Ha Hchain.
  - cbn in *. subst b. rewrite Z.sub_diag. unfold slice. now rewrite take_0.
  - cbn [Spec.chain] in Hchain. destruct Hchain as (H1 & H2 & H3 & H4).
    pose proof (chain_le _ _ _ H4) as Hle.
    cbn [map concat]. rewrite (IH (SerUtils.to r + 1) b) by (trivial; lia).
    rewrite H1.
    replace (Z.to_nat (SerUtils.to r + 1) * fs)%nat
      with (Z.to_nat a * fs + Z.to_nat (SerUtils.count r) * fs)%nat by nia.
    rewrite slice_slice_app. f_equal. nia.
Qed.

(** X11.  [splitMovie] on a plan whose ranges are contiguous from frame 0 to
    the last frame and hold more than one frame each, for a movie that
    holds all its frames and nonzero timestamps: every range is extracted,
    in order, to a container of its own, and the call succeeds.  The frames
    of the containers, put one after the other, are the frames of the
    source, and so are the timestamps. *)
Theorem splitMovie_writes_every_range
        (h : SERHeader) (frames trailer : list byte)
        (movie : SerUtils.SERMovie) (plan : SerUtils.SplitPlan) :
  whole_movie h frames trailer ->
  (forall k, Z.of_nat k < uiFrameCount h -> trailer_date trailer k <> 0) ->
  movie_on h (bytes_of_header h ++ frames ++ trailer) movie ->
  1 <= SerUtils.split_count plan <= 50 ->
  let ranges := take (Z.to_nat (SerUtils.split_count plan))
                     (SerUtils.splitRanges plan) in
  length ranges = Z.to_nat (SerUtils.split_count plan) ->
  Spec.chain 0 ranges (uiFrameCount h) ->
  Forall (fun r => SerUtils.from r < SerUtils.to r) ranges ->
  let fs := Z.to_nat (SerUtils.getFrameSize h) in
  let files := map (extracted_movie h frames trailer) ranges in
  SerUtils.splitMovie movie plan = (SerUtils.Returns files, files)
  /\ concat (map (fun r =>
                    slice (Z.to_nat (SerUtils.from r) * fs)
                          (Z.to_nat (SerUtils.count r) * fs) frames) ranges)
     = frames
  /\ concat (map (fun r =>
                    slice (8 * Z.to_nat (SerUtils.from r))
                          (8 * Z.to_nat (SerUtils.count r)) trailer) ranges)
     = trailer.
Proof.
  intros Hwhole Hdates Hon Hcount ranges Hlen Hchain Hlt fs files.
  pose proof (whole_count _ _ _ Hwhole) as HN.
  pose proof (whole_frames _ _ _ Hwhole) as Hframes.
  pose proof (whole_trailer _ _ _ Hwhole) as Htrailer.
  split; [| split].
  - unfold SerUtils.splitMovie.
    destruct (Z.eqb_spec (SerUtils.split_count plan) 0); [lia |].
    destruct (Z.ltb_spec SerUtils.MAX_SPLIT_COUNT (SerUtils.split_count plan))
      as [Hmax | _]; [unfold SerUtils.MAX_SPLIT_COUNT in Hmax; lia |].
    pose proof (split_loop_closed h frames trailer (SerUtils.splitRanges plan)
                  Hwhole Hdates ranges 0 0 movie []) as Hloop.
    rewrite Hlen in Hloop. change (Z.of_nat 0) with 0 in Hloop.
    apply Hloop; trivial; try lia.
    intros j r Hj. subst ranges. cbn [Nat.add].
    apply lookup_take_Some in Hj. tauto.
  - rewrite (chain_frames frames fs ranges 0 (uiFrameCount h)) by (trivial; lia).
    unfold slice. rewrite Nat.mul_0_l, drop_0. apply take_ge. subst fs. nia.
  - rewrite (map_ext _ (fun r =>
                          slice (Z.to_nat (SerUtils.from r) * 8)
                                (Z.to_nat (SerUtils.count r) * 8) trailer))
      by (intros r; f_equal; lia).
    rewrite (chain_frames trailer 8 ranges 0 (uiFrameCount h))
      by (trivial; lia).
    unfold slice. rewrite Nat.mul_0_l, drop_0. apply take_ge. lia.
Qed.

Lemma four_frames_whole : whole_movie (split_header 4) four_frames four_dates.
Proof.
  split; [solve_header_wf | vm_compute; split; [discriminate | reflexivity]
          | reflexivity | reflexivity | reflexivity | reflexivity].
Qed.

Lemma four_dates_nonzero (k : nat) :
  Z.of_nat k < 4 -> trailer_date four_dates k <> 0.
Proof.
  destruct k as [| [| [| [| k]]]]; intros Hk;
    [vm_compute; discriminate ..| lia].
Qed.

Lemma splitMovie_writes_every_range_witness :
  let ranges := take (Z.to_nat (SerUtils.split_count two_halves))
                     (SerUtils.splitRanges two_halves) in
  let fs := Z.to_nat (SerUtils.getFrameSize (split_header 4)) in
  let files := map (extracted_movie (split_header 4) four_frames four_dates)
                   ranges in
  SerUtils.splitMovie (split_movie 4) two_halves
  = (SerUtils.Returns files, files)
  /\ concat (map (fun r =>
                    slice (Z.to_nat (SerUtils.from r) * fs)
                          (Z.to_nat (SerUtils.count r) * fs) four_frames)
                 ranges)
     = four_frames
  /\ concat (map (fun r =>
                    slice (8 * Z.to_nat (SerUtils.from r))
                          (8 * Z.to_nat (SerUtils.count r)) four_dates)
                 ranges)
     = four_dates.
Proof.
  apply (splitMovie_writes_every_range (split_header 4) four_frames four_dates
                                       (split_movie 4) two_halves).
  - exact four_frames_whole.
  - exact four_dates_nonzero.
  - split; reflexivity.
  - simpl. lia.
  - reflexivity.
  - simpl. repeat split; lia.
  - repeat constructor.
Defined.

(** ** The split plan by count, in closed form *)

Lemma bind_ret {E A B : Type} (a : A) (k : A -> SerUtils.outcome E B) :
  (SerUtils.Returns a ≫= k) = k a.
Proof. reflexivity. Qed.

Lemma store_ok {E A : Type} (arr : list A) (i : nat) (x : A) :
  (i < length arr)%nat ->
  SerUtils.store (E := E) arr (Z.of_nat i) x
  = SerUtils.Returns (<[i := x]> arr).
Proof.
  intros Hi. unfold SerUtils.store, SerUtils.arr_set.
  destruct (Z.leb_spec 0 (Z.of_nat i)); [| lia].
  destruct (Z.ltb_spec (Z.of_nat i) (Z.of_nat (length arr))); [| lia].
  cbn [andb]. now rewrite Nat2Z.id.
Qed.

Lemma load_ok {E A : Type} (arr : list A) (i : nat) (x : A) :
  arr !! i = Some x ->
  SerUtils.load (E := E) arr (Z.of_nat i) = SerUtils.Returns x.
Proof.
  intros Hi. unfold SerUtils.load, SerUtils.arr_get.
  apply lookup_lt_Some in Hi as Hlen.
  destruct (Z.leb_spec 0 (Z.of_nat i)); [| lia].
  destruct (Z.ltb_spec (Z.of_nat i) (Z.of_nat (length arr))); [| lia].
  cbn [andb]. now rewrite Nat2Z.id, Hi.
Qed.

Lemma load_beyond {E A : Type} (arr : list A) (i : Z) :
  Z.of_nat (length arr) <= i ->
  SerUtils.load (E := E) arr i = SerUtils.OutOfBounds.
Proof.
  intros Hi. unfold SerUtils.load, SerUtils.arr_get.
  destruct (Z.ltb_spec i (Z.of_nat (length arr))); [lia |].
  now rewrite andb_false_r.
Qed.

Lemma count_mode_loop_closed (N q : Z) (todo : nat) :
  forall (i : nat) (arr : list SerUtils.SERFrameRange),
    length arr = 50%nat ->
    (i + todo <= 50)%nat ->
    1 <= q ->
    Z.of_nat (i + todo) * q <= N < 2 ^ 31 ->
    exists arr',
      SerUtils.count_mode_loop todo (Z.of_nat i) N q arr
                               (Z.of_nat i * q) (Z.of_nat i)
      = SerUtils.Returns (arr', Z.of_nat (i + todo) * q, Z.of_nat (i + todo))
      /\ length arr' = 50%nat
      /\ take (i + todo) arr' = take i arr ++ map (even_chunk q) (seq i todo).
Proof.
  induction todo as [| todo IH]; intros i arr Hlen Hi Hq HN.
  - exists arr. cbn [SerUtils.count_mode_loop seq map].
    rewrite Nat.add_0_r, app_nil_r. repeat split; trivial.
  - cbn [SerUtils.count_mode_loop].
    assert (Hiq : 0 <= Z.of_nat i * q /\ Z.of_nat i * q + q <= N) by nia.
    rewrite (u32_small q) by (unfold is_u32; lia).
    rewrite (u32_small (Z.of_nat i * q)) by (unfold is_u32; lia).
    rewrite (u32_small (Z.of_nat i * q + q - 1)) by (unfold is_u32; lia).
    destruct (Z.leb_spec N (Z.of_nat i * q + q - 1)) as [Hge | _]; [lia |].
    replace (Z.of_nat i * q + q - 1 - Z.of_nat i * q) with (q - 1) by lia.
    rewrite (u32_small (q - 1)) by (unfold is_u32; lia).
    replace (1 + (q - 1)) with q by lia.
    rewrite (u32_small q) by (unfold is_u32; lia).
    rewrite store_ok by lia. rewrite bind_ret.
    rewrite (u32_small (Z.of_nat i + 1)) by (unfold is_u32; lia).
    rewrite (int32_small (Z.of_nat i * q + q)) by (unfold is_int; lia).
    rewrite (int32_small (Z.of_nat i + 1)) by (unfold is_int; lia).
    destruct (IH (S i) (<[i := SerUtils.mkRange (Z.of_nat i * q)
                                 (Z.of_nat i * q + q - 1) q]> arr))
      as (arr' & Hrun & Hlen' & Htake).
    { now rewrite length_insert. }
    { lia. }
    { exact Hq. }
    { replace (S i + todo)%nat with (i + S todo)%nat by lia. exact HN. }
    exists arr'.
    replace (i + S todo)%nat with (S i + todo)%nat by lia.
    replace (Z.of_nat (S i) * q) with (Z.of_nat i * q + q) in Hrun by lia.
    replace (Z.of_nat (S i)) with (Z.of_nat i + 1) in Hrun by lia.
    split; [exact Hrun |]. split; [exact Hlen' |].
    rewrite Htake, take_S_insert by lia.
    cbn [seq map]. now rewrite <- app_assoc.
Qed.

(** X12.  The plan of [SPLIT_MODE_COUNT] for [k] chunks of a movie of [N]
    frames, with [q = N / k].  More than 50 chunks are refused, and so are
    chunks of fewer than 100 frames.  Otherwise the plan holds exactly [k]
    ranges: the first [k - 1] hold [q] frames each, and the last one holds
    the frames that are left, [q] and the remainder of the division.  For
    [k = 50] and a division with a remainder, the remainder is first written
    to element 50 of the array of 50 ranges. *)
Theorem count_mode_plan (N k : Z) (arr : list SerUtils.SERFrameRange) :
  length arr = 50%nat ->
  1 <= k -> 0 <= N < 2 ^ 31 ->
  let q := N / k in
  (50 < k -> SerUtils.count_mode N k arr
             = SerUtils.Fails SerUtils.MaxSplitCountExceeded)
  /\ (k <= 50 -> q < 100 ->
      SerUtils.count_mode N k arr = SerUtils.Fails SerUtils.TooMuchSplits)
  /\ (k <= 50 -> 100 <= q -> k < 50 \/ N mod k = 0 ->
      exists plan,
        SerUtils.count_mode N k arr = SerUtils.Returns plan
        /\ SerUtils.split_count plan = k
        /\ take (Z.to_nat k) (SerUtils.splitRanges plan)
           = map (even_chunk q) (seq 0 (Z.to_nat k - 1))
             ++ [SerUtils.mkRange ((k - 1) * q) (N - 1) (q + N mod k)])
  /\ (k = 50 -> 100 <= q -> N mod k <> 0 ->
      SerUtils.count_mode N k arr = SerUtils.OutOfBounds).
Proof.
  intros Hlen Hk HN q.
  unfold SerUtils.count_mode, SerUtils.MAX_SPLIT_COUNT,
    SerUtils.MIN_SPLIT_FRAMES_PER_CHUNCK.
  split; [intros H50; destruct (Z.ltb_spec 50 k); [reflexivity | lia] |].
  assert (Hdiv : N = k * q + N mod k) by (apply Z.div_mod; lia).
  assert (Hmod : 0 <= N mod k < k) by (apply Z.mod_pos_bound; lia).
  assert (Hq0 : 0 <= q) by (apply Z.div_pos; lia).
  split; [| split]; intros H50;
    (destruct (Z.ltb_spec 50 k) as [? | _]; [lia |]);
    rewrite (u32_small k) by (unfold is_u32; lia);
    fold q; rewrite (int32_small q) by (unfold is_int; nia).
  - intros Hsmall. destruct (Z.ltb_spec q 100); [reflexivity | lia].
  - intros Hbig Hfit. destruct (Z.ltb_spec q 100) as [? | _]; [lia |].
    destruct (count_mode_loop_closed N q (Z.to_nat k) 0 arr)
      as (arr' & Hrun & Hlen' & Htake); trivial; try lia.
    cbn [Nat.add Z.of_nat Z.mul] in Hrun. rewrite Z2Nat.id in Hrun by lia.
    change (Z.of_nat 0) with 0 in Hrun. change (0 * q) with 0 in Hrun.
    rewrite Hrun, bind_ret.
    cbn [Nat.add] in Htake. rewrite take_0 in Htake. cbn [app] in Htake.
    rewrite (u32_small (k * q)) by (unfold is_u32; nia).
    assert (Hsplit : seq 0 (Z.to_nat k)
                     = seq 0 (Z.to_nat k - 1) ++ [(Z.to_nat k - 1)%nat]).
    { replace (Z.to_nat k) with (Z.to_nat k - 1 + 1)%nat at 1 by lia.
      rewrite seq_app. reflexivity. }
    destruct (Z.ltb_spec (k * q) N) as [Hrem | Hexact].
    + (* a remainder: it is written after the chunks, then merged *)
      assert (Hk50 : k < 50) by lia.
      destruct (lookup_lt_is_Some_2 arr' (Z.to_nat k)) as [old Hold];
        [lia |].
      assert (Hload : SerUtils.load (E := SerUtils.SplitError) arr' k
                      = SerUtils.Returns old).
      { rewrite <- (Z2Nat.id k) at 1 by lia. now apply load_ok. }
      rewrite Hload, bind_ret.
      unfold SerUtils.updated, SerUtils.updateRangeCount.
      cbn [SerUtils.from SerUtils.to SerUtils.count].
      rewrite (u32_small (N - 1)) by (unfold is_u32; lia).
      destruct (Z.ltb_spec (N - 1) (k * q)) as [? | _]; [lia |].
      rewrite bind_ret.
      rewrite (u32_small (N - 1 - k * q)) by (unfold is_u32; lia).
      rewrite (u32_small (1 + (N - 1 - k * q))) by (unfold is_u32; lia).
      set (rest := SerUtils.mkRange (k * q) (N - 1) (1 + (N - 1 - k * q))).
      assert (Hstore : SerUtils.store (E := SerUtils.SplitError) arr' k rest
                       = SerUtils.Returns (<[Z.to_nat k := rest]> arr')).
      { rewrite <- (Z2Nat.id k) at 1 by lia. apply store_ok. lia. }
      rewrite Hstore, bind_ret.
      cbn [rest SerUtils.count SerUtils.to SerUtils.from].
      destruct (Z.ltb_spec (1 + (N - 1 - k * q)) 100) as [_ | ?]; [| lia].
      destruct (Z.eqb_spec k 0) as [? | _]; [lia |].
      assert (Hprev : arr' !! (Z.to_nat k - 1)%nat
                      = Some (even_chunk q (Z.to_nat k - 1))).
      { rewrite <- (lookup_take_lt _ (Z.to_nat k)) by lia.
        rewrite Htake, Hsplit, map_app, lookup_app_r;
          rewrite length_map, length_seq; [| lia].
        now rewrite Nat.sub_diag. }
      assert (Hload' : SerUtils.load (E := SerUtils.SplitError)
                                     (<[Z.to_nat k := rest]> arr') (k - 1)
                       = SerUtils.Returns (even_chunk q (Z.to_nat k - 1))).
      { replace (k - 1) with (Z.of_nat (Z.to_nat k - 1)) by lia.
        apply load_ok. now rewrite list_lookup_insert_ne by lia. }
      rewrite Hload', bind_ret.
      cbn [even_chunk SerUtils.from SerUtils.to SerUtils.count].
      destruct (Z.ltb_spec (N - 1) (Z.of_nat (Z.to_nat k - 1) * q)) as [? | _];
        [nia |].
      rewrite bind_ret.
      set (merged := SerUtils.mkRange _ _ _).
      assert (Hstore' :
                SerUtils.store (E := SerUtils.SplitError)
                               (<[Z.to_nat k := rest]> arr') (k - 1) merged
                = SerUtils.Returns
                    (<[(Z.to_nat k - 1)%nat := merged]>
                       (<[Z.to_nat k := rest]> arr'))).
      { replace (k - 1) with (Z.of_nat (Z.to_nat k - 1)) by lia.
        apply store_ok. rewrite length_insert. lia. }
      rewrite Hstore', bind_ret.
      eexists. split; [reflexivity |].
      cbn [SerUtils.split_count SerUtils.splitRanges].
      split; [reflexivity |].
      replace (Z.to_nat k) with (S (Z.to_nat k - 1)) at 1 by lia.
      rewrite take_S_insert by (rewrite length_insert; lia).
      rewrite take_insert_ge by lia.
      assert (Hfirst : take (Z.to_nat k - 1) arr'
                       = map (even_chunk q) (seq 0 (Z.to_nat k - 1))).
      { replace (Z.to_nat k - 1)%nat
          with ((Z.to_nat k - 1) `min` Z.to_nat k)%nat at 1 by lia.
        rewrite <- take_take, Htake, Hsplit, map_app, take_app_length';
          [reflexivity |].
        now rewrite length_map, length_seq. }
      rewrite Hfirst. do 2 f_equal. subst merged.
      rewrite (u32_small (N - 1 - Z.of_nat (Z.to_nat k - 1) * q))
        by (unfold is_u32; nia).
      rewrite u32_small by (unfold is_u32; nia).
      replace (Z.of_nat (Z.to_nat k - 1)) with (k - 1) by lia.
      f_equal; nia.
    + (* no remainder *)
      eexists. split; [reflexivity |].
      cbn [SerUtils.split_count SerUtils.splitRanges].
      split; [reflexivity |].
      rewrite Htake, Hsplit, map_app. cbn [map].
      do 2 f_equal. unfold even_chunk.
      replace (Z.of_nat (Z.to_nat k - 1)) with (k - 1) by lia.
      f_equal; nia.
  - intros Hbig Hrem. subst k.
    destruct (Z.ltb_spec q 100) as [? | _]; [lia |].
    destruct (count_mode_loop_closed N q 50 0 arr)
      as (arr' & Hrun & Hlen' & Htake); trivial; try lia.
    change (Z.to_nat 50) with 50%nat.
    cbn [Nat.add Z.of_nat Z.mul] in Hrun.
    change (Z.of_nat 0) with 0 in Hrun.
    change (Z.of_nat 50) with 50 in Hrun. change (0 * q) with 0 in Hrun.
    rewrite Hrun, bind_ret.
    rewrite (u32_small (50 * q)) by (unfold is_u32; nia).
    destruct (Z.ltb_spec (50 * q) N) as [_ | ?]; [| lia].
    now rewrite load_beyond by lia.
Qed.

Lemma count_mode_plan_witness :
  let q := 300 / 3 in
  (50 < 3 -> SerUtils.count_mode 300 3 zero_ranges
             = SerUtils.Fails SerUtils.MaxSplitCountExceeded)
  /\ (3 <= 50 -> q < 100 ->
      SerUtils.count_mode 300 3 zero_ranges
      = SerUtils.Fails SerUtils.TooMuchSplits)
  /\ (3 <= 50 -> 100 <= q -> 3 < 50 \/ 300 mod 3 = 0 ->
      exists plan,
        SerUtils.count_mode 300 3 zero_ranges = SerUtils.Returns plan
        /\ SerUtils.split_count plan = 3
        /\ take (Z.to_nat 3) (SerUtils.splitRanges plan)
           = map (even_chunk q) (seq 0 (Z.to_nat 3 - 1))
             ++ [SerUtils.mkRange ((3 - 1) * q) (300 - 1) (q + 300 mod 3)])
  /\ (3 = 50 -> 100 <= q -> 300 mod 3 <> 0 ->
      SerUtils.count_mode 300 3 zero_ranges = SerUtils.OutOfBounds).
Proof.
  apply (count_mode_plan 300 3 zero_ranges); [reflexivity | lia | lia].
Defined.

(** ** The limit of 50 ranges *)

(** X13.  The refusals of a split by count, which [determineSplitRanges]
    makes before it writes any range, in the order of the source: an amount
    that is not positive is an "invalid value"; a movie of at most 150
    frames is too short; more than 50 chunks of a longer movie are "too
    much splits" for the limit of 50; and at most 50 chunks of fewer than
    100 frames each are "too much splits" for the length of a chunk. *)
Theorem split_by_count_refusals
        (conf : SerUtils.MainConfig) (movie : SerUtils.SERMovie)
        (arr : list SerUtils.SERFrameRange) :
  let N := uiFrameCount (SerUtils.header movie) in
  let k := SerUtils.split_amount conf in
  SerUtils.split_mode conf = SerUtils.SPLIT_MODE_COUNT ->
  0 <= N < 2 ^ 31 ->
  (k <= 0 ->
   SerUtils.determineSplitRanges conf movie arr
   = SerUtils.Fails SerUtils.InvalidValue)
  /\ (0 < k -> N <= 150 ->
      SerUtils.determineSplitRanges conf movie arr
      = SerUtils.Fails SerUtils.SourceTooShort)
  /\ (50 < k -> 150 < N ->
      SerUtils.determineSplitRanges conf movie arr
      = SerUtils.Fails SerUtils.MaxSplitCountExceeded)
  /\ (0 < k <= 50 -> 150 < N -> N / k < 100 ->
      SerUtils.determineSplitRanges conf movie arr
      = SerUtils.Fails SerUtils.TooMuchSplits).
Proof.
  intros N k Hmode HN. unfold SerUtils.determineSplitRanges.
  fold N k. rewrite Hmode.
  change ((SerUtils.SPLIT_MODE_COUNT <? SerUtils.SPLIT_MODE_COUNT)
          || (SerUtils.SPLIT_MODE_SECS <? SerUtils.SPLIT_MODE_COUNT))
    with false.
  change (SerUtils.SPLIT_MODE_COUNT =? SerUtils.SPLIT_MODE_COUNT) with true.
  unfold SerUtils.MIN_SPLIT_FRAMES_PER_CHUNCK.
  change (100 + 100 / 2) with 150. cbv iota.
  split; [| split; [| split]].
  - intros Hk. destruct (Z.leb_spec k 0); [reflexivity | lia].
  - intros Hk Hshort. destruct (Z.leb_spec k 0); [lia |].
    destruct (Z.leb_spec N 150); [reflexivity | lia].
  - intros Hk Hlong. destruct (Z.leb_spec k 0); [lia |].
    destruct (Z.leb_spec N 150); [lia |].
    unfold SerUtils.count_mode, SerUtils.MAX_SPLIT_COUNT.
    destruct (Z.ltb_spec 50 k); [reflexivity | lia].
  - intros Hk Hlong Hq. destruct (Z.leb_spec k 0); [lia |].
    destruct (Z.leb_spec N 150); [lia |].
    unfold SerUtils.count_mode, SerUtils.MAX_SPLIT_COUNT,
      SerUtils.MIN_SPLIT_FRAMES_PER_CHUNCK.
    destruct (Z.ltb_spec 50 k); [lia |].
    rewrite (u32_small k) by (unfold is_u32; lia).
    assert (Hq0 : 0 <= N / k) by (apply Z.div_pos; lia).
    assert (HqN : N / k <= N) by (apply Z.div_le_upper_bound; nia).
    rewrite (int32_small (N / k)) by (unfold is_int; lia).
    destruct (Z.ltb_spec (N / k) 100); [reflexivity | lia].
Qed.

Lemma split_by_count_refusals_witness :
  let conf := SerUtils.mkMainConfig 0 0 0 51 1 in
  let movie := split_movie 300 in
  (SerUtils.split_amount conf <= 0 ->
   SerUtils.determineSplitRanges conf movie zero_ranges
   = SerUtils.Fails SerUtils.InvalidValue)
  /\ (0 < SerUtils.split_amount conf ->
      uiFrameCount (SerUtils.header movie) <= 150 ->
      SerUtils.determineSplitRanges conf movie zero_ranges
      = SerUtils.Fails SerUtils.SourceTooShort)
  /\ (50 < SerUtils.split_amount conf ->
      150 < uiFrameCount (SerUtils.header movie) ->
      SerUtils.determineSplitRanges conf movie zero_ranges
      = SerUtils.Fails SerUtils.MaxSplitCountExceeded)
  /\ (0 < SerUtils.split_amount conf <= 50 ->
      150 < uiFrameCount (SerUtils.header movie) ->
      uiFrameCount (SerUtils.header movie) / SerUtils.split_amount conf < 100 ->
      SerUtils.determineSplitRanges conf movie zero_ranges
      = SerUtils.Fails SerUtils.TooMuchSplits).
Proof.
  apply (split_by_count_refusals (SerUtils.mkMainConfig 0 0 0 51 1)
                                 (split_movie 300) zero_ranges).
  - reflexivity.
  - vm_compute. split; [discriminate | reflexivity].
Defined.

Lemma frames_mode_loop_overflow (N amount : Z) (n : nat) :
  forall (j fuel : nat) (arr : list SerUtils.SERFrameRange) (lfa : Z),
    (j + n = 50)%nat ->
    (n < fuel)%nat ->
    length arr = 50%nat ->
    100 <= amount -> 50 * amount < N < 2 ^ 31 ->
    ((0 < j)%nat -> lfa = Z.of_nat j * amount - 1) ->
    SerUtils.frames_mode_loop fuel N amount arr (Z.of_nat j * amount)
                              (Z.of_nat j) lfa
    = SerUtils.OutOfBounds.
Proof.
  induction n as [| n IH]; intros j fuel arr lfa Hj Hfuel Hlen Ha HN Hlfa;
    (destruct fuel as [| fuel]; [lia |]); cbn [SerUtils.frames_mode_loop].
  - assert (j = 50%nat) by lia. subst j.
    destruct (Z.ltb_spec (Z.of_nat 50 * amount) N); [| lia].
    now rewrite load_beyond by lia.
  - destruct (Z.ltb_spec (Z.of_nat j * amount) N); [| nia].
    destruct (lookup_lt_is_Some_2 arr j) as [old Hold]; [lia |].
    rewrite (load_ok _ _ _ Hold), bind_ret.
    assert (Hfrom : (if Z.of_nat j * amount =? 0 then 0 else u32 (lfa + 1))
                    = Z.of_nat j * amount).
    { destruct (Z.eqb_spec (Z.of_nat j * amount) 0) as [H0 | H0];
        [lia |].
      rewrite Hlfa by nia.
      replace (Z.of_nat j * amount - 1 + 1) with (Z.of_nat j * amount) by lia.
      apply u32_small. unfold is_u32. nia. }
    rewrite Hfrom.
    rewrite store_ok by lia. rewrite bind_ret.
    rewrite (u32_small (N - 1)) by (unfold is_u32; lia).
    destruct (Z.ltb_spec (N - 1) (Z.of_nat j * amount)); [nia |].
    rewrite (u32_small (Z.of_nat j * amount + amount - 1))
      by (unfold is_u32; nia).
    destruct (Z.ltb_spec (N - 1) (Z.of_nat j * amount + amount - 1)); [nia |].
    unfold SerUtils.updated, SerUtils.updateRangeCount.
    cbn [SerUtils.from SerUtils.to SerUtils.count].
    destruct (Z.ltb_spec (Z.of_nat j * amount + amount - 1)
                         (Z.of_nat j * amount)); [lia |].
    rewrite bind_ret.
    rewrite store_ok by (rewrite length_insert; lia). rewrite bind_ret.
    cbn [SerUtils.count].
    replace (Z.of_nat j * amount + amount - 1 - Z.of_nat j * amount)
      with (amount - 1) by lia.
    rewrite (u32_small (amount - 1)) by (unfold is_u32; nia).
    replace (1 + (amount - 1)) with amount by lia.
    rewrite (u32_small amount) by (unfold is_u32; nia).
    rewrite (u32_small (Z.of_nat j * amount + amount)) by (unfold is_u32; nia).
    rewrite (u32_small (Z.of_nat j + 1)) by (unfold is_u32; lia).
    unfold SerUtils.MAX_SPLIT_COUNT.
    destruct (Z.ltb_spec 50 (Z.of_nat j + 1)); [lia |].
    replace (Z.of_nat j * amount + amount) with (Z.of_nat (S j) * amount)
      by lia.
    replace (Z.of_nat j + 1) with (Z.of_nat (S j)) by lia.
    apply IH; trivial; try lia.
    now rewrite !length_insert.
Qed.

(** X14.  In [SPLIT_MODE_FRAMES], for chunks of at least 100 frames and a
    movie that needs more than 50 of them, [determineSplitRanges] reaches
    undefined behaviour: after 50 ranges were written, the next pass of the
    loop stores to element 50 of [splitRanges], an array of 50 ranges. *)
Theorem frames_mode_runs_past_the_array
        (movie : SerUtils.SERMovie) (amount : Z)
        (arr : list SerUtils.SERFrameRange) :
  length arr = 50%nat ->
  100 <= amount ->
  50 * amount < uiFrameCount (SerUtils.header movie) < 2 ^ 31 ->
  SerUtils.determineSplitRanges
    (SerUtils.mkMainConfig 0 0 0 amount SerUtils.SPLIT_MODE_FRAMES) movie arr
  = SerUtils.OutOfBounds.
Proof.
  intros Hlen Ha HN. unfold SerUtils.determineSplitRanges.
  cbn [SerUtils.split_amount SerUtils.split_mode].
  destruct (Z.leb_spec amount 0); [lia |].
  change ((SerUtils.SPLIT_MODE_FRAMES <? SerUtils.SPLIT_MODE_COUNT)
          || (SerUtils.SPLIT_MODE_SECS <? SerUtils.SPLIT_MODE_FRAMES))
    with false.
  change (SerUtils.SPLIT_MODE_FRAMES =? SerUtils.SPLIT_MODE_COUNT) with false.
  change (SerUtils.SPLIT_MODE_FRAMES =? SerUtils.SPLIT_MODE_FRAMES) with true.
  unfold SerUtils.MIN_SPLIT_FRAMES_PER_CHUNCK.
  destruct (Z.leb_spec (uiFrameCount (SerUtils.header movie)) (100 + 100 / 2))
    as [Hs | _]; [change (100 + 100 / 2) with 150 in Hs; lia |].
  cbv iota. unfold SerUtils.frames_mode, SerUtils.MIN_SPLIT_FRAMES_PER_CHUNCK.
  destruct (Z.ltb_spec amount 100); [lia |].
  change (Z.to_nat SerUtils.MAX_SPLIT_COUNT) with 50%nat.
  pose proof (frames_mode_loop_overflow
                (uiFrameCount (SerUtils.header movie)) amount 50 0 52 arr 0)
    as Hrun.
  change (Z.of_nat 0 * amount) with 0 in Hrun.
  change (Z.of_nat 0) with 0 in Hrun.
  change (S (S 50)) with 52%nat.
  rewrite Hrun; trivial; lia.
Qed.

Lemma frames_mode_runs_past_the_array_witness :
  SerUtils.determineSplitRanges
    (SerUtils.mkMainConfig 0 0 0 100 SerUtils.SPLIT_MODE_FRAMES)
    (split_movie (Z.to_nat 5001)) zero_ranges
  = SerUtils.OutOfBounds.
Proof.
  apply (frames_mode_runs_past_the_array (split_movie (Z.to_nat 5001)) 100
                                         zero_ranges).
  - reflexivity.
  - lia.
  - simpl. lia.
Defined.

(** ** The duration of a range *)

(** X15.  [getFrameRangeDuration] on a movie that holds all its frames and
    timestamps: -1 for a range whose last frame is before its first one, 0
    for a range of one frame, -1 when one of the two timestamps is 0 or
    the last one is below the first one, and otherwise the difference of
    the two timestamps in whole seconds, each of them rounded down on its
    own.  The result is never below -1. *)
Theorem getFrameRangeDuration_whole_seconds
        (h : SERHeader) (frames trailer : list byte)
        (movie : SerUtils.SERMovie) (a b : nat) (c : Z) :
  whole_movie h frames trailer ->
  movie_on h (bytes_of_header h ++ frames ++ trailer) movie ->
  Z.of_nat a < uiFrameCount h -> Z.of_nat b < uiFrameCount h ->
  let start_date := trailer_date trailer a in
  let end_date := trailer_date trailer b in
  let duration :=
    fst (SerUtils.getFrameRangeDuration
           movie (SerUtils.mkRange (Z.of_nat a) (Z.of_nat b) c)) in
  duration
  = (if (b <? a)%nat then -1
     else if (b =? a)%nat then 0
     else if (start_date =? 0) || (end_date =? 0) then -1
     else if end_date <? start_date then -1
     else end_date / 10000000 - start_date / 10000000)
  /\ -1 <= duration.
Proof.
  intros Hwhole Hon Ha Hb start_date end_date duration.
  assert (Hd : duration
               = (if (b <? a)%nat then -1
                  else if (b =? a)%nat then 0
                  else if (start_date =? 0) || (end_date =? 0) then -1
                  else if end_date <? start_date then -1
                  else end_date / 10000000 - start_date / 10000000)).
  { subst duration. unfold SerUtils.getFrameRangeDuration.
    cbn [SerUtils.from SerUtils.to].
    destruct (Nat.ltb_spec b a) as [Hlt | Hge];
      destruct (Z.ltb_spec (Z.of_nat b) (Z.of_nat a)) as [Hlt' | Hge'];
      try lia; [reflexivity |].
    destruct (Nat.eqb_spec b a) as [He | Hne];
      destruct (Z.eqb_spec (Z.of_nat b) (Z.of_nat a)) as [He' | Hne'];
      try lia; [reflexivity |].
    destruct (readFrameDate_closed h frames trailer movie a Hwhole Hon Ha)
      as (Hs & Hon1).
    destruct (SerUtils.readFrameDate movie (Z.of_nat a)) as [s movie1].
    cbn [fst snd] in Hs, Hon1. subst s.
    destruct (readFrameDate_closed h frames trailer movie1 b Hwhole Hon1 Hb)
      as (He & _).
    destruct (SerUtils.readFrameDate movie1 (Z.of_nat b)) as [e movie2].
    cbn [fst snd] in He. subst e. fold start_date end_date.
    destruct ((start_date =? 0) || (end_date =? 0)); [reflexivity |].
    destruct (Z.ltb_spec end_date start_date) as [Hes | Hse]; [reflexivity |].
    pose proof (trailer_date_range trailer a) as Hsr.
    pose proof (trailer_date_range trailer b) as Her.
    fold start_date in Hsr. fold end_date in Her.
    rewrite !videoTimeToUnixtime_exact by assumption.
    unfold Spec.unixSeconds, is_u64 in *.
    assert (0 <= start_date / 10000000) by (apply Z.div_pos; lia).
    assert (start_date / 10000000 <= end_date / 10000000)
      by (apply Z.div_le_mono; lia).
    assert (end_date / 10000000 < 2 ^ 62)
      by (apply Z.div_lt_upper_bound; lia).
    destruct (Z.eqb_spec start_date end_date) as [Heq | _]; cbn [fst].
    - rewrite Heq. lia.
    - rewrite int64_small by lia. lia. }
  split; [exact Hd |]. rewrite Hd.
  destruct (b <? a)%nat; [lia |]. destruct (b =? a)%nat; [lia |].
  destruct (_ || _); [lia |].
  destruct (Z.ltb_spec end_date start_date); [lia |].
  assert (start_date / 10000000 <= end_date / 10000000)
    by (apply Z.div_le_mono; lia).
  lia.
Qed.

Lemma getFrameRangeDuration_whole_seconds_witness :
  let start_date := trailer_date clip_trailer 0 in
  let end_date := trailer_date clip_trailer 1 in
  let duration :=
    fst (SerUtils.getFrameRangeDuration (clip_movie 0 0)
                                        (SerUtils.mkRange 0 1 2)) in
  duration
  = (if (1 <? 0)%nat then -1
     else if (1 =? 0)%nat then 0
     else if (start_date =? 0) || (end_date =? 0) then -1
     else if end_date <? start_date then -1
     else end_date / 10000000 - start_date / 10000000)
  /\ -1 <= duration.
Proof.
  apply (getFrameRangeDuration_whole_seconds
           (clip_header 0 0) clip_frames clip_trailer (clip_movie 0 0) 0 1 2).
  - apply clip_whole; unfold is_u64; lia.
  - split; reflexivity.
  - simpl. lia.
  - simpl. lia.
Defined.

(** ** Removing frames *)

Lemma arr_set_ok {A : Type} (arr : list A) (i : nat) (x : A) :
  (i < length arr)%nat ->
  SerUtils.arr_set arr (Z.of_nat i) x = Some (<[i := x]> arr).
Proof.
  intros Hi. unfold SerUtils.arr_set.
  destruct (Z.leb_spec 0 (Z.of_nat i)); [| lia].
  destruct (Z.ltb_spec (Z.of_nat i) (Z.of_nat (length arr))); [| lia].
  cbn [andb]. now rewrite Nat2Z.id.
Qed.

Lemma assigned_Some (ds : list Z) : SerUtils.assigned (map Some ds) = Some ds.
Proof.
  induction ds as [| d ds IH]; [reflexivity |].
  cbn [map SerUtils.assigned]. now rewrite IH.
Qed.

Lemma cut_head_loop_closed (h : SERHeader) (frames trailer : list byte)
      (a : nat) (n : nat) :
  forall (k fuel : nat) (movie : SerUtils.SERMovie) (out : list byte)
         (buf : list (option Z)) (fi : option Z),
    whole_movie h frames trailer ->
    (forall j, (j < a)%nat -> trailer_date trailer j <> 0) ->
    movie_on h (bytes_of_header h ++ frames ++ trailer) movie ->
    (k + n = a)%nat -> (n < fuel)%nat ->
    Z.of_nat a <= uiFrameCount h ->
    (a <= length buf)%nat ->
    let fs := Z.to_nat (SerUtils.getFrameSize h) in
    exists movie',
      SerUtils.cut_head_loop fuel (Z.of_nat k) (Z.of_nat a) movie out buf fi
      = (inr (out ++ slice (k * fs) (n * fs) frames,
              take k buf ++ map (fun j => Some (trailer_date trailer j))
                                (seq k n)
              ++ drop a buf,
              match n with
              | O => fi
              | S _ => Some (Z.of_nat a - 1)
              end),
         movie')
      /\ movie_on h (bytes_of_header h ++ frames ++ trailer) movie'.
Proof.
  induction n as [| n IH];
    intros k fuel movie out buf fi Hwhole Hdates Hon Hk Hfuel Ha Hbuf fs;
    (destruct fuel as [| fuel]; [lia |]);
    pose proof (whole_count _ _ _ Hwhole) as Hcount;
    cbn [SerUtils.cut_head_loop];
    rewrite (u32_small (Z.of_nat k)) by (unfold is_u32; lia).
  - destruct (Z.ltb_spec (Z.of_nat k) (Z.of_nat a)); [lia |].
    exists movie. split; [| exact Hon].
    assert (k = a) by lia. subst k.
    cbn [seq map app]. rewrite take_drop.
    rewrite Nat.mul_0_l. unfold slice. now rewrite take_0, app_nil_r.
  - destruct (Z.ltb_spec (Z.of_nat k) (Z.of_nat a)); [| lia].
    destruct (appendFrameToVideo_closed h frames trailer movie out k)
      as (movie1 & Happend & Hon1); trivial; [lia |].
    rewrite Happend.
    destruct (readFrameDate_closed h frames trailer movie1 k)
      as (Hdate & Hon2); trivial; [lia |].
    destruct (SerUtils.readFrameDate movie1 (Z.of_nat k))
      as [datetime movie2].
    cbn [fst snd] in Hdate, Hon2. subst datetime.
    destruct (Z.eqb_spec (trailer_date trailer k) 0) as [H0 | _].
    { now apply Hdates in H0; [| lia]. }
    rewrite arr_set_ok by lia.
    rewrite (int32_small (Z.of_nat k + 1)) by (unfold is_int; lia).
    replace (Z.of_nat k + 1) with (Z.of_nat (S k)) by lia.
    destruct (IH (S k) fuel movie2
                 (out ++ slice (k * Z.to_nat (SerUtils.getFrameSize h))
                               (Z.to_nat (SerUtils.getFrameSize h)) frames)
                 (<[k := Some (trailer_date trailer k)]> buf)
                 (Some (Z.of_nat k)))
      as (movie3 & Hloop & Hon3); trivial; try lia.
    { rewrite length_insert. lia. }
    exists movie3. split; [| exact Hon3].
    rewrite Hloop. fold fs. f_equal. f_equal. f_equal; [f_equal |].
    + rewrite <- app_assoc. f_equal. unfold slice.
      replace (S k * fs)%nat with (k * fs + fs)%nat by lia.
      rewrite <- drop_drop, take_take_drop. f_equal; lia.
    + rewrite take_S_insert by lia. rewrite drop_insert_lt by lia.
      cbn [seq map]. now rewrite <- app_assoc.
    + destruct n; [f_equal; lia | reflexivity].
Qed.

Lemma cut_tail_loop_closed (h : SERHeader) (frames trailer : list byte)
      (n : nat) :
  forall (i p fuel : nat) (movie : SerUtils.SERMovie) (out : list byte)
         (buf : list (option Z)),
    whole_movie h frames trailer ->
    (forall j, (i <= j < i + n)%nat -> trailer_date trailer j <> 0) ->
    movie_on h (bytes_of_header h ++ frames ++ trailer) movie ->
    Z.of_nat (i + n) = uiFrameCount h -> (n < fuel)%nat ->
    (p + n <= length buf)%nat -> (p <= i)%nat ->
    let fs := Z.to_nat (SerUtils.getFrameSize h) in
    exists movie',
      SerUtils.cut_tail_loop fuel (Z.of_nat i) (uiFrameCount h - 1) movie
                              out buf (Some (Z.of_nat p - 1))
      = (inr (out ++ slice (i * fs) (n * fs) frames,
              take p buf ++ map (fun j => Some (trailer_date trailer j))
                                (seq i n)
              ++ drop (p + n) buf),
         movie')
      /\ movie_on h (bytes_of_header h ++ frames ++ trailer) movie'.
Proof.
  induction n as [| n IH];
    intros i p fuel movie out buf Hwhole Hdates Hon Hi Hfuel Hbuf Hpi fs;
    (destruct fuel as [| fuel]; [lia |]);
    pose proof (whole_count _ _ _ Hwhole) as Hcount;
    cbn [SerUtils.cut_tail_loop];
    rewrite (u32_small (Z.of_nat i)) by (unfold is_u32; lia).
  - destruct (Z.leb_spec (Z.of_nat i) (uiFrameCount h - 1)); [lia |].
    exists movie. split; [| exact Hon].
    cbn [seq map app]. rewrite Nat.add_0_r, take_drop.
    rewrite Nat.mul_0_l. unfold slice. now rewrite take_0, app_nil_r.
  - destruct (Z.leb_spec (Z.of_nat i) (uiFrameCount h - 1)); [| lia].
    replace (Z.of_nat p - 1 + 1) with (Z.of_nat p) by lia.
    assert (Hp : Z.of_nat p < 2 ^ 31) by lia.
    destruct (appendFrameToVideo_closed h frames trailer movie out i)
      as (movie1 & Happend & Hon1); trivial; [lia |].
    rewrite Happend.
    destruct (readFrameDate_closed h frames trailer movie1 i)
      as (Hdate & Hon2); trivial; [lia |].
    destruct (SerUtils.readFrameDate movie1 (Z.of_nat i))
      as [datetime movie2].
    cbn [fst snd] in Hdate, Hon2. subst datetime.
    destruct (Z.eqb_spec (trailer_date trailer i) 0) as [H0 | _].
    { now apply Hdates in H0; [| lia]. }
    rewrite (int32_small (Z.of_nat p)) by (unfold is_int; lia).
    rewrite arr_set_ok by lia.
    rewrite (int32_small (Z.of_nat i + 1)) by (unfold is_int; lia).
    replace (Z.of_nat i + 1) with (Z.of_nat (S i)) by lia.
    destruct (IH (S i) (S p) fuel movie2
                 (out ++ slice (i * Z.to_nat (SerUtils.getFrameSize h))
                               (Z.to_nat (SerUtils.getFrameSize h)) frames)
                 (<[p := Some (trailer_date trailer i)]> buf))
      as (movie3 & Hloop & Hon3); trivial; try lia.
    { intros j Hj. apply Hdates. lia. }
    { rewrite length_insert. lia. }
    exists movie3. split; [| exact Hon3].
    replace (Z.of_nat (S p) - 1) with (Z.of_nat p) in Hloop by lia.
    rewrite Hloop. fold fs. f_equal. f_equal. f_equal.
    + rewrite <- app_assoc. f_equal. unfold slice.
      replace (S i * fs)%nat with (i * fs + fs)%nat by lia.
      rewrite <- drop_drop, take_take_drop. f_equal; lia.
    + rewrite take_S_insert by lia. rewrite drop_insert_lt by lia.
      cbn [seq map]. rewrite <- app_assoc.
      replace (S p + n)%nat with (p + S n)%nat by lia. reflexivity.
Qed.

Lemma cutFramesFromVideo_prologue
      (h : SERHeader) (frames trailer : list byte)
      (movie : SerUtils.SERMovie) (a b c f : nat) :
  whole_movie h frames trailer ->
  Z.of_nat a < uiFrameCount h -> Z.of_nat b < uiFrameCount h ->
  Z.of_nat c < uiFrameCount h ->
  f = (if Z.of_nat a =? 0 then b else O) ->
  trailer_date trailer f <> 0 ->
  movie_on h (bytes_of_header h ++ frames ++ trailer) movie ->
  let first := trailer_date trailer f in
  let tot := uiFrameCount h - Z.of_nat c in
  let h' :=
    SerUtils.set_dates (SerUtils.set_uiFrameCount h tot)
                       first (new_utc_date h first) in
  exists movie',
    movie_on h (bytes_of_header h ++ frames ++ trailer) movie'
    /\ SerUtils.cutFramesFromVideo
         movie (SerUtils.mkRange (Z.of_nat a) (Z.of_nat b) (Z.of_nat c))
       = match SerUtils.cut_head_loop
                 (S a) 0 (Z.of_nat a) movie' (bytes_of_header h')
                 (replicate (Z.to_nat tot) None) None with
         | (inl e, movie) => (inl e, movie)
         | (inr (ofile, datetimes_buffer, frame_idx), movie) =>
             match SerUtils.cut_tail_loop
                     (S (S (Z.to_nat (uiFrameCount h - 1))))
                     (Z.of_nat b + 1) (uiFrameCount h - 1) movie ofile
                     datetimes_buffer frame_idx with
             | (inl e, movie) => (inl e, movie)
             | (inr (ofile, datetimes_buffer), movie) =>
                 match SerUtils.assigned datetimes_buffer with
                 | None => (inl SerUtils.CutIndeterminateDate, movie)
                 | Some datetimes =>
                     let '(ok, ofile) :=
                       SerUtils.writeTrailerToVideo ofile datetimes
                                                    (tot * 8) in
                     if negb ok
                     then (inl (SerUtils.CutError
                                  SerUtils.WriteTrailerFailed), movie)
                     else (inr ofile, movie)
                 end
             end
         end.
Proof.
  intros Hwhole Ha Hb Hc Hf Hdate Hon first tot h'.
  pose proof (whole_count _ _ _ Hwhole) as Hcount.
  pose proof (whole_wf _ _ _ Hwhole) as Hwf.
  pose proof (whole_size _ _ _ Hwhole) as Hsize.
  pose proof (SERGetFrameSize_range h) as Hfs. unfold is_u32 in Hfs.
  change (Ser.SERGetFrameSize h) with (SerUtils.getFrameSize h) in Hfs.
  unfold SerUtils.cutFramesFromVideo.
  cbn [SerUtils.from SerUtils.to SerUtils.count].
  rewrite (proj1 Hon).
  destruct (Z.leb_spec (uiFrameCount h) (Z.of_nat c)); [lia |].
  rewrite (u32_small (uiFrameCount h - Z.of_nat c)) by (unfold is_u32; lia).
  rewrite (u32_small (uiFrameCount h - 1)) by (unfold is_u32; lia).
  fold tot.
  replace (if Z.of_nat a =? 0 then Z.of_nat b else 0) with (Z.of_nat f)
    by (subst f; now destruct (Z.of_nat a =? 0)).
  destruct (readFrameDate_closed h frames trailer movie f Hwhole Hon)
    as (Hfirst & Hon1).
  { subst f. destruct (Z.of_nat a =? 0); lia. }
  destruct (SerUtils.readFrameDate movie (Z.of_nat f))
    as [first_frame_date movie1].
  cbn [fst snd] in Hfirst, Hon1. subst first_frame_date. fold first.
  set (l := if Z.of_nat b =? uiFrameCount h - 1 then Z.of_nat a
            else uiFrameCount h - 1).
  destruct (readFrameDate_closed h frames trailer movie1 (Z.to_nat l)
                                 Hwhole Hon1)
    as (_ & Hon2).
  { subst l. destruct (Z.of_nat b =? uiFrameCount h - 1); lia. }
  rewrite Z2Nat.id in Hon2
    by (subst l; destruct (Z.of_nat b =? uiFrameCount h - 1); lia).
  destruct (SerUtils.readFrameDate movie1 l) as [last_frame_date movie2].
  cbn [snd] in Hon2.
  destruct (Z.eqb_spec first 0) as [H0 | _]; [contradiction |].
  change (if (0 <? int64 (u64 (ulDateTime_UTC h - ulDateTime h)))
             && (u64 (int64 (u64 (ulDateTime_UTC h - ulDateTime h))) <? first)
          then u64 (first
                    - u64 (int64 (u64 (ulDateTime_UTC h - ulDateTime h))))
          else first)
    with (new_utc_date h first).
  change (SerUtils.set_dates
            (SerUtils.set_uiFrameCount (SerUtils.duplicateHeader h) tot)
            first (new_utc_date h first)) with h'.
  unfold SerUtils.writeHeaderToVideo, fwrite.
  assert (Hnew : length (bytes_of_header h') = 178%nat).
  { apply length_bytes_of_header. subst h'.
    destruct Hwf. destruct h. split; cbn in *; trivial.
    - unfold is_u32. lia.
    - apply trailer_date_range.
    - apply new_utc_date_range, trailer_date_range. }
  rewrite Hnew. change (Z.of_nat 178 =? sizeof_SERHeader) with true.
  cbn [negb app].
  rewrite (int32_small (Z.of_nat a)) by (unfold is_int; lia).
  rewrite getFrameOffset_exact by lia.
  rewrite fseek_ok by nia. cbn [Z.ltb Z.compare].
  rewrite Nat2Z.id.
  rewrite (u32_small (Z.of_nat b + 1)) by (unfold is_u32; lia).
  rewrite (int32_small (Z.of_nat b + 1)) by (unfold is_int; lia).
  rewrite (u64_small (tot * 8)) by (unfold is_u64; lia).
  eexists. split; [| reflexivity].
  destruct Hon2 as [Hh Hd]. split; cbn; congruence.
Qed.

Lemma whole_movie_cut
      (h : SERHeader) (frames trailer : list byte) (a b : nat) :
  whole_movie h frames trailer ->
  (1 <= a <= b)%nat -> Z.of_nat b < uiFrameCount h ->
  let fs := Z.to_nat (SerUtils.getFrameSize h) in
  let first := trailer_date trailer 0 in
  whole_movie
    (SerUtils.set_dates
       (SerUtils.set_uiFrameCount
          h (uiFrameCount h - Z.of_nat (b - a + 1)))
       first (new_utc_date h first))
    (take (a * fs) frames ++ drop (S b * fs) frames)
    (take (8 * a) trailer ++ drop (8 * S b) trailer).
Proof.
  intros Hwhole Hab Hb fs first.
  destruct Hwhole as [Hwf Hcount Hsize Hframes Htrailer Hlength].
  pose proof (SERGetFrameSize_range h) as Hfs. unfold is_u32 in Hfs.
  change (Ser.SERGetFrameSize h) with (SerUtils.getFrameSize h) in Hfs.
  assert (Hfr : Z.of_nat (length (take (a * fs) frames
                                  ++ drop (S b * fs) frames))
                = (uiFrameCount h - Z.of_nat (b - a + 1))
                  * SerUtils.getFrameSize h).
  { rewrite length_app, length_take, length_drop. subst fs. nia. }
  assert (Htr : Z.of_nat (length (take (8 * a) trailer
                                  ++ drop (8 * S b) trailer))
                = 8 * (uiFrameCount h - Z.of_nat (b - a + 1))).
  { rewrite length_app, length_take, length_drop. lia. }
  split; rewrite ?getFrameSize_set.
  - destruct Hwf. destruct h. split; cbn in *; trivial.
    + unfold is_u32. lia.
    + apply trailer_date_range.
    + apply new_utc_date_range, trailer_date_range.
  - destruct h. cbn in *. lia.
  - exact Hsize.
  - rewrite Hfr. destruct h. reflexivity.
  - rewrite Htr. destruct h. reflexivity.
  - rewrite Hfr, Htr. nia.
Qed.

Lemma cutFramesFromVideo_closed
      (h : SERHeader) (frames trailer : list byte)
      (movie : SerUtils.SERMovie) (a b : nat) :
  whole_movie h frames trailer ->
  (1 <= a <= b)%nat -> Z.of_nat b < uiFrameCount h ->
  (forall k, Z.of_nat k < uiFrameCount h -> (k < a \/ b < k)%nat ->
             trailer_date trailer k <> 0) ->
  movie_on h (bytes_of_header h ++ frames ++ trailer) movie ->
  let fs := Z.to_nat (SerUtils.getFrameSize h) in
  let first := trailer_date trailer 0 in
  let c := (b - a + 1)%nat in
  let h' :=
    SerUtils.set_dates
      (SerUtils.set_uiFrameCount h (uiFrameCount h - Z.of_nat c))
      first (new_utc_date h first) in
  exists movie',
    SerUtils.cutFramesFromVideo
      movie (SerUtils.mkRange (Z.of_nat a) (Z.of_nat b) (Z.of_nat c))
    = (inr (bytes_of_header h'
            ++ (take (a * fs) frames ++ drop (S b * fs) frames)
            ++ (take (8 * a) trailer ++ drop (8 * S b) trailer)),
       movie')
    /\ movie_on h (bytes_of_header h ++ frames ++ trailer) movie'.
Proof.
  intros Hwhole Hab Hb Hdates Hon fs first c h'.
  pose proof (whole_count _ _ _ Hwhole) as Hcount.
  pose proof (whole_frames _ _ _ Hwhole) as Hframes.
  pose proof (whole_trailer _ _ _ Hwhole) as Htrailer.
  pose proof (whole_size _ _ _ Hwhole) as Hsize.
  destruct (cutFramesFromVideo_prologue
              h frames trailer movie a b c O Hwhole)
    as (movie0 & Hon0 & Hcut); trivial; try lia.
  { destruct (Z.eqb_spec (Z.of_nat a) 0); [lia | reflexivity]. }
  { apply Hdates; lia. }
  rewrite Hcut. clear Hcut. subst h' first.
  set (n := (Z.to_nat (uiFrameCount h) - S b)%nat).
  set (tot := uiFrameCount h - Z.of_nat c).
  assert (Htot : Z.to_nat tot = (a + n)%nat) by lia.
  set (h' := SerUtils.set_dates
               (SerUtils.set_uiFrameCount h tot) (trailer_date trailer 0)
               (new_utc_date h (trailer_date trailer 0))).
  destruct (cut_head_loop_closed
              h frames trailer a a O (S a) movie0 (bytes_of_header h')
              (replicate (Z.to_nat tot) None) None)
    as (movie1 & Hhead & Hon1); trivial; try lia.
  { intros j Hj. apply Hdates; lia. }
  { rewrite length_replicate. lia. }
  change (Z.of_nat 0) with 0 in Hhead. rewrite Hhead. clear Hhead.
  destruct a as [| a']; [lia |].
  set (a := S a') in *.
  rewrite take_0, app_nil_l.
  set (buf1 := map (fun j => Some (trailer_date trailer j)) (seq 0 a)
               ++ drop a (replicate (Z.to_nat tot) None)).
  assert (Hbuf1 : length buf1 = (a + n)%nat).
  { subst buf1.
    rewrite length_app, length_map, length_seq, length_drop,
      length_replicate. lia. }
  replace (Z.of_nat b + 1) with (Z.of_nat (S b)) by lia.
  destruct (cut_tail_loop_closed
              h frames trailer n (S b) a
              (S (S (Z.to_nat (uiFrameCount h - 1)))) movie1
              (bytes_of_header h' ++ slice (0 * fs) (a * fs) frames) buf1)
    as (movie2 & Htail & Hon2); trivial; try lia.
  { intros j Hj. apply Hdates; lia. }
  fold fs. rewrite Htail. clear Htail.
  assert (Hbuf2 : take a buf1
                  ++ map (fun j => Some (trailer_date trailer j))
                         (seq (S b) n)
                  ++ drop (a + n) buf1
                  = map Some (map (trailer_date trailer) (seq 0 a)
                              ++ map (trailer_date trailer) (seq (S b) n))).
  { rewrite (drop_ge buf1) by lia. rewrite app_nil_r.
    subst buf1. rewrite take_app_length'
      by (now rewrite length_map, length_seq).
    now rewrite map_app, !map_map. }
  rewrite Hbuf2, assigned_Some.
  unfold SerUtils.writeTrailerToVideo, fwrite.
  rewrite flat_map_app, !trailer_slice_of_dates by lia.
  set (mem := slice (8 * 0) (8 * a) trailer
              ++ slice (8 * S b) (8 * n) trailer).
  assert (Hmem : length mem = (8 * (a + n))%nat).
  { subst mem. rewrite length_app, !slice_length; lia. }
  rewrite take_ge by lia. rewrite Hmem.
  replace (Z.of_nat (8 * (a + n)) =? tot * 8) with true
    by (symmetry; apply Z.eqb_eq; lia).
  cbn [negb]. exists movie2. split; [| exact Hon2].
  f_equal. f_equal. rewrite <- !app_assoc. f_equal.
  subst mem. unfold slice.
  rewrite !Nat.mul_0_l, Nat.mul_0_r, !drop_0.
  f_equal. f_equal; [| f_equal].
  - apply take_ge. rewrite length_drop. subst fs n. nia.
  - apply take_ge. rewrite length_drop. lia.
Qed.

(** X16.  Removing the frames [a .. b] of a movie that holds all its frames
    and timestamps, with [1 <= a] and nonzero timestamps outside the range,
    writes a movie of the same kind: the source header with the frame count
    lowered by the length of the range, the timestamp of frame 0 as start
    date and the UTC start date computed from it; the frames before [a]
    followed by the frames after [b]; and their timestamps in the same
    order.  The source keeps its header and its bytes. *)
Theorem cutFramesFromVideo_removes_range
        (h : SERHeader) (frames trailer : list byte)
        (movie : SerUtils.SERMovie) (a b : nat) :
  whole_movie h frames trailer ->
  (1 <= a <= b)%nat -> Z.of_nat b < uiFrameCount h ->
  (forall k, Z.of_nat k < uiFrameCount h -> (k < a \/ b < k)%nat ->
             trailer_date trailer k <> 0) ->
  movie_on h (bytes_of_header h ++ frames ++ trailer) movie ->
  let fs := Z.to_nat (SerUtils.getFrameSize h) in
  let first := trailer_date trailer 0 in
  let c := (b - a + 1)%nat in
  let h' :=
    SerUtils.set_dates
      (SerUtils.set_uiFrameCount h (uiFrameCount h - Z.of_nat c))
      first (new_utc_date h first) in
  let frames' := take (a * fs) frames ++ drop (S b * fs) frames in
  let trailer' := take (8 * a) trailer ++ drop (8 * S b) trailer in
  let res :=
    SerUtils.cutFramesFromVideo
      movie (SerUtils.mkRange (Z.of_nat a) (Z.of_nat b) (Z.of_nat c)) in
  fst res = inr (bytes_of_header h' ++ frames' ++ trailer')
  /\ movie_on h (bytes_of_header h ++ frames ++ trailer) (snd res)
  /\ whole_movie h' frames' trailer'.
Proof.
  intros Hwhole Hab Hb Hdates Hon fs first c h' frames' trailer' res.
  destruct (cutFramesFromVideo_closed h frames trailer movie a b)
    as (movie' & Hres & Hon'); trivial.
  subst res c. rewrite Hres. cbn [fst snd].
  split; [reflexivity |]. split; [exact Hon' |].
  now apply whole_movie_cut.
Qed.

Lemma cutFramesFromVideo_removes_range_witness :
  let h' :=
    SerUtils.set_dates
      (SerUtils.set_uiFrameCount (split_header 4) (4 - Z.of_nat (2 - 1 + 1)))
      (trailer_date four_dates 0)
      (new_utc_date (split_header 4) (trailer_date four_dates 0)) in
  let frames' := take 1 four_frames ++ drop 3 four_frames in
  let trailer' := take 8 four_dates ++ drop 24 four_dates in
  let res :=
    SerUtils.cutFramesFromVideo (split_movie 4) (SerUtils.mkRange 1 2 2) in
  fst res = inr (bytes_of_header h' ++ frames' ++ trailer')
  /\ movie_on (split_header 4)
              (bytes_of_header (split_header 4) ++ four_frames ++ four_dates)
              (snd res)
  /\ whole_movie h' frames' trailer'.
Proof.
  apply (cutFramesFromVideo_removes_range
           (split_header 4) four_frames four_dates (split_movie 4) 1 2).
  - exact four_frames_whole.
  - lia.
  - reflexivity.
  - intros k Hk _. now apply four_dates_nonzero.
  - split; reflexivity.
Defined.

(** X17.  [cutFramesFromVideo] on a range that starts at frame 0.  When the
    range is the whole movie the call is refused, because no frame would be
    left.  Otherwise, the timestamp of the last frame of the range being
    nonzero, the call reaches undefined behaviour: the loop over the frames
    after the range increments [frame_idx], which was never assigned
    because the loop over the frames before the range made no pass. *)
Theorem cutFramesFromVideo_from_first_frame
        (h : SERHeader) (frames trailer : list byte)
        (movie : SerUtils.SERMovie) (b : nat) :
  whole_movie h frames trailer ->
  Z.of_nat b < uiFrameCount h ->
  trailer_date trailer b <> 0 ->
  movie_on h (bytes_of_header h ++ frames ++ trailer) movie ->
  fst (SerUtils.cutFramesFromVideo
         movie (SerUtils.mkRange 0 (Z.of_nat b) (Z.of_nat b + 1)))
  = inl (if Z.of_nat b + 1 =? uiFrameCount h
         then SerUtils.CutTooManyFrames
         else SerUtils.CutUninitialized).
Proof.
  intros Hwhole Hb Hdate Hon.
  pose proof (whole_count _ _ _ Hwhole) as Hcount.
  destruct (Z.eqb_spec (Z.of_nat b + 1) (uiFrameCount h)) as [Hall | Hrest].
  - unfold SerUtils.cutFramesFromVideo.
    cbn [SerUtils.from SerUtils.to SerUtils.count].
    rewrite (proj1 Hon).
    destruct (Z.leb_spec (uiFrameCount h) (Z.of_nat b + 1)); [| lia].
    reflexivity.
  - destruct (cutFramesFromVideo_prologue
                h frames trailer movie O b (S b) b Hwhole)
      as (movie0 & Hon0 & Hcut); trivial; try lia.
    change (Z.of_nat 0) with 0 in Hcut.
    replace (Z.of_nat (S b)) with (Z.of_nat b + 1) in Hcut by lia.
    rewrite Hcut. clear Hcut.
    cbn [SerUtils.cut_head_loop]. change (u32 0 <? 0) with false.
    cbn [SerUtils.cut_tail_loop].
    rewrite (u32_small (Z.of_nat b + 1)) by (unfold is_u32; lia).
    destruct (Z.leb_spec (Z.of_nat b + 1) (uiFrameCount h - 1)); [| lia].
    reflexivity.
Qed.

Lemma cutFramesFromVideo_from_first_frame_witness :
  fst (SerUtils.cutFramesFromVideo (split_movie 4) (SerUtils.mkRange 0 1 2))
  = inl SerUtils.CutUninitialized
  /\ fst (SerUtils.cutFramesFromVideo (split_movie 4)
                                       (SerUtils.mkRange 0 3 4))
     = inl SerUtils.CutTooManyFrames.
Proof.
  split.
  - apply (cutFramesFromVideo_from_first_frame
             (split_header 4) four_frames four_dates (split_movie 4) 1).
    + exact four_frames_whole.
    + reflexivity.
    + apply four_dates_nonzero. reflexivity.
    + split; reflexivity.
  - apply (cutFramesFromVideo_from_first_frame
             (split_header 4) four_frames four_dates (split_movie 4) 3).
    + exact four_frames_whole.
    + reflexivity.
    + apply four_dates_nonzero. reflexivity.
    + split; reflexivity.
Defined.

(** ** Opening and checking a movie in the program *)

Lemma openMovie_closed (h : SERHeader) (frames trailer : list byte) :
  whole_movie h frames trailer ->
  take 15 (bytes_of_header h) = SER_FILE_ID ++ [x00] ->
  let bytes := bytes_of_header h ++ frames ++ trailer in
  let first := trailer_date trailer 0 in
  let last := trailer_date trailer (Z.to_nat (uiFrameCount h) - 1) in
  exists f3,
    SerUtils.openMovie (Some bytes)
    = inr (SerUtils.mkSERMovie
             f3 (Z.of_nat (length bytes)) h
             (if first <? last
              then u32 ((last - first) / TIMEUNITS_PER_SEC) else 0)
             first last
             (if first <? last then 0 else SerUtils.WARN_BAD_FRAME_DATES))
    /\ f_data f3 = bytes.
Proof.
  intros Hwhole Hmagic bytes first last.
  pose proof (whole_count _ _ _ Hwhole) as Hcount.
  pose proof (whole_wf _ _ _ Hwhole) as Hwf.
  pose proof (whole_size _ _ _ Hwhole) as Hsize.
  pose proof (whole_frames _ _ _ Hwhole) as Hframes.
  pose proof (whole_trailer _ _ _ Hwhole) as Htrailer.
  pose proof (length_bytes_of_header h Hwf) as Hh.
  assert (Hbytes : Z.of_nat (length bytes)
                   = 178 + uiFrameCount h * SerUtils.getFrameSize h
                     + 8 * uiFrameCount h).
  { subst bytes. rewrite !length_app. lia. }
  assert (Hlen : (178 <= length bytes)%nat) by lia.
  assert (Hhdr : header_of_bytes bytes = h)
    by (now apply header_of_bytes_of_header).
  unfold SerUtils.openMovie, SerUtils.parseHeader.
  rewrite parseHeader_closed by exact Hlen.
  change (f_data (fopen bytes)) with bytes.
  rewrite header_of_bytes_take.
  replace (strcmp (SER_FILE_ID ++ [x00])
                  (bytes_of_header (header_of_bytes bytes))) with 0.
  2: { symmetry. apply strcmp_magic_header; [exact Hlen |].
       subst bytes. now rewrite take_15_header. }
  rewrite Hhdr.
  cbn [Z.eqb negb]. rewrite fseek_ok by lia.
  unfold file_length. cbn [f_data].
  rewrite getTrailerOffset_exact by lia.
  destruct (Z.ltb_spec (Z.of_nat (length bytes))
                       (178 + uiFrameCount h * SerUtils.getFrameSize h));
    [lia |].
  set (movie := SerUtils.mkSERMovie _ _ _ _ _ _ _).
  assert (Hon : movie_on h bytes movie) by (split; reflexivity).
  unfold SerUtils.readFirstFrameDate.
  destruct (readFrameDate_closed h frames trailer movie O Hwhole Hon)
    as (Hfirst & Hon1); [lia |].
  change (Z.of_nat 0) with 0 in Hfirst, Hon1.
  destruct (SerUtils.readFrameDate movie 0) as [first' movie1].
  cbn [fst snd] in Hfirst, Hon1. subst first'. fold first.
  unfold SerUtils.readLastFrameDate. rewrite (proj1 Hon1).
  rewrite (u32_small (uiFrameCount h - 1)) by (unfold is_u32; lia).
  destruct (readFrameDate_closed
              h frames trailer movie1 (Z.to_nat (uiFrameCount h) - 1)
              Hwhole Hon1)
    as (Hlast & Hon2); [lia |].
  replace (Z.of_nat (Z.to_nat (uiFrameCount h) - 1))
    with (uiFrameCount h - 1) in Hlast, Hon2 by lia.
  destruct (SerUtils.readFrameDate movie1 (uiFrameCount h - 1))
    as [last' movie2].
  cbn [fst snd] in Hlast, Hon2. subst last'. fold last.
  exists (SerUtils.file movie2). split; [| exact (proj2 Hon2)].
  pose proof (trailer_date_range trailer 0) as Hf.
  pose proof (trailer_date_range trailer (Z.to_nat (uiFrameCount h) - 1))
    as Hl.
  fold first in Hf. fold last in Hl. unfold is_u64 in Hf, Hl.
  destruct (Z.ltb_spec first last); [| reflexivity].
  rewrite (u64_small (last - first)) by (unfold is_u64; lia).
  reflexivity.
Qed.

Lemma countMovieWarnings_range (w : Z) :
  0 <= SerUtils.countMovieWarnings w <= 4.
Proof.
  unfold SerUtils.countMovieWarnings, sizeof_int.
  change (map Z.of_nat (seq 0 (Z.to_nat 4))) with [0; 1; 2; 3].
  cbn [fold_left].
  destruct (negb (Z.land w (Z.shiftl 1 0) =? 0)),
    (negb (Z.land w (Z.shiftl 1 1) =? 0)),
    (negb (Z.land w (Z.shiftl 1 2) =? 0)),
    (negb (Z.land w (Z.shiftl 1 3) =? 0)); lia.
Qed.

Lemma check_dates_loop_closed (h : SERHeader) (frames trailer : list byte)
      (n : nat) :
  forall (i fuel : nat) (movie : SerUtils.SERMovie) (last : Z),
    whole_movie h frames trailer ->
    movie_on h (bytes_of_header h ++ frames ++ trailer) movie ->
    Z.of_nat (i + n) = uiFrameCount h -> (n < fuel)%nat ->
    exists b movie',
      SerUtils.check_dates_loop fuel (Z.of_nat i) movie last true
      = (Some b, movie')
      /\ movie_on h (bytes_of_header h ++ frames ++ trailer) movie'
      /\ (b = true <->
          forall k, (i <= k < i + n)%nat ->
                    (if Nat.eqb k i then last
                     else trailer_date trailer (k - 1))
                    <= trailer_date trailer k).
Proof.
  induction n as [| n IH]; intros i fuel movie last Hwhole Hon Hi Hfuel;
    (destruct fuel as [| fuel]; [lia |]);
    pose proof (whole_count _ _ _ Hwhole) as Hcount;
    cbn [SerUtils.check_dates_loop];
    rewrite (proj1 Hon);
    rewrite (u32_small (Z.of_nat i)) by (unfold is_u32; lia).
  - destruct (Z.ltb_spec (Z.of_nat i) (uiFrameCount h)); [lia |].
    exists true, movie. split; [reflexivity |]. split; [exact Hon |].
    split; [intros _ k Hk; lia | reflexivity].
  - destruct (Z.ltb_spec (Z.of_nat i) (uiFrameCount h)); [| lia].
    destruct (readFrameDate_closed h frames trailer movie i Hwhole Hon)
      as (Hdate & Hon1); [lia |].
    destruct (SerUtils.readFrameDate movie (Z.of_nat i)) as [date movie1].
    cbn [fst snd] in Hdate, Hon1. subst date.
    destruct (Z.leb_spec last (trailer_date trailer i)) as [Hle | Hgt];
      cbn [negb].
    + rewrite (int32_small (Z.of_nat i + 1)) by (unfold is_int; lia).
      replace (Z.of_nat i + 1) with (Z.of_nat (S i)) by lia.
      destruct (IH (S i) fuel movie1 (trailer_date trailer i))
        as (b & movie2 & Hloop & Hon2 & Hb); trivial; try lia.
      exists b, movie2. split; [exact Hloop |]. split; [exact Hon2 |].
      rewrite Hb. split; intros Hall k Hk.
      * destruct (Nat.eqb_spec k i) as [Heq | Hne];
          [subst k; exact Hle |].
        specialize (Hall k ltac:(lia)).
        destruct (Nat.eqb_spec k (S i)) as [Heq | Hne']; [| exact Hall].
        subst k. now replace (S i - 1)%nat with i by lia.
      * specialize (Hall k ltac:(lia)).
        destruct (Nat.eqb_spec k i) as [Heq | Hne]; [lia |].
        destruct (Nat.eqb_spec k (S i)) as [Heq | Hne']; [| exact Hall].
        subst k. now replace (S i - 1)%nat with i in Hall by lia.
    + exists false, movie1. split; [reflexivity |]. split; [exact Hon1 |].
      split; [discriminate |]. intros Hall.
      specialize (Hall i ltac:(lia)). rewrite Nat.eqb_refl in Hall. lia.
Qed.

Lemma adjacent_dates (trailer : list byte) (n : nat) :
  (forall k, (0 <= k < 0 + n)%nat ->
             (if Nat.eqb k 0 then 0 else trailer_date trailer (k - 1))
             <= trailer_date trailer k)
  <-> (forall j k, (j <= k < n)%nat ->
                   trailer_date trailer j <= trailer_date trailer k).
Proof.
  split.
  - intros Hadj j k Hjk.
    assert (Hgen : forall d, (j + d < n)%nat ->
                     trailer_date trailer j <= trailer_date trailer (j + d)).
    { induction d as [| d IHd]; intros Hd.
      - rewrite Nat.add_0_r. lia.
      - specialize (Hadj (j + S d)%nat ltac:(lia)).
        destruct (Nat.eqb_spec (j + S d) 0) as [H0 | _]; [lia |].
        replace (j + S d - 1)%nat with (j + d)%nat in Hadj by lia.
        specialize (IHd ltac:(lia)). lia. }
    replace k with (j + (k - j))%nat by lia. apply Hgen. lia.
  - intros Hall k Hk.
    destruct (Nat.eqb_spec k 0) as [-> | Hne].
    + pose proof (trailer_date_range trailer 0) as Hr.
      unfold is_u64 in Hr. lia.
    + apply Hall. lia.
Qed.

Lemma performMovieCheck_closed
      (h : SERHeader) (frames trailer : list byte)
      (movie : SerUtils.SERMovie) :
  whole_movie h frames trailer ->
  movie_on h (bytes_of_header h ++ frames ++ trailer) movie ->
  SerUtils.getTrailerOffset h < SerUtils.filesize movie ->
  let w := SerUtils.warnings movie in
  let sorted :=
    forall j k, (j <= k)%nat -> Z.of_nat k < uiFrameCount h ->
                trailer_date trailer j <= trailer_date trailer k in
  exists ok count movie',
    SerUtils.performMovieCheck movie = (Some (ok, count), movie')
    /\ movie_on h (bytes_of_header h ++ frames ++ trailer) movie'
    /\ (ok = true <-> w = 0 /\ sorted)
    /\ (sorted -> count = SerUtils.countMovieWarnings w)
    /\ (~ sorted -> count = SerUtils.countMovieWarnings w + 1).
Proof.
  intros Hwhole Hon Hsize w sorted.
  pose proof (whole_count _ _ _ Hwhole) as Hcount.
  pose proof (countMovieWarnings_range w) as Hcw.
  unfold SerUtils.performMovieCheck. fold w. rewrite (proj1 Hon).
  destruct (Z.ltb_spec (SerUtils.getTrailerOffset h)
                       (SerUtils.filesize movie)); [| lia].
  destruct (check_dates_loop_closed
              h frames trailer (Z.to_nat (uiFrameCount h)) O
              (S (S (Z.to_nat (uiFrameCount h)))) movie 0 Hwhole Hon)
    as (b & movie' & Hloop & Hon' & Hb); [lia | lia |].
  change (Z.of_nat 0) with 0 in Hloop.
  assert (Hsorted : b = true <-> sorted).
  { rewrite Hb, adjacent_dates. subst sorted. split; intros Hall j k Hjk.
    - intros Hk. apply Hall. lia.
    - apply Hall; lia. }
  assert (Hcount' :
            (if negb (w =? 0)
             then (false, int32 (0 + SerUtils.countMovieWarnings w))
             else (true, 0))
            = (w =? 0, SerUtils.countMovieWarnings w)).
  { destruct (Z.eqb_spec w 0) as [-> | Hw]; [reflexivity |].
    cbn [negb]. rewrite int32_small by (unfold is_int; lia).
    reflexivity. }
  rewrite Hcount', Hloop.
  destruct b; cbn [negb].
  - exists (w =? 0), (SerUtils.countMovieWarnings w), movie'.
    split; [reflexivity |]. split; [exact Hon' |]. split; [| split].
    + rewrite Z.eqb_eq. tauto.
    + reflexivity.
    + intros Hn. exfalso. apply Hn. now apply Hsorted.
  - exists false, (SerUtils.countMovieWarnings w + 1), movie'.
    split; [now rewrite int32_small by (unfold is_int; lia) |].
    split; [exact Hon' |]. split; [| split].
    + split; [discriminate |]. intros [_ Hs]. now apply Hsorted in Hs.
    + intros Hs. now apply Hsorted in Hs.
    + reflexivity.
Qed.

(** X18.  [openMovie] of the program on a file that holds a header with the
    magic string, all its frames and all their timestamps returns a handle
    on that header and those bytes, with the length of the file, the
    timestamps of the first and of the last frame, and either the duration
    in whole seconds and no warning, when the first timestamp is below the
    last, or the warning [WARN_BAD_FRAME_DATES] alone, as for every movie
    of one frame. *)
Theorem openMovie_whole_movie (h : SERHeader) (frames trailer : list byte) :
  whole_movie h frames trailer ->
  take 15 (bytes_of_header h) = SER_FILE_ID ++ [x00] ->
  let bytes := bytes_of_header h ++ frames ++ trailer in
  let first := trailer_date trailer 0 in
  let last := trailer_date trailer (Z.to_nat (uiFrameCount h) - 1) in
  exists movie,
    SerUtils.openMovie (Some bytes) = inr movie
    /\ movie_on h bytes movie
    /\ SerUtils.filesize movie = Z.of_nat (length bytes)
    /\ SerUtils.firstFrameDate movie = first
    /\ SerUtils.lastFrameDate movie = last
    /\ (first < last ->
        SerUtils.warnings movie = 0
        /\ SerUtils.duration movie
           = u32 ((last - first) / TIMEUNITS_PER_SEC))
    /\ (last <= first ->
        SerUtils.warnings movie = SerUtils.WARN_BAD_FRAME_DATES
        /\ SerUtils.duration movie = 0)
    /\ (uiFrameCount h = 1 ->
        SerUtils.warnings movie = SerUtils.WARN_BAD_FRAME_DATES).
Proof.
  intros Hwhole Hmagic bytes first last.
  destruct (openMovie_closed h frames trailer Hwhole Hmagic)
    as (f3 & Hopen & Hdata).
  fold bytes first last in Hopen, Hdata.
  eexists. split; [exact Hopen |]. cbn.
  split; [split; [reflexivity | exact Hdata] |].
  repeat split; trivial.
  - destruct (Z.ltb_spec first last); [reflexivity | lia].
  - destruct (Z.ltb_spec first last); [reflexivity | lia].
  - destruct (Z.ltb_spec first last); [lia | reflexivity].
  - destruct (Z.ltb_spec first last); [lia | reflexivity].
  - intros H1. subst first last. rewrite H1.
    change (Z.to_nat 1 - 1)%nat with O. now rewrite Z.ltb_irrefl.
Qed.

Lemma openMovie_whole_movie_witness :
  let bytes := bytes_of_header (split_header 4) ++ four_frames ++ four_dates in
  let first := trailer_date four_dates 0 in
  let last := trailer_date four_dates (Z.to_nat 4 - 1) in
  exists movie,
    SerUtils.openMovie (Some bytes) = inr movie
    /\ movie_on (split_header 4) bytes movie
    /\ SerUtils.filesize movie = Z.of_nat (length bytes)
    /\ SerUtils.firstFrameDate movie = first
    /\ SerUtils.lastFrameDate movie = last
    /\ (first < last ->
        SerUtils.warnings movie = 0
        /\ SerUtils.duration movie
           = u32 ((last - first) / TIMEUNITS_PER_SEC))
    /\ (last <= first ->
        SerUtils.warnings movie = SerUtils.WARN_BAD_FRAME_DATES
        /\ SerUtils.duration movie = 0)
    /\ (4 = 1 ->
        SerUtils.warnings movie = SerUtils.WARN_BAD_FRAME_DATES).
Proof.
  apply (openMovie_whole_movie (split_header 4) four_frames four_dates).
  - exact four_frames_whole.
  - reflexivity.
Defined.

(** X19.  Whenever [openMovie] returns a handle, the file has at least 178
    bytes that start with the magic string and a zero byte, the handle
    holds the header read from them, the bytes and the length of the file,
    and its warnings are none, [WARN_INCOMPLETE_FRAMES] alone or
    [WARN_BAD_FRAME_DATES] alone: [WARN_INCOMPLETE_TRAILER] is never set,
    and without a warning the first date is below the last one. *)
Theorem openMovie_postcondition
        (contents : option (list byte)) (movie : SerUtils.SERMovie) :
  SerUtils.openMovie contents = inr movie ->
  exists bytes,
    contents = Some bytes
    /\ (178 <= length bytes)%nat
    /\ take 15 bytes = SER_FILE_ID ++ [x00]
    /\ movie_on (header_of_bytes bytes) bytes movie
    /\ SerUtils.filesize movie = Z.of_nat (length bytes)
    /\ (SerUtils.warnings movie = 0
        \/ SerUtils.warnings movie = SerUtils.WARN_INCOMPLETE_FRAMES
        \/ SerUtils.warnings movie = SerUtils.WARN_BAD_FRAME_DATES)
    /\ Z.land (SerUtils.warnings movie) SerUtils.WARN_INCOMPLETE_TRAILER = 0
    /\ (SerUtils.warnings movie = 0 ->
        SerUtils.firstFrameDate movie < SerUtils.lastFrameDate movie).
Proof.
  intros Hopen. destruct contents as [bytes |]; [| discriminate].
  exists bytes. split; [reflexivity |].
  unfold SerUtils.openMovie, SerUtils.parseHeader in Hopen.
  destruct (Nat.le_gt_cases 178 (length bytes)) as [Hlen | Hshort].
  2: { pose proof (parseHeader_short (fopen bytes) Hshort) as Hnone.
       destruct (Ser.parseHeader (fopen bytes)) as [[hdr |] f1];
         [discriminate | discriminate]. }
  split; [exact Hlen |].
  rewrite parseHeader_closed in Hopen by exact Hlen.
  change (f_data (fopen bytes)) with bytes in Hopen.
  rewrite header_of_bytes_take in Hopen.
  destruct (Z.eqb_spec (strcmp (SER_FILE_ID ++ [x00])
                               (bytes_of_header (header_of_bytes bytes))) 0)
    as [Hmagic | _]; [| discriminate].
  apply strcmp_magic_header in Hmagic; [| exact Hlen].
  split; [exact Hmagic |].
  cbn [negb] in Hopen. rewrite fseek_ok in Hopen by lia.
  unfold file_length in Hopen. cbn [f_data] in Hopen.
  destruct (Z.of_nat (length bytes)
            <? SerUtils.getTrailerOffset (header_of_bytes bytes)).
  { injection Hopen as <-. cbn.
    repeat split; trivial. - now right; left. - discriminate. }
  unfold SerUtils.readFirstFrameDate, SerUtils.readLastFrameDate in Hopen.
  match type of Hopen with
  | context [SerUtils.readFrameDate ?m 0] =>
      pose proof (readFrameDate_keeps m 0) as Hk1;
      destruct (SerUtils.readFrameDate m 0) as [first movie1]
  end.
  cbn [snd] in Hk1. cbn in Hk1.
  match type of Hopen with
  | context [SerUtils.readFrameDate movie1 ?i] =>
      pose proof (readFrameDate_keeps movie1 i) as Hk2;
      destruct (SerUtils.readFrameDate movie1 i) as [last movie2]
  end.
  cbn [snd] in Hk2.
  assert (Hdata : f_data (SerUtils.file movie2) = bytes).
  { destruct Hk1 as [_ Hd1], Hk2 as [_ Hd2]. congruence. }
  destruct (Z.ltb_spec first last); injection Hopen as <-; cbn;
    repeat split; trivial.
  - now left.
  - now right; right.
  - discriminate.
Qed.

Lemma openMovie_postcondition_witness :
  exists bytes,
    Some (split_file 4) = Some bytes
    /\ (178 <= length bytes)%nat
    /\ take 15 bytes = SER_FILE_ID ++ [x00]
    /\ movie_on (header_of_bytes bytes) bytes
                (SerUtils.mkSERMovie
                   (mkFILE (split_file 4) 214 [(0, 178); (182, 8); (206, 8)])
                   214 (split_header 4) 3 637134336000000000
                   637134336030000000 0)
    /\ 214 = Z.of_nat (length bytes)
    /\ (0 = 0
        \/ 0 = SerUtils.WARN_INCOMPLETE_FRAMES
        \/ 0 = SerUtils.WARN_BAD_FRAME_DATES)
    /\ Z.land 0 SerUtils.WARN_INCOMPLETE_TRAILER = 0
    /\ (0 = 0 -> 637134336000000000 < 637134336030000000).
Proof.
  apply (openMovie_postcondition
           (Some (split_file 4))
           (SerUtils.mkSERMovie
              (mkFILE (split_file 4) 214 [(0, 178); (182, 8); (206, 8)])
              214 (split_header 4) 3 637134336000000000
              637134336030000000 0)).
  vm_compute. reflexivity.
Defined.

(** X20.  On a handle whose file holds all the frames and all the
    timestamps, [performMovieCheck] succeeds exactly when the handle has no
    warning and the timestamps never decrease from one frame to a later
    one.  The number of issues is the number of warnings counted by
    [countMovieWarnings], plus one when some timestamp decreases.  The
    handle keeps its header and its bytes. *)
Theorem performMovieCheck_whole_movie
        (h : SERHeader) (frames trailer : list byte)
        (movie : SerUtils.SERMovie) :
  whole_movie h frames trailer ->
  movie_on h (bytes_of_header h ++ frames ++ trailer) movie ->
  SerUtils.getTrailerOffset h < SerUtils.filesize movie ->
  let w := SerUtils.warnings movie in
  let sorted :=
    forall j k, (j <= k)%nat -> Z.of_nat k < uiFrameCount h ->
                trailer_date trailer j <= trailer_date trailer k in
  exists ok count,
    fst (SerUtils.performMovieCheck movie) = Some (ok, count)
    /\ movie_on h (bytes_of_header h ++ frames ++ trailer)
                (snd (SerUtils.performMovieCheck movie))
    /\ (ok = true <-> w = 0 /\ sorted)
    /\ (sorted -> count = SerUtils.countMovieWarnings w)
    /\ (~ sorted -> count = SerUtils.countMovieWarnings w + 1).
Proof.
  intros Hwhole Hon Hsize w sorted.
  destruct (performMovieCheck_closed h frames trailer movie Hwhole Hon Hsize)
    as (ok & count & movie' & Hcheck & Hon' & Hok & Hc1 & Hc2).
  exists ok, count. rewrite Hcheck. cbn [fst snd].
  split; [reflexivity |]. split; [exact Hon' |].
  split; [exact Hok |]. split; assumption.
Qed.

Lemma performMovieCheck_whole_movie_witness :
  let w := SerUtils.warnings (split_movie 4) in
  let sorted :=
    forall j k, (j <= k)%nat -> Z.of_nat k < 4 ->
                trailer_date four_dates j <= trailer_date four_dates k in
  exists ok count,
    fst (SerUtils.performMovieCheck (split_movie 4)) = Some (ok, count)
    /\ movie_on (split_header 4)
                (bytes_of_header (split_header 4)
                 ++ four_frames ++ four_dates)
                (snd (SerUtils.performMovieCheck (split_movie 4)))
    /\ (ok = true <-> w = 0 /\ sorted)
    /\ (sorted -> count = SerUtils.countMovieWarnings w)
    /\ (~ sorted -> count = SerUtils.countMovieWarnings w + 1).
Proof.
  apply (performMovieCheck_whole_movie
           (split_header 4) four_frames four_dates (split_movie 4)).
  - exact four_frames_whole.
  - split; reflexivity.
  - vm_compute. reflexivity.
Defined.

(** X21.  Opening a file that holds a header with the magic string, all
    its frames and all their timestamps, and then checking the handle:
    the check succeeds exactly when the timestamps never decrease and the
    first one is below the last one.  A movie of one frame never passes the
    check. *)
Theorem check_of_opened_movie
        (h : SERHeader) (frames trailer : list byte) :
  whole_movie h frames trailer ->
  take 15 (bytes_of_header h) = SER_FILE_ID ++ [x00] ->
  let bytes := bytes_of_header h ++ frames ++ trailer in
  let first := trailer_date trailer 0 in
  let last := trailer_date trailer (Z.to_nat (uiFrameCount h) - 1) in
  let sorted :=
    forall j k, (j <= k)%nat -> Z.of_nat k < uiFrameCount h ->
                trailer_date trailer j <= trailer_date trailer k in
  exists movie ok count,
    SerUtils.openMovie (Some bytes) = inr movie
    /\ fst (SerUtils.performMovieCheck movie) = Some (ok, count)
    /\ (ok = true <-> sorted /\ first < last)
    /\ (uiFrameCount h = 1 -> ok = false /\ count = 1).
Proof.
  intros Hwhole Hmagic bytes first last sorted.
  pose proof (whole_count _ _ _ Hwhole) as Hcount.
  pose proof (whole_trailer _ _ _ Hwhole) as Htrailer.
  destruct (openMovie_closed h frames trailer Hwhole Hmagic)
    as (f3 & Hopen & Hdata).
  fold bytes first last in Hopen, Hdata.
  set (movie := SerUtils.mkSERMovie f3 _ _ _ _ _ _) in Hopen.
  assert (Hon : movie_on h bytes movie) by (split; [reflexivity | exact Hdata]).
  destruct (performMovieCheck_closed h frames trailer movie Hwhole Hon)
    as (ok & count & movie' & Hcheck & Hon' & Hok & Hc1 & Hc2).
  { subst movie. cbn [SerUtils.filesize].
    rewrite getTrailerOffset_exact by lia.
    pose proof (whole_wf _ _ _ Hwhole) as Hwf.
    pose proof (length_bytes_of_header h Hwf) as Hh.
    pose proof (whole_frames _ _ _ Hwhole) as Hframes.
    subst bytes. rewrite !length_app. lia. }
  exists movie, ok, count. split; [exact Hopen |].
  rewrite Hcheck. cbn [fst]. split; [reflexivity |].
  fold sorted in Hok, Hc1, Hc2.
  assert (Hw : SerUtils.warnings movie
               = if first <? last then 0 else SerUtils.WARN_BAD_FRAME_DATES)
    by reflexivity.
  split.
  - rewrite Hok, Hw.
    destruct (Z.ltb_spec first last) as [Hlt | Hge].
    + tauto.
    + split; [intros [H0 _]; discriminate | intros [_ Hlt]; lia].
  - intros H1.
    assert (Hs : sorted).
    { intros j k Hjk Hk. replace j with k by lia. lia. }
    assert (Hfl : first = last).
    { subst first last. rewrite H1. reflexivity. }
    rewrite Hfl, Z.ltb_irrefl in Hw.
    split.
    + destruct ok; [| reflexivity].
      destruct Hok as [Hok _]. destruct (Hok eq_refl) as [H0 _].
      rewrite Hw in H0. discriminate.
    + rewrite (Hc1 Hs), Hw. reflexivity.
Qed.

Lemma check_of_opened_movie_witness :
  let bytes := bytes_of_header (split_header 4) ++ four_frames ++ four_dates in
  let first := trailer_date four_dates 0 in
  let last := trailer_date four_dates (Z.to_nat 4 - 1) in
  let sorted :=
    forall j k, (j <= k)%nat -> Z.of_nat k < 4 ->
                trailer_date four_dates j <= trailer_date four_dates k in
  exists movie ok count,
    SerUtils.openMovie (Some bytes) = inr movie
    /\ fst (SerUtils.performMovieCheck movie) = Some (ok, count)
    /\ (ok = true <-> sorted /\ first < last)
    /\ (4 = 1 -> ok = false /\ count = 1).
Proof.
  apply (check_of_opened_movie (split_header 4) four_frames four_dates).
  - exact four_frames_whole.
  - reflexivity.
Defined.

(** ** The frame range of the command line *)

Lemma digits_value_numeral (s rest : list byte) (acc : Z) :
  forallb SerUtils.isdigit s = true ->
  match rest with
  | c :: _ => SerUtils.isdigit c = false
  | [] => True
  end ->
  SerUtils.digits_value acc (s ++ rest)
  = fold_left (fun acc c => 10 * acc + (byte.unsigned c - 48)) s acc.
Proof.
  revert acc. induction s as [| c s IH]; intros acc Hs Hrest.
  - cbn [app fold_left]. destruct rest as [| c rest]; [reflexivity |].
    cbn [SerUtils.digits_value]. now rewrite Hrest.
  - cbn [forallb] in Hs. apply andb_prop in Hs as [Hc Hs].
    cbn [app SerUtils.digits_value fold_left]. rewrite Hc.
    now apply IH.
Qed.

Lemma digit_not_space (c : byte) :
  SerUtils.isdigit c = true -> SerUtils.isspace c = false.
Proof.
  unfold SerUtils.isdigit, SerUtils.isspace. intros H.
  apply andb_prop in H as [H1 H2].
  apply Z.leb_le in H1. apply Z.leb_le in H2.
  destruct (Z.eqb_spec (byte.unsigned c) 32); [lia |].
  destruct (Z.leb_spec (byte.unsigned c) 13); [lia |].
  now rewrite andb_false_r.
Qed.

Lemma digits_nonneg (s : list byte) (acc : Z) :
  forallb SerUtils.isdigit s = true -> 0 <= acc ->
  0 <= fold_left (fun acc c => 10 * acc + (byte.unsigned c - 48)) s acc.
Proof.
  revert acc. induction s as [| d s IH]; intros acc Hs Hacc;
    cbn [fold_left]; [lia |].
  cbn [forallb] in Hs. apply andb_prop in Hs as [Hd Hs].
  apply IH; [exact Hs |].
  unfold SerUtils.isdigit in Hd. apply andb_prop in Hd as [H1 _].
  apply Z.leb_le in H1. lia.
Qed.

Lemma atoi_numeral (s : list byte) :
  numeral s -> decimal s < 2 ^ 31 ->
  SerUtils.atoi s = Some (decimal s).
Proof.
  intros [Hne Hs] Hsmall. destruct s as [| c s]; [contradiction |].
  assert (Hc : SerUtils.isdigit c = true)
    by (cbn [forallb] in Hs; now apply andb_prop in Hs).
  unfold SerUtils.atoi. cbn [SerUtils.skip_spaces].
  rewrite (digit_not_space c Hc).
  assert (H45 : (byte.unsigned c =? 45) = false).
  { unfold SerUtils.isdigit in Hc. apply andb_prop in Hc as [H1 _].
    apply Z.leb_le in H1. apply Z.eqb_neq. lia. }
  assert (H43 : (byte.unsigned c =? 43) = false).
  { unfold SerUtils.isdigit in Hc. apply andb_prop in Hc as [H1 _].
    apply Z.leb_le in H1. apply Z.eqb_neq. lia. }
  rewrite H45, H43.
  pose proof (digits_value_numeral (c :: s) [] 0 Hs I) as Hd.
  rewrite app_nil_r in Hd. rewrite Hd. fold (decimal (c :: s)).
  assert (H0 : 0 <= decimal (c :: s))
    by (apply digits_nonneg; [exact Hs | lia]).
  destruct (Z.leb_spec (- 2 ^ 31) (decimal (c :: s))); [| lia].
  destruct (Z.ltb_spec (decimal (c :: s)) (2 ^ 31)); [| lia].
  reflexivity.
Qed.

Lemma atoi_before (s rest : list byte) (c : byte) :
  numeral s -> decimal s < 2 ^ 31 ->
  SerUtils.atoi (take (length s) (s ++ c :: rest)) = Some (decimal s).
Proof.
  intros Hs Hsmall. rewrite take_app_length. now apply atoi_numeral.
Qed.

Lemma starts_with_dots (s : list byte) (c : byte) :
  byte.unsigned c <> 46 -> SerUtils.starts_with [x2e; x2e] (c :: s) = false.
Proof.
  intros Hc. cbn [SerUtils.starts_with].
  change (byte.unsigned x2e) with 46.
  destruct (Z.eqb_spec 46 (byte.unsigned c)); [lia | reflexivity].
Qed.

Lemma digit_code (c : byte) :
  SerUtils.isdigit c = true -> 48 <= byte.unsigned c <= 57.
Proof.
  unfold SerUtils.isdigit. intros H. apply andb_prop in H as [H1 H2].
  apply Z.leb_le in H1. apply Z.leb_le in H2. lia.
Qed.

Lemma strstr_after_digits (s rest : list byte) :
  forallb SerUtils.isdigit s = true ->
  SerUtils.strstr (s ++ rest) [x2e; x2e]
  = option_map (Nat.add (length s)) (SerUtils.strstr rest [x2e; x2e]).
Proof.
  induction s as [| c s IH]; intros Hs.
  - cbn [app length]. now destruct (SerUtils.strstr rest _).
  - cbn [forallb] in Hs. apply andb_prop in Hs as [Hc Hs].
    apply digit_code in Hc.
    cbn [app]. cbn [SerUtils.strstr].
    rewrite starts_with_dots by lia. rewrite (IH Hs).
    now destruct (SerUtils.strstr rest _).
Qed.

Lemma strchr_after_digits (s rest : list byte) :
  forallb SerUtils.isdigit s = true ->
  SerUtils.strchr (s ++ rest) x2c
  = option_map (Nat.add (length s)) (SerUtils.strchr rest x2c).
Proof.
  induction s as [| c s IH]; intros Hs.
  - cbn [app length]. now destruct (SerUtils.strchr rest _).
  - cbn [forallb] in Hs. apply andb_prop in Hs as [Hc Hs].
    apply digit_code in Hc.
    cbn [app]. cbn [SerUtils.strchr].
    change (byte.unsigned x2c) with 44.
    destruct (Z.eqb_spec (byte.unsigned c) 44); [lia |].
    rewrite (IH Hs). now destruct (SerUtils.strchr rest _).
Qed.

Lemma strstr_numeral (s : list byte) :
  forallb SerUtils.isdigit s = true ->
  SerUtils.strstr s [x2e; x2e] = None.
Proof.
  intros Hs. rewrite <- (app_nil_r s).
  now rewrite strstr_after_digits.
Qed.

Lemma strchr_numeral (s : list byte) :
  forallb SerUtils.isdigit s = true ->
  SerUtils.strchr s x2c = None.
Proof.
  intros Hs. rewrite <- (app_nil_r s).
  now rewrite strchr_after_digits.
Qed.

Lemma store_range_closed (from to count : Z) :
  1 <= from < 2 ^ 31 -> 0 <= to < 2 ^ 31 -> 0 <= count < 2 ^ 31 ->
  SerUtils.store_range from to count
  = SerUtils.RangeParsed (from - 1) (if to =? 0 then 0 else to - 1) count.
Proof.
  intros Hf Ht Hc. unfold SerUtils.store_range.
  destruct (Z.ltb_spec 0 from); [| lia].
  rewrite (u32_small (from - 1)) by (unfold is_u32; lia).
  rewrite (int32_small (from - 1)) by (unfold is_int; lia).
  rewrite (int32_small count) by (unfold is_int; lia).
  destruct (Z.ltb_spec 0 to), (Z.eqb_spec to 0); try lia.
  - rewrite (u32_small (to - 1)) by (unfold is_u32; lia).
    now rewrite (int32_small (to - 1)) by (unfold is_int; lia).
  - subst to. reflexivity.
Qed.

Lemma parse_from_to (s t : list byte) :
  numeral s -> numeral t ->
  1 <= decimal s < 2 ^ 31 -> 1 <= decimal t < 2 ^ 31 ->
  SerUtils.parseFrameRangeArgument (s ++ [x2e; x2e] ++ t)
  = SerUtils.RangeParsed (decimal s - 1) (decimal t - 1) 0.
Proof.
  intros Hs Ht Ha Hb. pose proof Hs as [Hs0 Hsd]. pose proof Ht as [Ht0 Htd].
  unfold SerUtils.parseFrameRangeArgument.
  assert (Hlen : length (s ++ [x2e; x2e] ++ t)
                 = (length s + 2 + length t)%nat)
    by (rewrite !length_app; cbn [length]; lia).
  assert (Hls : (0 < length s)%nat) by (destruct s; [contradiction | cbn; lia]).
  assert (Hlt : (0 < length t)%nat) by (destruct t; [contradiction | cbn; lia]).
  rewrite Hlen.
  destruct (Nat.eqb_spec (length s + 2 + length t) 0); [lia |].
  rewrite strstr_after_digits by exact Hsd.
  cbn [app SerUtils.strstr SerUtils.starts_with].
  change (byte.unsigned x2e =? byte.unsigned x2e) with true.
  cbn [andb option_map]. rewrite Nat.add_0_r.
  rewrite list_lookup_middle by reflexivity.
  change (byte.unsigned x2e =? 44) with false. cbn [negb].
  destruct (Nat.eqb_spec (length s) 0); [lia |].
  destruct (Nat.eqb_spec (length s) (length s + 2 + length t - 2)); [lia |].
  rewrite (atoi_before s (x2e :: t) x2e) by (trivial; lia).
  rewrite (u32_small (decimal s)) by (unfold is_u32; lia).
  destruct (Z.eqb_spec (decimal s) 0); [lia |].
  replace (drop (length s + 2) (s ++ x2e :: x2e :: t)) with t.
  2: { rewrite drop_app_ge by lia.
       now replace (length s + 2 - length s)%nat with 2%nat by lia. }
  rewrite atoi_numeral by (trivial; lia).
  rewrite (u32_small (decimal t)) by (unfold is_u32; lia).
  destruct (Z.eqb_spec (decimal t) 0); [lia |].
  rewrite store_range_closed by lia.
  destruct (Z.eqb_spec (decimal t) 0); [lia | reflexivity].
Qed.

Lemma parse_from_count (s t : list byte) :
  numeral s -> numeral t ->
  1 <= decimal s < 2 ^ 31 -> 1 <= decimal t < 2 ^ 31 ->
  SerUtils.parseFrameRangeArgument (s ++ [x2c] ++ t)
  = SerUtils.RangeParsed (decimal s - 1) 0 (decimal t).
Proof.
  intros Hs Ht Ha Hb. pose proof Hs as [Hs0 Hsd]. pose proof Ht as [Ht0 Htd].
  unfold SerUtils.parseFrameRangeArgument.
  assert (Hlen : length (s ++ [x2c] ++ t) = (length s + 1 + length t)%nat)
    by (rewrite !length_app; cbn [length]; lia).
  assert (Hls : (0 < length s)%nat) by (destruct s; [contradiction | cbn; lia]).
  assert (Hlt : (0 < length t)%nat) by (destruct t; [contradiction | cbn; lia]).
  rewrite Hlen.
  destruct (Nat.eqb_spec (length s + 1 + length t) 0); [lia |].
  rewrite strstr_after_digits by exact Hsd.
  cbn [app]. cbn [SerUtils.strstr].
  rewrite starts_with_dots by (change (byte.unsigned x2c) with 44; lia).
  rewrite (strstr_numeral t Htd). cbn [option_map].
  rewrite strchr_after_digits by exact Hsd.
  cbn [SerUtils.strchr].
  change (byte.unsigned x2c =? byte.unsigned x2c) with true.
  cbn [option_map]. rewrite Nat.add_0_r.
  rewrite list_lookup_middle by reflexivity.
  change (byte.unsigned x2c =? 44) with true. cbn [negb].
  destruct (Nat.eqb_spec (length s) 0); [lia |].
  destruct (Nat.eqb_spec (length s) (length s + 1 + length t - 1)); [lia |].
  rewrite (atoi_before s t x2c) by (trivial; lia).
  rewrite (u32_small (decimal s)) by (unfold is_u32; lia).
  destruct (Z.eqb_spec (decimal s) 0); [lia |].
  replace (drop (length s + 1) (s ++ x2c :: t)) with t.
  2: { rewrite drop_app_ge by lia.
       now replace (length s + 1 - length s)%nat with 1%nat by lia. }
  rewrite atoi_numeral by (trivial; lia).
  rewrite (u32_small (decimal t)) by (unfold is_u32; lia).
  destruct (Z.eqb_spec (decimal t) 0); [lia |].
  destruct (Z.leb_spec (decimal t) 0); [lia |].
  rewrite store_range_closed by lia. reflexivity.
Qed.

Lemma parse_lone_number (s : list byte) :
  numeral s -> 1 <= decimal s < 2 ^ 31 ->
  SerUtils.parseFrameRangeArgument s
  = SerUtils.RangeParsed (decimal s - 1) (- 2) 0.
Proof.
  intros Hs Ha. pose proof Hs as [Hs0 Hsd].
  unfold SerUtils.parseFrameRangeArgument.
  assert (Hls : (0 < length s)%nat) by (destruct s; [contradiction | cbn; lia]).
  destruct (Nat.eqb_spec (length s) 0); [lia |].
  rewrite (strstr_numeral s Hsd), (strchr_numeral s Hsd).
  rewrite atoi_numeral by (trivial; lia).
  rewrite (u32_small (decimal s)) by (unfold is_u32; lia).
  destruct (Z.eqb_spec (decimal s) 0); [lia |].
  unfold SerUtils.store_range.
  destruct (Z.ltb_spec 0 (decimal s)); [| lia].
  rewrite (u32_small (decimal s - 1)) by (unfold is_u32; lia).
  rewrite (int32_small (decimal s - 1)) by (unfold is_int; lia).
  reflexivity.
Qed.

(** X22.  The three forms of a frame range on the command line, for
    decimal numerals [s] and [t] of values between 1 and [2^31 - 1]:
    [s..t] stores the first and the last frame, both lowered by one;
    [s,t] stores the first frame lowered by one and the count [t], with the
    last frame 0; and [s] alone stores the first frame lowered by one and
    the last frame -2, because [to] is an unsigned -1 that is lowered by one
    as well. *)
Theorem parseFrameRangeArgument_forms (s t : list byte) :
  numeral s -> numeral t ->
  1 <= decimal s < 2 ^ 31 -> 1 <= decimal t < 2 ^ 31 ->
  SerUtils.parseFrameRangeArgument (s ++ [x2e; x2e] ++ t)
  = SerUtils.RangeParsed (decimal s - 1) (decimal t - 1) 0
  /\ SerUtils.parseFrameRangeArgument (s ++ [x2c] ++ t)
     = SerUtils.RangeParsed (decimal s - 1) 0 (decimal t)
  /\ SerUtils.parseFrameRangeArgument s
     = SerUtils.RangeParsed (decimal s - 1) (- 2) 0.
Proof.
  intros Hs Ht Ha Hb. split; [| split].
  - now apply parse_from_to.
  - now apply parse_from_count.
  - now apply parse_lone_number.
Qed.

Lemma parseFrameRangeArgument_forms_witness :
  SerUtils.parseFrameRangeArgument ([x31; x32] ++ [x2e; x2e] ++ [x34; x30])
  = SerUtils.RangeParsed (decimal [x31; x32] - 1) (decimal [x34; x30] - 1) 0
  /\ SerUtils.parseFrameRangeArgument ([x31; x32] ++ [x2c] ++ [x34; x30])
     = SerUtils.RangeParsed (decimal [x31; x32] - 1) 0 (decimal [x34; x30])
  /\ SerUtils.parseFrameRangeArgument [x31; x32]
     = SerUtils.RangeParsed (decimal [x31; x32] - 1) (- 2) 0.
Proof.
  apply (parseFrameRangeArgument_forms [x31; x32] [x34; x30]).
  - split; [discriminate | reflexivity].
  - split; [discriminate | reflexivity].
  - vm_compute. split; [discriminate | reflexivity].
  - vm_compute. split; [discriminate | reflexivity].
Defined.

(** X23.  A frame number alone on the command line never selects the last
    frame of the movie.  With the numeral [s] of value [a] and a movie of
    [N] frames, the range that [determineFrameRange] computes from the
    stored values runs from frame [a - 1] to frame [N - 2] when [a < N];
    for [a = N], the number of the last frame, the range is refused with
    "last frame < first frame", and for [a > N] with "first frame beyond
    movie frames". *)
Theorem lone_frame_number_range (h : SERHeader) (s : list byte) :
  numeral s -> 1 <= decimal s < 2 ^ 31 ->
  0 <= uiFrameCount h < 2 ^ 31 ->
  let a := decimal s in
  let N := uiFrameCount h in
  exists from to count,
    SerUtils.parseFrameRangeArgument s
    = SerUtils.RangeParsed from to count
    /\ SerUtils.determineFrameRange h from to count
       = if a <? N then SerUtils.Returns (SerUtils.mkRange (a - 1) (N - 2) (N - a))
         else if a =? N then SerUtils.Fails SerUtils.LastBeforeFirst
         else SerUtils.Fails SerUtils.FirstFrameBeyond.
Proof.
  intros Hs Ha HN a N.
  exists (a - 1), (- 2), 0. split; [now apply parse_lone_number |].
  rewrite determineFrameRange_cases
    by (trivial; unfold is_int; fold a; try lia).
  fold N.
  destruct (Z.ltb_spec (a - 1) 0); [lia |].
  change (0 <? 0) with false. change (-2 <? 0) with true. cbv iota.
  destruct (Z.ltb_spec a N) as [Hlt | Hge].
  - destruct (Z.leb_spec N (a - 1)); [lia |].
    destruct (Z.leb_spec N (N + -2)); [lia |].
    destruct (Z.ltb_spec (N + -2) (a - 1)); [lia |].
    destruct (Z.leb_spec 0 (a - 1)); [| lia].
    do 2 f_equal; lia.
  - destruct (Z.eqb_spec a N) as [Heq | Hne].
    + destruct (Z.leb_spec N (a - 1)); [lia |].
      destruct (Z.leb_spec N (N + -2)); [lia |].
      destruct (Z.ltb_spec (N + -2) (a - 1)); [reflexivity | lia].
    + destruct (Z.leb_spec N (a - 1)); [reflexivity | lia].
Qed.

Lemma lone_frame_number_range_witness :
  exists from to count,
    SerUtils.parseFrameRangeArgument [x34]
    = SerUtils.RangeParsed from to count
    /\ SerUtils.determineFrameRange (split_header 4) from to count
       = if decimal [x34] <? 4
         then SerUtils.Returns
                (SerUtils.mkRange (decimal [x34] - 1) (4 - 2)
                                  (4 - decimal [x34]))
         else if decimal [x34] =? 4
              then SerUtils.Fails SerUtils.LastBeforeFirst
              else SerUtils.Fails SerUtils.FirstFrameBeyond.
Proof.
  apply (lone_frame_number_range (split_header 4) [x34]).
  - split; [discriminate | reflexivity].
  - vm_compute. split; [discriminate | reflexivity].
  - vm_compute. split; [discriminate | reflexivity].
Defined.

(** ** All the pixels of a frame *)

Lemma peek_ok (buf : list byte) (off n : nat) :
  (off + n <= length buf)%nat ->
  Ser.peek buf (Z.of_nat off) n = Some (slice off n buf).
Proof.
  intros H. unfold Ser.peek.
  destruct (Z.leb_spec 0 (Z.of_nat off)); [| lia].
  destruct (Z.leb_spec (Z.of_nat off + Z.of_nat n) (Z.of_nat (length buf)));
    [| lia].
  cbn [andb]. now rewrite Nat2Z.id.
Qed.

Lemma poke_ok (buf : list byte) (off : nat) (bs : list byte) :
  (off + length bs <= length buf)%nat ->
  Ser.poke buf (Z.of_nat off) bs
  = Some (take off buf ++ bs ++ drop (off + length bs) buf).
Proof.
  intros H. unfold Ser.poke.
  destruct (Z.leb_spec 0 (Z.of_nat off)); [| lia].
  destruct (Z.leb_spec (Z.of_nat off + Z.of_nat (length bs))
                       (Z.of_nat (length buf))); [| lia].
  cbn [andb]. now rewrite Nat2Z.id.
Qed.

Lemma poke_length (buf : list byte) (off : nat) (bs : list byte) :
  (off + length bs <= length buf)%nat ->
  length (take off buf ++ bs ++ drop (off + length bs) buf) = length buf.
Proof.
  intros H. rewrite !length_app, length_take, length_drop. lia.
Qed.

Lemma take_poke (buf : list byte) (off : nat) (bs : list byte) :
  (off + length bs <= length buf)%nat ->
  take (off + length bs)
       (take off buf ++ bs ++ drop (off + length bs) buf)
  = take off buf ++ bs.
Proof.
  intros H. rewrite app_assoc. apply take_app_length'.
  rewrite length_app, length_take. lia.
Qed.

Lemma chunks_length (n k : nat) (bs : list byte) :
  length (chunks n k bs) = n.
Proof.
  revert bs. induction n as [| n IH]; intros bs; cbn; [reflexivity |].
  now rewrite IH.
Qed.

Lemma concat_chunks (n k : nat) (bs : list byte) :
  length bs = (n * k)%nat -> concat (chunks n k bs) = bs.
Proof.
  revert bs. induction n as [| n IH]; intros bs Hlen; cbn [chunks concat].
  - destruct bs; [reflexivity | discriminate].
  - rewrite IH by (rewrite length_drop; lia). apply take_drop.
Qed.

Lemma mono16_loop_closed (same : bool) (depth : Z) (data : list byte)
      (n : nat) :
  forall (done fuel : nat) (pixels : list byte),
    length data = (2 * (done + n))%nat ->
    length pixels = (2 * (done + n))%nat ->
    (n < fuel)%nat ->
    Z.of_nat (2 * (done + n)) < 2 ^ 64 ->
    Ser.mono16_loop fuel (Z.of_nat (2 * (done + n))) same depth data pixels
                     (Z.of_nat (2 * done))
    = inr (take (2 * done) pixels
           ++ flat_map (word16 same depth)
                       (chunks n 2 (drop (2 * done) data))).
Proof.
  induction n as [| n IH]; intros done fuel pixels Hdata Hpix Hfuel Hsize;
    (destruct fuel as [| fuel]; [lia |]); cbn [Ser.mono16_loop].
  - destruct (Z.ltb_spec (Z.of_nat (2 * done)) (Z.of_nat (2 * (done + 0))));
      [lia |].
    cbn [chunks flat_map]. rewrite app_nil_r, take_ge by lia. reflexivity.
  - destruct (Z.ltb_spec (Z.of_nat (2 * done))
                         (Z.of_nat (2 * (done + S n)))); [| lia].
    rewrite peek_ok by lia.
    set (w := le_split 2 _).
    assert (Hw : length w = 2%nat) by apply length_le_split.
    rewrite poke_ok by lia.
    rewrite u64_small by (unfold is_u64; lia).
    replace (Z.of_nat (2 * done) + 2) with (Z.of_nat (2 * S done)) by lia.
    replace (2 * (done + S n))%nat with (2 * (S done + n))%nat by lia.
    rewrite IH; try lia; [| rewrite poke_length; lia].
    f_equal. cbn [chunks flat_map]. rewrite drop_drop.
    replace (2 * S done)%nat with (2 * done + length w)%nat by lia.
    rewrite take_poke by lia. rewrite <- app_assoc. f_equal.
Qed.

Lemma slice_three (data : list byte) (off : nat) :
  (off + 3 <= length data)%nat ->
  exists c1 c2 c3, slice off 3 data = [c1; c2; c3].
Proof.
  intros H. pose proof (slice_length off 3 data) as Hl.
  destruct (slice off 3 data) as [| c1 [| c2 [| c3 [| c4 l]]]];
    cbn [length] in Hl; try lia.
  now exists c1, c2, c3.
Qed.

Lemma rgb8_loop_closed (colorID : Z) (data : list byte) (n : nat) :
  forall (done fuel : nat) (pixels : list byte),
    length data = (3 * (done + n))%nat ->
    length pixels = (3 * (done + n))%nat ->
    (n < fuel)%nat ->
    Z.of_nat (3 * (done + n)) < 2 ^ 64 ->
    Ser.rgb8_loop fuel (Z.of_nat (3 * (done + n))) colorID data pixels
                   (Z.of_nat (3 * done))
    = inr (take (3 * done) pixels
           ++ flat_map (fun px => if colorID =? COLOR_RGB then px else rev px)
                       (chunks n 3 (drop (3 * done) data))).
Proof.
  induction n as [| n IH]; intros done fuel pixels Hdata Hpix Hfuel Hsize;
    (destruct fuel as [| fuel]; [lia |]); cbn [Ser.rgb8_loop].
  - destruct (Z.ltb_spec (Z.of_nat (3 * done)) (Z.of_nat (3 * (done + 0))));
      [lia |].
    cbn [chunks flat_map]. rewrite app_nil_r, take_ge by lia. reflexivity.
  - destruct (Z.ltb_spec (Z.of_nat (3 * done))
                         (Z.of_nat (3 * (done + S n)))); [| lia].
    rewrite peek_ok by lia.
    destruct (slice_three data (3 * done)) as (c1 & c2 & c3 & Hpx); [lia |].
    rewrite Hpx.
    set (w := if colorID =? COLOR_RGB then [c1; c2; c3] else [c3; c2; c1]).
    assert (Hw : length w = 3%nat)
      by (subst w; now destruct (colorID =? COLOR_RGB)).
    replace (let '(r, g, b) :=
               if colorID =? COLOR_RGB then (c1, c2, c3) else (c3, c2, c1) in
             match Ser.poke pixels (Z.of_nat (3 * done)) [r; g; b] with
             | Some pixels0 =>
                 Ser.rgb8_loop fuel (Z.of_nat (3 * (done + S n))) colorID
                                data pixels0 (u64 (Z.of_nat (3 * done) + 3))
             | None => inl Ser.PixelsOutOfBounds
             end)
      with (match Ser.poke pixels (Z.of_nat (3 * done)) w with
            | Some pixels0 =>
                Ser.rgb8_loop fuel (Z.of_nat (3 * (done + S n))) colorID
                               data pixels0 (u64 (Z.of_nat (3 * done) + 3))
            | None => inl Ser.PixelsOutOfBounds
            end)
      by (subst w; now destruct (colorID =? COLOR_RGB)).
    rewrite poke_ok by lia.
    rewrite u64_small by (unfold is_u64; lia).
    replace (Z.of_nat (3 * done) + 3) with (Z.of_nat (3 * S done)) by lia.
    replace (3 * (done + S n))%nat with (3 * (S done + n))%nat by lia.
    rewrite IH; try lia; [| rewrite poke_length; lia].
    f_equal. cbn [chunks flat_map]. rewrite drop_drop.
    replace (3 * S done)%nat with (3 * done + length w)%nat at 1 by lia.
    rewrite take_poke by lia. rewrite <- app_assoc. f_equal.
    fold (slice (3 * done) 3 data). rewrite Hpx.
    replace (3 * done + 3)%nat with (3 * S done)%nat by lia.
    subst w. now destruct (colorID =? COLOR_RGB).
Qed.

Lemma slice_slice (off m a n : nat) (data : list byte) :
  (a + n <= m)%nat ->
  slice a n (slice off m data) = slice (off + a) n data.
Proof.
  intros H. unfold slice.
  rewrite (take_drop_commute _ n a), take_take.
  replace ((a + n) `min` m)%nat with (a + n)%nat by lia.
  rewrite <- take_drop_commute, drop_drop. reflexivity.
Qed.

Lemma chunks_three_words (px : list byte) :
  chunks 3 2 px = [slice 0 2 px; slice 2 2 px; slice 4 2 px].
Proof.
  cbn [chunks]. unfold slice. rewrite drop_0, !drop_drop. reflexivity.
Qed.

Lemma chunks_S (n k : nat) (bs : list byte) :
  chunks (S n) k bs = take k bs :: chunks n k (drop k bs).
Proof. reflexivity. Qed.

Lemma rgb16_loop_closed (colorID : Z) (same : bool) (depth : Z)
      (data : list byte) (n : nat) :
  forall (done fuel : nat) (pixels : list byte),
    length data = (6 * (done + n))%nat ->
    length pixels = (6 * (done + n))%nat ->
    (n < fuel)%nat ->
    Z.of_nat (6 * (done + n)) < 2 ^ 64 ->
    Ser.rgb16_loop fuel (Z.of_nat (6 * (done + n))) colorID same depth data
                    pixels (Z.of_nat (6 * done))
    = inr (take (6 * done) pixels
           ++ flat_map
                (fun px =>
                   let ws := map (word16 same depth) (chunks 3 2 px) in
                   concat (if colorID =? COLOR_RGB then ws else rev ws))
                (chunks n 6 (drop (6 * done) data))).
Proof.
  induction n as [| n IH]; intros done fuel pixels Hdata Hpix Hfuel Hsize;
    (destruct fuel as [| fuel]; [lia |]); cbn [Ser.rgb16_loop].
  - destruct (Z.ltb_spec (Z.of_nat (6 * done)) (Z.of_nat (6 * (done + 0))));
      [lia |].
    cbn [chunks flat_map]. rewrite app_nil_r, take_ge by lia. reflexivity.
  - destruct (Z.ltb_spec (Z.of_nat (6 * done))
                         (Z.of_nat (6 * (done + S n)))); [| lia].
    rewrite peek_ok by lia.
    replace (Z.of_nat (6 * done) + 2) with (Z.of_nat (6 * done + 2)) by lia.
    replace (Z.of_nat (6 * done) + 4) with (Z.of_nat (6 * done + 4)) by lia.
    rewrite !peek_ok by lia.
    set (w1 := word16 same depth (slice (6 * done) 2 data)).
    set (w2 := word16 same depth (slice (6 * done + 2) 2 data)).
    set (w3 := word16 same depth (slice (6 * done + 4) 2 data)).
    assert (Hw1 : length w1 = 2%nat) by apply length_le_split.
    assert (Hw2 : length w2 = 2%nat) by apply length_le_split.
    assert (Hw3 : length w3 = 2%nat) by apply length_le_split.
    set (w := if colorID =? COLOR_RGB then w1 ++ w2 ++ w3
              else w3 ++ w2 ++ w1).
    assert (Hw : length w = 6%nat).
    { subst w. destruct (colorID =? COLOR_RGB);
        rewrite !length_app; lia. }
    assert (Hstep : forall k : list byte -> Ser.PixelsStop + list byte,
               (let '(r, g, b) :=
                  if colorID =? COLOR_RGB
                  then (Ser.convert16 same depth
                          (le_combine (slice (6 * done) 2 data)),
                        Ser.convert16 same depth
                          (le_combine (slice (6 * done + 2) 2 data)),
                        Ser.convert16 same depth
                          (le_combine (slice (6 * done + 4) 2 data)))
                  else (Ser.convert16 same depth
                          (le_combine (slice (6 * done + 4) 2 data)),
                        Ser.convert16 same depth
                          (le_combine (slice (6 * done + 2) 2 data)),
                        Ser.convert16 same depth
                          (le_combine (slice (6 * done) 2 data))) in
                match Ser.poke pixels (Z.of_nat (6 * done))
                                (le_split 2 r ++ le_split 2 g ++ le_split 2 b)
                with
                | Some pixels0 => k pixels0
                | None => inl Ser.PixelsOutOfBounds
                end)
               = match Ser.poke pixels (Z.of_nat (6 * done)) w with
                 | Some pixels0 => k pixels0
                 | None => inl Ser.PixelsOutOfBounds
                 end).
    { intros k. subst w w1 w2 w3. unfold word16.
      now destruct (colorID =? COLOR_RGB). }
    rewrite Hstep. clear Hstep.
    rewrite poke_ok by lia.
    rewrite u64_small by (unfold is_u64; lia).
    replace (Z.of_nat (6 * done) + 3 * 2) with (Z.of_nat (6 * S done))
      by lia.
    replace (6 * (done + S n))%nat with (6 * (S done + n))%nat by lia.
    rewrite IH; try lia; [| rewrite poke_length; lia].
    f_equal. rewrite chunks_S. cbn [flat_map]. rewrite drop_drop.
    replace (6 * S done)%nat with (6 * done + length w)%nat at 1 by lia.
    rewrite take_poke by lia. rewrite <- app_assoc.
    replace (6 * done + 6)%nat with (6 * S done)%nat by lia.
    f_equal. f_equal.
    fold (slice (6 * done) 6 data). rewrite chunks_three_words.
    rewrite !slice_slice by lia. rewrite Nat.add_0_r.
    cbn [map]. fold w1 w2 w3. subst w.
    destruct (colorID =? COLOR_RGB); cbn [rev app concat];
      now rewrite app_nil_r.
Qed.

Lemma SERGetFrameDate_endianness (movie : Ser.SERMovie) (idx : Z) :
  Ser.header (snd (Ser.SERGetFrameDate movie idx)) = Ser.header movie
  /\ Ser.invert_endianness (snd (Ser.SERGetFrameDate movie idx))
     = Ser.invert_endianness movie.
Proof.
  unfold Ser.SERGetFrameDate.
  destruct (uiFrameCount (Ser.header movie) <=? idx); [now cbn |].
  destruct (fseek _ _) as [rc f1].
  destruct (Ser.date_read_loop _ f1 _ _) as [mem f2].
  now cbn.
Qed.

(** What a frame returned by [SERGetFrame] holds. *)
Lemma SERGetFrame_frame (movie movie' : Ser.SERMovie) (idx : Z)
      (frame : Ser.SERFrame) :
  Ser.SERGetFrame movie idx = (inr frame, movie') ->
  exists buf,
    Ser.data frame = Some buf
    /\ Z.of_nat (length buf) = Ser.SERGetFrameSize (Ser.header movie)
    /\ Ser.pixelDepth frame = uiPixelDepth (Ser.header movie)
    /\ Ser.colorID frame = uiColorID (Ser.header movie)
    /\ Ser.width frame = uiImageWidth (Ser.header movie)
    /\ Ser.height frame = uiImageHeight (Ser.header movie)
    /\ Ser.header movie' = Ser.header movie
    /\ Ser.invert_endianness movie' = Ser.invert_endianness movie.
Proof.
  unfold Ser.SERGetFrame. intros Hget.
  destruct (Ser.SERGetFrameCount movie <=? idx); [discriminate |].
  destruct (Ser.filesize movie <? _); [discriminate |].
  destruct (Ser.filesize movie <? _); [discriminate |].
  pose proof (SERGetFrameDate_endianness movie idx) as [Hh Hi].
  destruct (Ser.SERGetFrameDate movie idx) as [datetime movie1].
  cbn [snd] in Hh, Hi.
  destruct (fseek _ _) as [rc f2].
  destruct (rc <? 0); [discriminate |].
  destruct (fread_full _ f2 _ _) as [buf f3].
  destruct (Z.eqb_spec (Z.of_nat (length buf))
                       (Ser.SERGetFrameSize (Ser.header movie)))
    as [Hlen | _]; [| discriminate].
  cbn [negb] in Hget. injection Hget as <- <-.
  exists buf. cbn. rewrite Hh. repeat split; trivial.
Qed.

Lemma flat_map_chunks_ext (f g : list byte -> list byte) (n k : nat)
      (bs : list byte) :
  (forall x, f (take k x) = g (take k x)) ->
  flat_map f (chunks n k bs) = flat_map g (chunks n k bs).
Proof.
  intros Hfg. revert bs. induction n as [| n IH]; intros bs;
    [reflexivity |].
  rewrite chunks_S. cbn [flat_map]. now rewrite Hfg, IH.
Qed.

Lemma flat_map_chunks_id (n k : nat) (bs : list byte) :
  length bs = (n * k)%nat -> flat_map (fun px => px) (chunks n k bs) = bs.
Proof.
  intros Hlen. rewrite flat_map_concat_map, map_id.
  now apply concat_chunks.
Qed.

Lemma concat_singletons (px : list byte) :
  concat (map (fun c => [c]) px) = px.
Proof.
  induction px as [| c px IH]; [reflexivity |]. cbn. now rewrite IH.
Qed.

Lemma concat_rev_singletons (px : list byte) :
  concat (rev (map (fun c => [c]) px)) = rev px.
Proof.
  rewrite <- map_rev. apply concat_singletons.
Qed.

Lemma SERGetFramePixels_closed
      (movie movie' : Ser.SERMovie) (idx big_endian : Z)
      (frame : Ser.SERFrame) (buf : list byte) :
  let h := Ser.header movie in
  Ser.SERGetFrame movie idx = (inr frame, movie') ->
  Ser.data frame = Some buf ->
  1 <= uiPixelDepth h < 2 ^ 31 ->
  1 <= uiImageWidth h * uiImageHeight h ->
  uiImageWidth h * uiImageHeight h * Ser.SERGetBytesPerPixel h < 2 ^ 32 ->
  let n := Z.to_nat (uiImageWidth h * uiImageHeight h) in
  let bpp := Z.to_nat (Ser.SERGetBytesPerPixel h) in
  let same := big_endian =? Z.b2z (Ser.SERIsBigEndian movie) in
  length buf = (n * bpp)%nat
  /\ Ser.SERGetFramePixels movie idx big_endian
     = (inr (flat_map (decoded_pixel h same) (chunks n bpp buf)), movie').
Proof.
  intros h Hget Hdata Hdepth Hwh Hsize n bpp same.
  destruct (SERGetFrame_frame movie movie' idx frame Hget)
    as (buf' & Hdata' & Hlen & Hd & Hc & _ & _ & Hh & Hi).
  rewrite Hdata in Hdata'. injection Hdata' as <-.
  fold h in Hlen, Hd, Hc, Hh.
  assert (Hbpp : Ser.SERGetBytesPerPixel h
                 = (if uiPixelDepth h <=? 8 then 1 else 2)
                   * Ser.SERGetNumberOfPlanes h).
  { unfold Ser.SERGetBytesPerPixel.
    destruct (Z.ltb_spec (uiPixelDepth h) 1); [lia |].
    destruct (uiPixelDepth h <=? 8); lia. }
  assert (Hplanes : Ser.SERGetNumberOfPlanes h
                    = if COLOR_RGB <=? uiColorID h then 3 else 1)
    by reflexivity.
  assert (Hbpp1 : 1 <= Ser.SERGetBytesPerPixel h <= 6).
  { rewrite Hbpp, Hplanes.
    destruct (uiPixelDepth h <=? 8), (COLOR_RGB <=? uiColorID h); lia. }
  assert (Hfs : Ser.SERGetFrameSize h
                = uiImageWidth h * uiImageHeight h
                  * Ser.SERGetBytesPerPixel h).
  { unfold Ser.SERGetFrameSize.
    rewrite (u32_small (uiImageWidth h * uiImageHeight h))
      by (unfold is_u32; nia).
    rewrite (u32_small (Ser.SERGetBytesPerPixel h)) by (unfold is_u32; lia).
    apply u32_small. unfold is_u32. nia. }
  assert (Hbuf : length buf = (n * bpp)%nat) by (subst n bpp; nia).
  split; [exact Hbuf |].
  unfold Ser.SERGetFramePixels. rewrite Hget, Hdata, Hh. fold h.
  rewrite Hfs.
  set (size := uiImageWidth h * uiImageHeight h * Ser.SERGetBytesPerPixel h)
    in *.
  assert (Hsz : Z.to_nat size = (n * bpp)%nat) by (subst size n bpp; nia).
  destruct (Z.eqb_spec size 0) as [H0 | _]; [nia |].
  rewrite Hd, (int32_small (uiPixelDepth h)) by (unfold is_int; lia).
  replace (Ser.SERIsBigEndian movie') with (Ser.SERIsBigEndian movie)
    by (unfold Ser.SERIsBigEndian; now rewrite Hh, Hi).
  fold same. rewrite Hc.
  assert (Hpix : length (replicate (Z.to_nat size) x00) = (n * bpp)%nat)
    by (now rewrite length_replicate).
  unfold decoded_pixel. fold h.
  destruct (Z.ltb_spec 8 (uiPixelDepth h)) as [Hdeep | Hshallow].
  - (* two bytes for a channel *)
    destruct (Z.leb_spec (uiPixelDepth h) 8); [lia |].
    change (2 =? 1) with false. cbv iota.
    rewrite Hplanes.
    destruct (Z.leb_spec COLOR_RGB (uiColorID h)) as [Hcol | Hmono].
    + change (3 =? 1) with false. cbv iota.
      assert (Hb : bpp = 6%nat)
        by (subst bpp; rewrite Hbpp, Hplanes;
            destruct (Z.leb_spec COLOR_RGB (uiColorID h)); lia).
      rewrite Hb in *.
      replace size with (Z.of_nat (6 * (0 + n))) by lia.
      change 0 with (Z.of_nat (6 * 0)) at 1.
      rewrite rgb16_loop_closed; try lia;
        [| rewrite length_replicate; lia].
      f_equal. f_equal. cbn [Nat.mul take app drop].
      apply flat_map_chunks_ext. intros x. cbv zeta.
      change (Z.to_nat 3) with 3%nat.
      unfold COLOR_RGB in *.
      destruct (Z.eqb_spec (uiColorID h) 100),
        (Z.leb_spec (uiColorID h) 100); try lia; reflexivity.
    + change (1 =? 1) with true. cbv iota.
      assert (Hb : bpp = 2%nat)
        by (subst bpp; rewrite Hbpp, Hplanes;
            destruct (Z.leb_spec COLOR_RGB (uiColorID h)); lia).
      rewrite Hb in *.
      replace size with (Z.of_nat (2 * (0 + n))) by lia.
      change 0 with (Z.of_nat (2 * 0)) at 1.
      rewrite mono16_loop_closed; try lia;
        [| rewrite length_replicate; lia].
      f_equal. f_equal. cbn [Nat.mul take app drop].
      apply flat_map_chunks_ext. intros x.
      change (Z.to_nat 1) with 1%nat. rewrite chunks_S.
      cbn [chunks map]. rewrite take_take. cbn [Nat.min].
      unfold COLOR_RGB in *.
      destruct (Z.leb_spec (uiColorID h) 100); [| lia].
      cbn [concat]. now rewrite app_nil_r.
  - (* one byte for a channel *)
    destruct (Z.leb_spec (uiPixelDepth h) 8); [| lia].
    change (1 =? 1) with true. cbv iota.
    rewrite Hplanes.
    destruct (Z.leb_spec COLOR_RGB (uiColorID h)) as [Hcol | Hmono].
    + change (3 =? 1) with false. cbv iota.
      assert (Hb : bpp = 3%nat)
        by (subst bpp; rewrite Hbpp, Hplanes;
            destruct (Z.leb_spec COLOR_RGB (uiColorID h)); lia).
      rewrite Hb in *.
      replace size with (Z.of_nat (3 * (0 + n))) by lia.
      change 0 with (Z.of_nat (3 * 0)) at 1.
      rewrite rgb8_loop_closed; try lia;
        [| rewrite length_replicate; lia].
      f_equal. f_equal. cbn [Nat.mul take app drop].
      apply flat_map_chunks_ext. intros x.
      unfold COLOR_RGB in *.
      destruct (Z.eqb_spec (uiColorID h) 100),
        (Z.leb_spec (uiColorID h) 100); try lia.
      * now rewrite concat_singletons.
      * now rewrite concat_rev_singletons.
    + change (1 =? 1) with true. cbv iota.
      assert (Hb : bpp = 1%nat)
        by (subst bpp; rewrite Hbpp, Hplanes;
            destruct (Z.leb_spec COLOR_RGB (uiColorID h)); lia).
      rewrite Hb in *.
      change 0 with (Z.of_nat 0).
      rewrite peek_ok by lia.
      unfold slice. rewrite drop_0, take_ge by lia.
      rewrite poke_ok by lia.
      cbn [take app Nat.add]. rewrite drop_ge by lia. rewrite app_nil_r.
      f_equal. f_equal.
      rewrite (flat_map_chunks_ext _ (fun px => px)).
      * symmetry. now apply flat_map_chunks_id.
      * intros x. unfold COLOR_RGB in *.
        destruct (Z.leb_spec (uiColorID h) 100); [| lia].
        apply concat_singletons.
Qed.

(** X24.  [SERGetFramePixels] on a frame that [SERGetFrame] returns, for a
    depth from 1 up and a frame size that fits 32 bits: the buffer has the
    size of the frame and holds its pixels in order, each decoded on its
    own.  A channel of one byte is copied; a channel of two bytes is
    byte-swapped when the requested endianness is not that of the movie and
    normalised by [getTruncatedUInt16] below depth 16; and the channels of
    a pixel are put in reverse order for a colour code above [COLOR_RGB].
    When [SERGetFrame] fails, so does the call. *)
Theorem SERGetFramePixels_decodes_each_pixel
        (movie : Ser.SERMovie) (idx big_endian : Z)
        (frame : Ser.SERFrame) (buf : list byte) :
  let h := Ser.header movie in
  fst (Ser.SERGetFrame movie idx) = inr frame ->
  Ser.data frame = Some buf ->
  1 <= uiPixelDepth h < 2 ^ 31 ->
  1 <= uiImageWidth h * uiImageHeight h ->
  uiImageWidth h * uiImageHeight h * Ser.SERGetBytesPerPixel h < 2 ^ 32 ->
  let n := Z.to_nat (uiImageWidth h * uiImageHeight h) in
  let bpp := Z.to_nat (Ser.SERGetBytesPerPixel h) in
  let same := big_endian =? Z.b2z (Ser.SERIsBigEndian movie) in
  let pixels := flat_map (decoded_pixel h same) (chunks n bpp buf) in
  length buf = (n * bpp)%nat
  /\ fst (Ser.SERGetFramePixels movie idx big_endian) = inr pixels
  /\ snd (Ser.SERGetFramePixels movie idx big_endian)
     = snd (Ser.SERGetFrame movie idx)
  /\ (forall m m' e, Ser.SERGetFrame m idx = (inl e, m') ->
        Ser.SERGetFramePixels m idx big_endian
        = (inl (Ser.NoFrame e), m')).
Proof.
  intros h Hget Hdata Hdepth Hwh Hsize n bpp same pixels.
  destruct (Ser.SERGetFrame movie idx) as [res movie'] eqn:Hres.
  cbn [fst snd] in Hget |- *. subst res.
  destruct (SERGetFramePixels_closed movie movie' idx big_endian frame buf)
    as [Hlen Hpx]; trivial.
  fold h n bpp same pixels in Hlen, Hpx.
  rewrite Hpx. cbn [fst snd]. repeat split; trivial.
  intros m m' e Hm. unfold Ser.SERGetFramePixels. now rewrite Hm.
Qed.

Lemma SERGetFramePixels_decodes_each_pixel_witness :
  length rgb12_pixels = (2 * 6)%nat
  /\ fst (Ser.SERGetFramePixels bgr16_movie 0 1)
     = inr (flat_map (decoded_pixel bgr16_header false)
                     (chunks 2 6 rgb12_pixels))
  /\ snd (Ser.SERGetFramePixels bgr16_movie 0 1)
     = snd (Ser.SERGetFrame bgr16_movie 0)
  /\ (forall m m' e, Ser.SERGetFrame m 0 = (inl e, m') ->
        Ser.SERGetFramePixels m 0 1 = (inl (Ser.NoFrame e), m')).
Proof.
  apply (SERGetFramePixels_decodes_each_pixel
           bgr16_movie 0 1 bgr16_frame rgb12_pixels).
  - vm_compute. reflexivity.
  - reflexivity.
  - vm_compute. split; [discriminate | reflexivity].
  - vm_compute. discriminate.
  - vm_compute. reflexivity.
Defined.

Lemma flat_map_chunks_ext_full (f g : list byte -> list byte) (n k : nat)
      (bs : list byte) :
  (n * k <= length bs)%nat ->
  (forall x, length x = k -> f x = g x) ->
  flat_map f (chunks n k bs) = flat_map g (chunks n k bs).
Proof.
  intros Hlen Hfg. revert bs Hlen. induction n as [| n IH]; intros bs Hlen;
    [reflexivity |].
  rewrite chunks_S. cbn [flat_map].
  rewrite Hfg by (rewrite length_take; lia).
  rewrite IH by (rewrite length_drop; lia). reflexivity.
Qed.

Lemma word16_copy (depth : Z) (w : list byte) :
  length w = 2%nat -> 16 <= depth -> word16 true depth w = w.
Proof.
  intros Hw Hd. unfold word16, Ser.convert16.
  destruct (Z.ltb_spec depth 16); [lia |].
  rewrite <- Hw at 1. apply split_le_combine.
Qed.

Lemma word16_swap (depth : Z) (w : list byte) :
  length w = 2%nat -> 16 <= depth -> word16 false depth w = rev w.
Proof.
  intros Hw Hd. unfold word16, Ser.convert16.
  destruct (Z.ltb_spec depth 16); [lia |].
  unfold swapint16, swap_bytes.
  assert (H1 : le_split 2 (le_combine w) = w)
    by (rewrite <- Hw at 1; apply split_le_combine).
  rewrite H1.
  assert (Hr : length (rev w) = 2%nat) by (now rewrite length_rev).
  rewrite <- Hr at 1. apply split_le_combine.
Qed.

Lemma map_chunks_ext_full {B : Type} (f g : list byte -> B) (n k : nat)
      (bs : list byte) :
  (n * k <= length bs)%nat ->
  (forall x, length x = k -> f x = g x) ->
  map f (chunks n k bs) = map g (chunks n k bs).
Proof.
  intros Hlen Hfg. revert bs Hlen. induction n as [| n IH]; intros bs Hlen;
    [reflexivity |].
  rewrite chunks_S. cbn [map].
  rewrite Hfg by (rewrite length_take; lia).
  rewrite IH by (rewrite length_drop; lia). reflexivity.
Qed.

(** X25.  When nothing is to convert, the buffer of [SERGetFramePixels] is
    a copy of the frame: for a mono or RGB frame with channels of one byte,
    whatever endianness is requested, and for a mono or RGB frame of depth
    16 or more when the endianness of the movie is requested.  When the
    other endianness is requested for a mono frame of depth 16 or more,
    the two bytes of every pixel are exchanged. *)
Theorem SERGetFramePixels_copies_the_frame
        (movie : Ser.SERMovie) (idx big_endian : Z)
        (frame : Ser.SERFrame) (buf : list byte) :
  let h := Ser.header movie in
  fst (Ser.SERGetFrame movie idx) = inr frame ->
  Ser.data frame = Some buf ->
  1 <= uiPixelDepth h < 2 ^ 31 ->
  1 <= uiImageWidth h * uiImageHeight h ->
  uiImageWidth h * uiImageHeight h * Ser.SERGetBytesPerPixel h < 2 ^ 32 ->
  let n := Z.to_nat (uiImageWidth h * uiImageHeight h) in
  let same := big_endian =? Z.b2z (Ser.SERIsBigEndian movie) in
  let res := fst (Ser.SERGetFramePixels movie idx big_endian) in
  (uiColorID h <= COLOR_RGB -> uiPixelDepth h <= 8 -> res = inr buf)
  /\ (uiColorID h <= COLOR_RGB -> 16 <= uiPixelDepth h -> same = true ->
      res = inr buf)
  /\ (uiColorID h < COLOR_RGB -> 16 <= uiPixelDepth h -> same = false ->
      res = inr (flat_map (fun w => rev w) (chunks n 2 buf))).
Proof.
  intros h Hget Hdata Hdepth Hwh Hsize n same res.
  destruct (Ser.SERGetFrame movie idx) as [r movie'] eqn:Hres.
  cbn [fst] in Hget. subst r.
  destruct (SERGetFramePixels_closed movie movie' idx big_endian frame buf)
    as [Hlen Hpx]; trivial.
  fold h n same in Hlen, Hpx. subst res. rewrite Hpx. cbn [fst].
  set (bpp := Z.to_nat (Ser.SERGetBytesPerPixel h)) in *.
  assert (Hplanes : Ser.SERGetNumberOfPlanes h
                    = if COLOR_RGB <=? uiColorID h then 3 else 1)
    by reflexivity.
  assert (Hbpp : Z.of_nat bpp
                 = (if uiPixelDepth h <=? 8 then 1 else 2)
                   * Ser.SERGetNumberOfPlanes h).
  { subst bpp. unfold Ser.SERGetBytesPerPixel.
    destruct (Z.ltb_spec (uiPixelDepth h) 1); [lia |].
    rewrite Hplanes.
    destruct (uiPixelDepth h <=? 8), (COLOR_RGB <=? uiColorID h); lia. }
  split; [| split].
  - intros Hcol Hd. f_equal.
    rewrite (flat_map_chunks_ext _ (fun px => px)).
    + now apply flat_map_chunks_id.
    + intros x. unfold decoded_pixel. fold h.
      destruct (Z.leb_spec (uiPixelDepth h) 8); [| lia].
      destruct (Z.leb_spec (uiColorID h) COLOR_RGB); [| lia].
      apply concat_singletons.
  - intros Hcol Hd Hsame. f_equal.
    rewrite (flat_map_chunks_ext_full _ (fun px => px)).
    + now apply flat_map_chunks_id.
    + lia.
    + intros x Hx. unfold decoded_pixel. fold h.
      destruct (Z.leb_spec (uiPixelDepth h) 8); [lia |].
      destruct (Z.leb_spec (uiColorID h) COLOR_RGB); [| lia].
      rewrite Hsame.
      rewrite (map_chunks_ext_full _ (fun w => w)).
      * rewrite map_id. apply concat_chunks.
        destruct (uiPixelDepth h <=? 8) eqn:H8; [lia |]. lia.
      * destruct (uiPixelDepth h <=? 8) eqn:H8; lia.
      * intros w Hw. now apply word16_copy.
  - intros Hcol Hd Hsame. f_equal.
    assert (Hb : bpp = 2%nat).
    { rewrite Hplanes in Hbpp.
      destruct (Z.leb_spec (uiPixelDepth h) 8); [lia |].
      destruct (Z.leb_spec COLOR_RGB (uiColorID h)); lia. }
    rewrite Hb in *.
    apply flat_map_chunks_ext_full; [lia |].
    intros x Hx. unfold decoded_pixel. fold h.
    destruct (Z.leb_spec (uiPixelDepth h) 8); [lia |].
    destruct (Z.leb_spec (uiColorID h) COLOR_RGB); [| lia].
    rewrite Hplanes.
    destruct (Z.leb_spec COLOR_RGB (uiColorID h)); [lia |].
    change (Z.to_nat 1) with 1%nat. rewrite chunks_S. cbn [chunks map concat].
    rewrite app_nil_r, take_ge by lia.
    rewrite Hsame. now apply word16_swap.
Qed.

Lemma SERGetFramePixels_copies_the_frame_witness :
  let res := fst (Ser.SERGetFramePixels rgb8_movie 0 1) in
  (uiColorID rgb8_header <= COLOR_RGB -> uiPixelDepth rgb8_header <= 8 ->
   res = inr rgb12_pixels)
  /\ (uiColorID rgb8_header <= COLOR_RGB -> 16 <= uiPixelDepth rgb8_header ->
      (1 =? Z.b2z (Ser.SERIsBigEndian rgb8_movie)) = true ->
      res = inr rgb12_pixels)
  /\ (uiColorID rgb8_header < COLOR_RGB -> 16 <= uiPixelDepth rgb8_header ->
      (1 =? Z.b2z (Ser.SERIsBigEndian rgb8_movie)) = false ->
      res = inr (flat_map (fun w => rev w) (chunks (Z.to_nat (2 * 2)) 2
                                                  rgb12_pixels))).
Proof.
  apply (SERGetFramePixels_copies_the_frame
           rgb8_movie 0 1 rgb8_frame rgb12_pixels).
  - vm_compute. reflexivity.
  - reflexivity.
  - vm_compute. split; [discriminate | reflexivity].
  - vm_compute. discriminate.
  - vm_compute. reflexivity.
Defined.

Lemma slice_flat_map_chunks (f : list byte -> list byte) (m : nat) :
  (forall x, length x = m -> length (f x) = m) ->
  forall (n k : nat) (bs : list byte),
    (k < n)%nat -> (n * m <= length bs)%nat ->
    slice (k * m) m (flat_map f (chunks n m bs)) = f (slice (k * m) m bs).
Proof.
  intros Hf. induction n as [| n IH]; intros k bs Hk Hlen; [lia |].
  rewrite chunks_S. cbn [flat_map].
  assert (Hfl : length (f (take m bs)) = m)
    by (apply Hf; rewrite length_take; lia).
  destruct k as [| k].
  - cbn [Nat.mul]. unfold slice. rewrite !drop_0.
    rewrite take_app_length' by (symmetry; exact Hfl). reflexivity.
  - unfold slice.
    replace (S k * m)%nat with (length (f (take m bs)) + k * m)%nat by lia.
    rewrite <- drop_drop, drop_app_length.
    fold (slice (k * m) m (flat_map f (chunks n m (drop m bs)))).
    rewrite IH by (try lia; rewrite length_drop; lia).
    unfold slice. rewrite drop_drop. rewrite Hfl. reflexivity.
Qed.

Lemma slice_one (buf : list byte) (off : nat) :
  (off < length buf)%nat -> slice off 1 buf = [nth off buf x00].
Proof.
  revert buf. induction off as [| off IH]; intros buf H;
    (destruct buf as [| c buf]; [cbn in H; lia |]).
  - reflexivity.
  - cbn [nth]. rewrite <- IH by (cbn in H; lia). reflexivity.
Qed.

Lemma slice_two (buf : list byte) (off : nat) :
  (off + 1 < length buf)%nat ->
  slice off 2 buf = [nth off buf x00; nth (off + 1) buf x00].
Proof.
  revert buf. induction off as [| off IH]; intros buf H;
    (destruct buf as [| c buf]; [cbn in H; lia |]).
  - destruct buf as [| d buf]; [cbn in H; lia | reflexivity].
  - cbn [nth Nat.add]. rewrite <- IH by (cbn in H; lia). reflexivity.
Qed.

Lemma slice_three_nth (buf : list byte) (off : nat) :
  (off + 2 < length buf)%nat ->
  slice off 3 buf
  = [nth off buf x00; nth (off + 1) buf x00; nth (off + 2) buf x00].
Proof.
  revert buf. induction off as [| off IH]; intros buf H;
    (destruct buf as [| c buf]; [cbn in H; lia |]).
  - destruct buf as [| d [| e buf]]; cbn in H; try lia. reflexivity.
  - cbn [nth Nat.add]. rewrite <- IH by (cbn in H; lia). reflexivity.
Qed.

Lemma le_combine_one (c : byte) : le_combine [c] = byte.unsigned c.
Proof. cbn. apply Z.lor_0_r. Qed.

Lemma convert16_range (same : bool) (depth : Z) (w : list byte) :
  length w = 2%nat -> 0 <= depth ->
  0 <= Ser.convert16 same depth (le_combine w) < 2 ^ 16.
Proof.
  intros Hw Hd.
  assert (Hc : forall v : list byte, length v = 2%nat ->
                                     0 <= le_combine v < 2 ^ 16).
  { intros v Hv. pose proof (le_combine_bound v) as Hb.
    rewrite Hv in Hb. exact Hb. }
  unfold Ser.convert16.
  destruct (Z.ltb_spec depth 16).
  - unfold Ser.getTruncatedUInt16.
    destruct (16 <=? u32 depth); [| apply wrap_range; lia].
    destruct same; [now apply Hc |].
    apply Hc. now rewrite length_rev, length_le_split.
  - destruct same; [now apply Hc |].
    apply Hc. now rewrite length_rev, length_le_split.
Qed.

(** X26.  [SERGetFramePixel] and [SERGetFramePixels] agree on the frames
    with channels of one byte and on the mono frames with channels of two
    bytes: the value that [SERGetFramePixel] returns for the pixel in
    column [x] of row [y] is the one stored for pixel [y * width + x] in
    the buffer of [SERGetFramePixels], for the same requested
    endianness. *)
Theorem pixel_decoders_agree
        (movie : Ser.SERMovie) (idx big_endian x y : Z)
        (frame : Ser.SERFrame) (buf pixels : list byte) :
  let h := Ser.header movie in
  fst (Ser.SERGetFrame movie idx) = inr frame ->
  Ser.data frame = Some buf ->
  fst (Ser.SERGetFramePixels movie idx big_endian) = inr pixels ->
  1 <= uiPixelDepth h < 2 ^ 31 ->
  uiImageWidth h * uiImageHeight h * Ser.SERGetBytesPerPixel h < 2 ^ 32 ->
  0 <= x < uiImageWidth h -> 0 <= y < uiImageHeight h ->
  let bpp := Z.to_nat (Ser.SERGetBytesPerPixel h) in
  let k := Z.to_nat (y * uiImageWidth h + x) in
  let p := slice (k * bpp) bpp pixels in
  let res := Ser.SERGetFramePixel movie frame x y big_endian in
  (uiColorID h < COLOR_RGB -> uiPixelDepth h <= 8 ->
   res = Some (Ser.PxInt8 (le_combine p)))
  /\ (uiColorID h < COLOR_RGB -> 8 < uiPixelDepth h ->
      res = Some (Ser.PxInt16 (le_combine p)))
  /\ (uiColorID h = COLOR_RGB \/ uiColorID h = COLOR_BGR ->
      uiPixelDepth h <= 8 ->
      res = Some (Ser.PxRgb8 (le_combine (slice 0 1 p))
                             (le_combine (slice 1 1 p))
                             (le_combine (slice 2 1 p)))).
Proof.
  intros h Hget Hdata Hpixels Hdepth Hsize Hx Hy bpp k p res.
  destruct (Ser.SERGetFrame movie idx) as [r movie'] eqn:Hres.
  cbn [fst] in Hget. subst r.
  assert (Hwh : 1 <= uiImageWidth h * uiImageHeight h) by nia.
  destruct (SERGetFramePixels_closed movie movie' idx big_endian frame buf)
    as [Hlen Hpx]; trivial.
  fold h bpp in Hlen, Hpx. rewrite Hpx in Hpixels. cbn [fst] in Hpixels.
  injection Hpixels as Hpixels.
  destruct (SERGetFrame_frame movie movie' idx frame Hres)
    as (buf' & Hdata' & _ & Hd & Hc & Hw & Hht & _ & _).
  fold h in Hd, Hc, Hw, Hht. clear buf' Hdata'.
  set (n := Z.to_nat (uiImageWidth h * uiImageHeight h)) in *.
  set (same := big_endian =? Z.b2z (Ser.SERIsBigEndian movie)) in *.
  assert (Hplanes : Ser.SERGetNumberOfPlanes h
                    = if COLOR_RGB <=? uiColorID h then 3 else 1)
    by reflexivity.
  assert (Hbpp : Z.of_nat bpp
                 = (if COLOR_RGB <=? uiColorID h then 3 else 1)
                   * (if uiPixelDepth h <=? 8 then 1 else 2)).
  { subst bpp. unfold Ser.SERGetBytesPerPixel.
    destruct (Z.ltb_spec (uiPixelDepth h) 1); [lia |].
    rewrite Hplanes.
    destruct (uiPixelDepth h <=? 8), (COLOR_RGB <=? uiColorID h); lia. }
  assert (Hb1 : 1 <= Z.of_nat bpp)
    by (rewrite Hbpp;
        destruct (uiPixelDepth h <=? 8), (COLOR_RGB <=? uiColorID h); lia).
  destruct (pixel_offset_exact (uiImageWidth h) (uiImageHeight h)
                               (Z.of_nat bpp) x y)
    as [Hoff Hk]; trivial.
  { subst bpp. rewrite Z2Nat.id by lia. exact Hsize. }
  assert (Hkn : (k < n)%nat) by (subst k n; lia).
  assert (Hres' :
            res
            = match Ser.data frame with
              | None => None
              | Some buf =>
                  if (Ser.width frame <=? x) || (Ser.height frame <=? y)
                  then None
                  else
                    let channels :=
                      if COLOR_RGB <=? Ser.colorID frame then 3 else 1 in
                    let channel_size :=
                      if Ser.pixelDepth frame <=? 8 then 1 else 2 in
                    let bytes_per_px := channels * channel_size in
                    let offset :=
                      u32 (u32 (u32 (y * Ser.width frame) * bytes_per_px)
                           + u32 (x * bytes_per_px)) in
                    if channel_size =? 1 then
                      if Ser.colorID frame =? COLOR_RGB then
                        Some (Ser.PxRgb8 (Ser.load8 buf offset)
                                         (Ser.load8 buf (offset + 1))
                                         (Ser.load8 buf (offset + 2)))
                      else if Ser.colorID frame =? COLOR_BGR then
                        Some (Ser.PxRgb8 (Ser.load8 buf (offset + 2))
                                         (Ser.load8 buf (offset + 1))
                                         (Ser.load8 buf offset))
                      else if COLOR_RGB <=? Ser.colorID frame
                           then Some Ser.PxIndeterminate
                      else Some (Ser.PxInt8 (Ser.load8 buf offset))
                    else if negb (COLOR_RGB <=? Ser.colorID frame) then
                      Some (Ser.PxInt16
                              (Ser.convert16 same (Ser.pixelDepth frame)
                                              (Ser.load16 buf offset)))
                    else Some Ser.PxIndeterminate
              end \/ COLOR_RGB <= uiColorID h /\ 8 < uiPixelDepth h).
  { subst res. unfold Ser.SERGetFramePixel. rewrite Hdata, Hd, Hc.
    destruct ((Ser.width frame <=? x) || (Ser.height frame <=? y));
      [now left |].
    cbv zeta.
    destruct (Z.leb_spec (uiPixelDepth h) 8) as [H8 | H8].
    { now left. }
    change (2 =? 1) with false. cbv iota.
    destruct (Z.leb_spec COLOR_RGB (uiColorID h)) as [Hcol | Hmono];
      [right; lia | left].
    cbn [negb]. do 2 f_equal.
    unfold Ser.convert16, Ser.getTruncatedUInt16. fold same.
    rewrite (u32_small (uiPixelDepth h)) by (unfold is_u32; lia).
    destruct (Z.ltb_spec (uiPixelDepth h) 16);
      destruct (Z.leb_spec 16 (uiPixelDepth h)); try lia; reflexivity. }
  rewrite Hdata, Hd, Hc, Hw, Hht in Hres'.
  destruct (Z.leb_spec (uiImageWidth h) x); [lia |].
  destruct (Z.leb_spec (uiImageHeight h) y); [lia |].
  cbn [orb] in Hres'. cbv zeta in Hres'.
  rewrite <- Hbpp, Hoff in Hres'.
  replace (y * uiImageWidth h + x) with (Z.of_nat k) in Hres'
    by (subst k; lia).
  assert (Hlenb : (n * bpp <= length buf)%nat) by lia.
  split; [| split].
  - intros Hcol H8. destruct Hres' as [Hres' | ?]; [| lia].
    rewrite Hres'.
    assert (Hb : bpp = 1%nat).
    { destruct (Z.leb_spec (uiPixelDepth h) 8); [| lia].
      destruct (Z.leb_spec COLOR_RGB (uiColorID h)); lia. }
    destruct (Z.leb_spec (uiPixelDepth h) 8); [| lia].
    unfold COLOR_RGB, COLOR_BGR in *.
    change (1 =? 1) with true. cbv iota.
    destruct (Z.eqb_spec (uiColorID h) 100); [lia |].
    destruct (Z.eqb_spec (uiColorID h) 101); [lia |].
    destruct (Z.leb_spec 100 (uiColorID h)); [lia |].
    do 2 f_equal. subst p pixels. rewrite Hb in *.
    rewrite (flat_map_chunks_ext_full _ (fun px => px)); trivial.
    + rewrite slice_flat_map_chunks; trivial.
      rewrite slice_one by lia. rewrite le_combine_one.
      unfold Ser.load8. do 2 f_equal. lia.
    + intros px _. unfold decoded_pixel, COLOR_RGB. fold h.
      destruct (Z.leb_spec (uiPixelDepth h) 8); [| lia].
      destruct (Z.leb_spec (uiColorID h) 100); [| lia].
      apply concat_singletons.
  - intros Hcol H8. destruct Hres' as [Hres' | ?]; [| unfold COLOR_RGB in *; lia].
    rewrite Hres'.
    assert (Hb : bpp = 2%nat).
    { destruct (Z.leb_spec (uiPixelDepth h) 8); [lia |].
      destruct (Z.leb_spec COLOR_RGB (uiColorID h)); lia. }
    destruct (Z.leb_spec (uiPixelDepth h) 8); [lia |].
    change (2 =? 1) with false. cbv iota.
    destruct (Z.leb_spec COLOR_RGB (uiColorID h)); [lia |].
    cbn [negb]. do 2 f_equal. subst p pixels. rewrite Hb in *.
    rewrite (flat_map_chunks_ext_full
               _ (word16 same (uiPixelDepth h))); trivial.
    + rewrite slice_flat_map_chunks; trivial;
        try (intros; apply length_le_split).
      rewrite slice_two by lia. unfold word16.
      rewrite le_combine_split.
      rewrite Z.mod_small.
      * unfold Ser.load16. do 3 f_equal; [f_equal; lia |].
        do 2 f_equal. lia.
      * apply convert16_range; [reflexivity | lia].
    + intros px Hl. unfold decoded_pixel, COLOR_RGB. fold h.
      destruct (Z.leb_spec (uiPixelDepth h) 8); [lia |].
      unfold COLOR_RGB in *.
      destruct (Z.leb_spec (uiColorID h) 100); [| lia].
      rewrite Hplanes.
      destruct (Z.leb_spec 100 (uiColorID h)); [lia |].
      change (Z.to_nat 1) with 1%nat. rewrite chunks_S.
      cbn [chunks map concat]. rewrite app_nil_r, take_ge by lia.
      reflexivity.
  - intros Hcol H8. destruct Hres' as [Hres' | ?]; [| lia].
    rewrite Hres'.
    assert (Hb : bpp = 3%nat).
    { destruct (Z.leb_spec (uiPixelDepth h) 8); [| lia].
      unfold COLOR_RGB, COLOR_BGR in *.
      destruct (Z.leb_spec 100 (uiColorID h)); lia. }
    destruct (Z.leb_spec (uiPixelDepth h) 8); [| lia].
    change (1 =? 1) with true. cbv iota.
    subst p pixels. rewrite Hb in *.
    rewrite (flat_map_chunks_ext_full
               _ (fun px => if uiColorID h =? COLOR_RGB then px else rev px));
      trivial.
    + rewrite slice_flat_map_chunks; trivial.
      2: { intros px Hl. destruct (uiColorID h =? COLOR_RGB);
             [exact Hl | now rewrite length_rev]. }
      rewrite slice_three_nth by lia.
      unfold Ser.load8.
      replace (Z.to_nat (Z.of_nat k * Z.of_nat 3)) with (k * 3)%nat by lia.
      replace (Z.to_nat (Z.of_nat k * Z.of_nat 3 + 1)) with (k * 3 + 1)%nat
        by lia.
      replace (Z.to_nat (Z.of_nat k * Z.of_nat 3 + 2)) with (k * 3 + 2)%nat
        by lia.
      unfold COLOR_RGB, COLOR_BGR in *.
      destruct (Z.eqb_spec (uiColorID h) 100) as [H100 | H100].
      * unfold slice. cbn [drop take]. now rewrite !le_combine_one.
      * destruct (Z.eqb_spec (uiColorID h) 101); [| lia].
        unfold slice. cbn [rev app drop take]. now rewrite !le_combine_one.
    + intros px Hl. unfold decoded_pixel, COLOR_RGB. fold h.
      destruct (Z.leb_spec (uiPixelDepth h) 8); [| lia].
      unfold COLOR_RGB, COLOR_BGR in *.
      destruct (Z.eqb_spec (uiColorID h) 100),
        (Z.leb_spec (uiColorID h) 100); try lia.
      * apply concat_singletons.
      * apply concat_rev_singletons.
Qed.

Lemma pixel_decoders_agree_witness :
  let p := slice (Z.to_nat (1 * 3 + 1) * 2) 2 mono12_decoded in
  let res := Ser.SERGetFramePixel mono12_movie mono12_frame 1 1 0 in
  (uiColorID mono12_header < COLOR_RGB -> uiPixelDepth mono12_header <= 8 ->
   res = Some (Ser.PxInt8 (le_combine p)))
  /\ (uiColorID mono12_header < COLOR_RGB -> 8 < uiPixelDepth mono12_header ->
      res = Some (Ser.PxInt16 (le_combine p)))
  /\ (uiColorID mono12_header = COLOR_RGB
      \/ uiColorID mono12_header = COLOR_BGR ->
      uiPixelDepth mono12_header <= 8 ->
      res = Some (Ser.PxRgb8 (le_combine (slice 0 1 p))
                             (le_combine (slice 1 1 p))
                             (le_combine (slice 2 1 p)))).
Proof.
  apply (pixel_decoders_agree mono12_movie 0 0 1 1 mono12_frame
                              rgb12_pixels mono12_decoded).
  - vm_compute. reflexivity.
  - reflexivity.
  - vm_compute. reflexivity.
  - vm_compute. split; [discriminate | reflexivity].
  - vm_compute. reflexivity.
  - vm_compute. split; [discriminate | reflexivity].
  - vm_compute. split; [discriminate | reflexivity].
Defined.

(** ** From the command line to the container *)

Lemma range_of_from_to (h : SERHeader) (a b : Z) :
  0 <= uiFrameCount h < 2 ^ 31 ->
  1 <= a <= b -> b <= uiFrameCount h ->
  SerUtils.determineFrameRange h (a - 1) (b - 1) 0
  = SerUtils.Returns (SerUtils.mkRange (a - 1) (b - 1) (b - a + 1)).
Proof.
  intros HN Hab Hb.
  rewrite determineFrameRange_cases by (trivial; unfold is_int; lia).
  destruct (Z.ltb_spec (a - 1) 0); [lia |].
  change (0 <? 0) with false. cbv iota.
  destruct (Z.ltb_spec (b - 1) 0); [lia |].
  destruct (Z.leb_spec (uiFrameCount h) (a - 1)); [lia |].
  destruct (Z.leb_spec (uiFrameCount h) (b - 1)); [lia |].
  destruct (Z.ltb_spec (b - 1) (a - 1)); [lia |].
  destruct (Z.leb_spec 0 (a - 1)); [| lia].
  do 2 f_equal. lia.
Qed.

(** X27.  The whole way of [--extract s..t], without [--check], on a file
    that holds a header with the magic string, all its frames and all their
    timestamps: for numerals [s] and [t] of values [a <= b] between 1 and
    the frame count, the argument is accepted, the file is opened, and the
    container that is written holds the frames [a] to [b], counted from 1
    and both included, with their timestamps. *)
Theorem extract_from_the_command_line
        (h : SERHeader) (frames trailer s t : list byte) :
  whole_movie h frames trailer ->
  take 15 (bytes_of_header h) = SER_FILE_ID ++ [x00] ->
  numeral s -> numeral t ->
  let a := decimal s in
  let b := decimal t in
  1 <= a <= b -> b <= uiFrameCount h ->
  (forall k, a - 1 <= Z.of_nat k <= b - 1 -> trailer_date trailer k <> 0) ->
  exists from to count movie,
    SerUtils.parseFrameRangeArgument (s ++ [x2e; x2e] ++ t)
    = SerUtils.RangeParsed from to count
    /\ SerUtils.openMovie (Some (bytes_of_header h ++ frames ++ trailer))
       = inr movie
    /\ SerUtils.range_action (SerUtils.mkMainConfig from to count 0 0)
                              SerUtils.ACTION_EXTRACT movie
       = inr (extracted_movie h frames trailer
                              (SerUtils.mkRange (a - 1) (b - 1) (b - a + 1))).
Proof.
  intros Hwhole Hmagic Hs Ht a b Hab Hb Hdates.
  pose proof (whole_count _ _ _ Hwhole) as Hcount.
  destruct (openMovie_closed h frames trailer Hwhole Hmagic)
    as (f3 & Hopen & Hdata).
  exists (a - 1), (b - 1), 0. eexists.
  split; [apply parse_from_to; trivial; fold a; fold b; lia |].
  split; [exact Hopen |].
  unfold SerUtils.range_action.
  cbn [SerUtils.frames_from SerUtils.frames_to SerUtils.frames_count
       SerUtils.header].
  rewrite range_of_from_to by lia.
  change (SerUtils.ACTION_EXTRACT =? SerUtils.ACTION_EXTRACT) with true.
  cbv iota.
  match goal with
  | |- context [SerUtils.extractFramesFromVideo ?m _] => set (movie := m)
  end.
  assert (Hon : movie_on h (bytes_of_header h ++ frames ++ trailer) movie)
    by (split; [reflexivity | exact Hdata]).
  destruct (extractFramesFromVideo_range_closed
              h frames trailer movie (Z.to_nat (a - 1))
              (Z.to_nat (b - a + 1)) (b - 1))
    as (movie' & Hext & _); trivial; try lia.
  { intros k Hk. apply Hdates. lia. }
  rewrite !Z2Nat.id in Hext by lia. rewrite Hext. cbn [fst].
  unfold extracted_movie.
  cbn [SerUtils.from SerUtils.to SerUtils.count]. reflexivity.
Qed.

Lemma extract_from_the_command_line_witness :
  exists from to count movie,
    SerUtils.parseFrameRangeArgument ([x32] ++ [x2e; x2e] ++ [x33])
    = SerUtils.RangeParsed from to count
    /\ SerUtils.openMovie
         (Some (bytes_of_header (split_header 4)
                ++ four_frames ++ four_dates))
       = inr movie
    /\ SerUtils.range_action (SerUtils.mkMainConfig from to count 0 0)
                              SerUtils.ACTION_EXTRACT movie
       = inr (extracted_movie
                (split_header 4) four_frames four_dates
                (SerUtils.mkRange (decimal [x32] - 1) (decimal [x33] - 1)
                                  (decimal [x33] - decimal [x32] + 1))).
Proof.
  apply (extract_from_the_command_line
           (split_header 4) four_frames four_dates [x32] [x33]).
  - exact four_frames_whole.
  - reflexivity.
  - split; [discriminate | reflexivity].
  - split; [discriminate | reflexivity].
  - vm_compute. split; discriminate.
  - vm_compute. discriminate.
  - intros k Hk. apply four_dates_nonzero.
    change (decimal [x33]) with 3 in Hk. lia.
Defined.

Lemma cutFramesFromVideo_first_closed
      (h : SERHeader) (frames trailer : list byte)
      (movie : SerUtils.SERMovie) (b : nat) :
  whole_movie h frames trailer ->
  Z.of_nat b < uiFrameCount h ->
  trailer_date trailer b <> 0 ->
  movie_on h (bytes_of_header h ++ frames ++ trailer) movie ->
  fst (SerUtils.cutFramesFromVideo
         movie (SerUtils.mkRange 0 (Z.of_nat b) (Z.of_nat b + 1)))
  = inl (if Z.of_nat b + 1 =? uiFrameCount h
         then SerUtils.CutTooManyFrames
         else SerUtils.CutUninitialized).
Proof.
  intros Hwhole Hb Hdate Hon.
  pose proof (whole_count _ _ _ Hwhole) as Hcount.
  destruct (Z.eqb_spec (Z.of_nat b + 1) (uiFrameCount h)) as [Hall | Hrest].
  - unfold SerUtils.cutFramesFromVideo.
    cbn [SerUtils.from SerUtils.to SerUtils.count].
    rewrite (proj1 Hon).
    destruct (Z.leb_spec (uiFrameCount h) (Z.of_nat b + 1)); [| lia].
    reflexivity.
  - destruct (cutFramesFromVideo_prologue
                h frames trailer movie O b (S b) b Hwhole)
      as (movie0 & Hon0 & Hcut); trivial; try lia.
    change (Z.of_nat 0) with 0 in Hcut.
    replace (Z.of_nat (S b)) with (Z.of_nat b + 1) in Hcut by lia.
    rewrite Hcut. clear Hcut.
    cbn [SerUtils.cut_head_loop]. change (u32 0 <? 0) with false.
    cbn [SerUtils.cut_tail_loop].
    rewrite (u32_small (Z.of_nat b + 1)) by (unfold is_u32; lia).
    destruct (Z.leb_spec (Z.of_nat b + 1) (uiFrameCount h - 1)); [| lia].
    reflexivity.
Qed.

(** X28.  The whole way of [--cut s..t], without [--check], on a file that
    holds a header with the magic string, all its frames and all their
    timestamps, for numerals [s] and [t] of values [a <= b] between 1 and
    the frame count.  From the second frame on ([2 <= a]), the container
    that is written holds the frames before [a] and those after [b],
    counted from 1, with their timestamps.  For a range that starts at the
    first frame ([a = 1]), the cut is refused when the range is the whole
    movie, and otherwise [cutFramesFromVideo] reaches undefined behaviour,
    the read of a variable that has no value. *)
Theorem cut_from_the_command_line
        (h : SERHeader) (frames trailer s t : list byte) :
  whole_movie h frames trailer ->
  take 15 (bytes_of_header h) = SER_FILE_ID ++ [x00] ->
  numeral s -> numeral t ->
  let a := decimal s in
  let b := decimal t in
  1 <= a <= b -> b <= uiFrameCount h ->
  (forall k, Z.of_nat k < uiFrameCount h ->
             Z.of_nat k < a - 1 \/ b - 1 <= Z.of_nat k ->
             trailer_date trailer k <> 0) ->
  let fs := Z.to_nat (SerUtils.getFrameSize h) in
  let first := trailer_date trailer 0 in
  let h' :=
    SerUtils.set_dates
      (SerUtils.set_uiFrameCount h (uiFrameCount h - (b - a + 1)))
      first (new_utc_date h first) in
  exists from to count movie,
    SerUtils.parseFrameRangeArgument (s ++ [x2e; x2e] ++ t)
    = SerUtils.RangeParsed from to count
    /\ SerUtils.openMovie (Some (bytes_of_header h ++ frames ++ trailer))
       = inr movie
    /\ SerUtils.range_action (SerUtils.mkMainConfig from to count 0 0)
                              SerUtils.ACTION_CUT movie
       = if a =? 1
         then inl (SerUtils.CutStopped
                     (if b =? uiFrameCount h
                      then SerUtils.CutTooManyFrames
                      else SerUtils.CutUninitialized))
         else inr (bytes_of_header h'
                   ++ (take (Z.to_nat (a - 1) * fs) frames
                       ++ drop (Z.to_nat b * fs) frames)
                   ++ (take (8 * Z.to_nat (a - 1)) trailer
                       ++ drop (8 * Z.to_nat b) trailer)).
Proof.
  intros Hwhole Hmagic Hs Ht a b Hab Hb Hdates fs first h'.
  pose proof (whole_count _ _ _ Hwhole) as Hcount.
  destruct (openMovie_closed h frames trailer Hwhole Hmagic)
    as (f3 & Hopen & Hdata).
  exists (a - 1), (b - 1), 0. eexists.
  split; [apply parse_from_to; trivial; fold a; fold b; lia |].
  split; [exact Hopen |].
  unfold SerUtils.range_action.
  cbn [SerUtils.frames_from SerUtils.frames_to SerUtils.frames_count
       SerUtils.header].
  rewrite range_of_from_to by lia.
  change (SerUtils.ACTION_CUT =? SerUtils.ACTION_EXTRACT) with false.
  change (SerUtils.ACTION_CUT =? SerUtils.ACTION_CUT) with true.
  cbv iota.
  match goal with
  | |- context [SerUtils.cutFramesFromVideo ?m _] => set (movie := m)
  end.
  assert (Hon : movie_on h (bytes_of_header h ++ frames ++ trailer) movie)
    by (split; [reflexivity | exact Hdata]).
  destruct (Z.eqb_spec a 1) as [Ha1 | Ha1].
  - pose proof (cutFramesFromVideo_first_closed
                  h frames trailer movie (Z.to_nat (b - 1)) Hwhole) as Hcut.
    rewrite !Z2Nat.id in Hcut by lia.
    replace (a - 1) with 0 by lia.
    replace (b - a + 1) with (b - 1 + 1) by lia.
    rewrite Hcut; trivial; try lia.
    + replace (b - 1 + 1) with b by lia. reflexivity.
    + apply Hdates; lia.
  - destruct (cutFramesFromVideo_closed
                h frames trailer movie (Z.to_nat (a - 1)) (Z.to_nat (b - 1)))
      as (movie' & Hcut & _); trivial; try lia.
    { intros k Hk Hout. apply Hdates; lia. }
    rewrite !Z2Nat.id in Hcut by lia.
    replace (Z.of_nat (Z.to_nat (b - 1) - Z.to_nat (a - 1) + 1))
      with (b - a + 1) in Hcut by lia.
    rewrite Hcut. cbn [fst]. fold fs first. subst h'.
    replace (S (Z.to_nat (b - 1))) with (Z.to_nat b) by lia.
    reflexivity.
Qed.

Lemma cut_from_the_command_line_witness :
  let h := split_header 4 in
  let first := trailer_date four_dates 0 in
  let h' :=
    SerUtils.set_dates
      (SerUtils.set_uiFrameCount
         h (4 - (decimal [x33] - decimal [x32] + 1)))
      first (new_utc_date h first) in
  exists from to count movie,
    SerUtils.parseFrameRangeArgument ([x32] ++ [x2e; x2e] ++ [x33])
    = SerUtils.RangeParsed from to count
    /\ SerUtils.openMovie
         (Some (bytes_of_header h ++ four_frames ++ four_dates))
       = inr movie
    /\ SerUtils.range_action (SerUtils.mkMainConfig from to count 0 0)
                              SerUtils.ACTION_CUT movie
       = if decimal [x32] =? 1
         then inl (SerUtils.CutStopped
                     (if decimal [x33] =? 4
                      then SerUtils.CutTooManyFrames
                      else SerUtils.CutUninitialized))
         else inr (bytes_of_header h'
                   ++ (take (Z.to_nat (decimal [x32] - 1)
                             * Z.to_nat (SerUtils.getFrameSize h))
                            four_frames
                       ++ drop (Z.to_nat (decimal [x33])
                                * Z.to_nat (SerUtils.getFrameSize h))
                               four_frames)
                   ++ (take (8 * Z.to_nat (decimal [x32] - 1)) four_dates
                       ++ drop (8 * Z.to_nat (decimal [x33])) four_dates)).
Proof.
  apply (cut_from_the_command_line
           (split_header 4) four_frames four_dates [x32] [x33]).
  - exact four_frames_whole.
  - reflexivity.
  - split; [discriminate | reflexivity].
  - split; [discriminate | reflexivity].
  - vm_compute. split; discriminate.
  - vm_compute. discriminate.
  - intros k Hk _. now apply four_dates_nonzero.
Defined.
